(** * A CRM front end over a row-level-secured store

    Shallow embedding of the leads-management application: the SQL schema
    with its row-level-security policies and foreign keys (the migration),
    the row types of [lib/supabase.ts], and the handlers of the Tasks,
    Deals, Dashboard and Activities screens.

    Conventions of the embedding.
    - A JavaScript [number] is an IEEE-754 binary64 value, taken from the
      Standard Library's [SpecFloat] (precision 53, [emax] 1024).  Numbers
      that are array lengths or row counts are carried as [Z], and enter
      binary64 at the first division.
    - A timestamp ([timestamptz], [new Date(..)]) is an instant, a [Z] count
      of milliseconds; [new Date()] is the parameter [now] of whoever reads
      the clock.
    - Identifiers (uuid) are strings.
    - A table is the list of its rows, in storage order; a select with an
      order clause returns its rows sorted. *)

From Stdlib Require Import ZArith Floats.SpecFloat Ascii String.
From stdpp Require Import gmap strings list sorting pretty.

Open Scope Z_scope.

(* ===================================================================== *)
(** * Part I: definitions                                                 *)
(* ===================================================================== *)

(** ** JavaScript numbers and the built-ins the handlers call *)

Module JS.

Abbreviation number := spec_float.

Definition prec : Z := 53.
Definition emax : Z := 1024.

Definition of_Z (n : Z) : number := binary_normalize prec emax n 0 false.
Definition add : number -> number -> number := SFadd prec emax.
Definition mul : number -> number -> number := SFmul prec emax.
Definition div : number -> number -> number := SFdiv prec emax.

(** [ToBoolean] on a number: [NaN], [+0] and [-0] are falsy. *)
Definition truthy (x : number) : bool :=
  match x with
  | S754_zero _ | S754_nan => false
  | _ => true
  end.

(** [x || y] on numbers. *)
Definition or_else (x y : number) : number := if truthy x then x else y.

(** [floor (v * 10^k + 1/2)] for the finite value [v = ±m * 2^e], the
    integer both [Math.round] ([k = 0]) and [toFixed] are built on. *)
Definition scaled_round (k : Z) (s : bool) (m : positive) (e : Z) : Z :=
  let v := (if s then Z.neg m else Z.pos m) * 10 ^ k in
  if 0 <=? e then v * 2 ^ e else (2 * v + 2 ^ (- e)) / 2 ^ (1 - e).

(** [Math.round]: the nearest integer, ties towards +∞; zeros, infinities
    and [NaN] are returned as they are, and a result of zero keeps the
    sign of the argument. *)
Definition Math_round (x : number) : number :=
  match x with
  | S754_finite s m e =>
      let n := scaled_round 0 s m e in
      if n =? 0 then S754_zero s else of_Z n
  | _ => x
  end.

(** The integer a finite integral number stands for. *)
Definition to_Z (x : number) : option Z :=
  match x with
  | S754_zero _ => Some 0
  | S754_finite s m e =>
      if 0 <=? e then Some ((if s then Z.neg m else Z.pos m) * 2 ^ e)
      else if Z.pos m mod 2 ^ (- e) =? 0
           then Some ((if s then Z.neg m else Z.pos m) / 2 ^ (- e))
           else None
  | _ => None
  end.

(** [x.toFixed(1)], for [|x| < 10^21] (beyond that JavaScript switches to
    the exponent notation, which ratios of row counts never reach). *)
Definition toFixed1 (x : number) : string :=
  match x with
  | S754_nan => "NaN"
  | S754_infinity false => "Infinity"
  | S754_infinity true => "-Infinity"
  | S754_zero _ => "0.0"
  | S754_finite s m e =>
      let n := scaled_round 1 false m e in
      ((if s then "-" else "") ++ pretty (n / 10) ++ "." ++ pretty (n mod 10))%string
  end.

(** *** Parsing *)

Definition is_white (c : ascii) : bool :=
  let n := nat_of_ascii c in
  ((9 <=? n) && (n <=? 13))%nat || (n =? 32)%nat.

Fixpoint skip_white (s : list ascii) : list ascii :=
  match s with
  | c :: r => if is_white c then skip_white r else s
  | [] => []
  end.

(** The value of a character as a digit of the given radix. *)
Definition digit_of (radix : Z) (c : ascii) : option Z :=
  let n := Z.of_nat (nat_of_ascii c) in
  let d := if (48 <=? n) && (n <=? 57) then Some (n - 48)
           else if (97 <=? n) && (n <=? 122) then Some (n - 87)
           else if (65 <=? n) && (n <=? 90) then Some (n - 55)
           else None in
  match d with
  | Some v => if v <? radix then Some v else None
  | None => None
  end.

(** Longest prefix of digits: the digits read, their count, and the rest. *)
Fixpoint read_digits (radix : Z) (s : list ascii) (acc : Z) (count : nat)
  : Z * nat * list ascii :=
  match s with
  | c :: r =>
      match digit_of radix c with
      | Some d => read_digits radix r (acc * radix + d) (S count)
      | None => (acc, count, s)
      end
  | [] => (acc, count, [])
  end.

Definition read_sign (s : list ascii) : bool * list ascii :=
  match s with
  | "-"%char :: r => (true, r)
  | "+"%char :: r => (false, r)
  | _ => (false, s)
  end.

(** [parseInt(s)] with no radix argument: leading white space, a sign, an
    optional [0x]/[0X], then the longest run of digits.  With no digit the
    result is [NaN]; otherwise it is the number nearest to the integer read
    (an infinity when that is out of range), with the sign read, so that
    ["-0"] gives [-0].  (Past twenty significant digits the language lets
    an implementation round the decimal digits first; the integer is taken
    exactly here.) *)
Definition parseInt (str : string) : number :=
  let s := skip_white (list_ascii_of_string str) in
  let '(neg, s) := read_sign s in
  let '(radix, s) :=
    match s with
    | "0"%char :: "x"%char :: r | "0"%char :: "X"%char :: r => (16, r)
    | _ => (10, s)
    end in
  let '(n, count, _) := read_digits radix s 0 0 in
  match count with
  | O => S754_nan
  | _ => if n =? 0 then S754_zero neg else of_Z (if neg then - n else n)
  end.

(** The binary64 value nearest to [±m * 10^e10]. *)
Definition of_decimal (s : bool) (m : Z) (e10 : Z) : number :=
  match m with
  | Z0 => S754_zero s
  | Zpos p =>
      if 0 <=? e10
      then binary_normalize prec emax (if s then - (m * 10 ^ e10) else m * 10 ^ e10) 0 false
      else match 10 ^ (- e10) with
           | Zpos q => div (S754_finite s p 0) (S754_finite false q 0)
           | _ => S754_nan
           end
  | Zneg _ => S754_nan
  end.

Definition starts_with (p s : list ascii) : bool :=
  bool_decide (take (length p) s = p).

(** The exponent part [e][+-]digits, when there is a complete one. *)
Definition read_exponent (s : list ascii) : Z :=
  match s with
  | "e"%char :: r | "E"%char :: r =>
      let '(neg, r) := read_sign r in
      let '(n, count, _) := read_digits 10 r 0 0 in
      match count with
      | O => 0
      | _ => if neg then - n else n
      end
  | _ => 0
  end.

(** [parseFloat(s)]: leading white space, then the longest prefix that is
    a decimal literal ([Infinity], digits with an optional fraction and
    exponent); [NaN] when there is none. *)
Definition parseFloat (str : string) : number :=
  let s := skip_white (list_ascii_of_string str) in
  let '(neg, s) := read_sign s in
  if starts_with (list_ascii_of_string "Infinity") s then S754_infinity neg
  else
    let '(ip, icount, s) := read_digits 10 s 0 0 in
    let '(m, fcount, s) :=
      match s with
      | "."%char :: r => read_digits 10 r ip 0
      | _ => (ip, O, s)
      end in
    match icount, fcount with
    | O, O => S754_nan
    | _, _ => of_decimal neg m (read_exponent s - Z.of_nat fcount)
    end.

End JS.

(** ** The value of a number input ([<input type="number">]) *)

Module HTML.
(** The number a valid floating-point number stands for: an optional [-],
    then digits, a fraction of [.] and digits, or both, then optionally
    [e] or [E], an optional sign and digits, and nothing else.  [None]:
    the text is not of that form, and cannot be the value of the input. *)
Definition number_of (str : string) : option JS.number :=
  let s := list_ascii_of_string str in
  let '(neg, s) :=
    match s with
    | "-"%char :: r => (true, r)
    | _ => (false, s)
    end in
  let '(ip, icount, s) := JS.read_digits 10 s 0 0 in
  let '(m, fcount, dot, s) :=
    match s with
    | "."%char :: r =>
        let '(m, fcount, r) := JS.read_digits 10 r ip 0 in (m, fcount, true, r)
    | _ => (ip, O, false, s)
    end in
  if (dot && bool_decide (fcount = O))
     || (bool_decide (icount = O) && bool_decide (fcount = O))
  then None
  else
    match s with
    | [] => Some (JS.of_decimal neg m (- Z.of_nat fcount))
    | "e"%char :: r | "E"%char :: r =>
        let '(eneg, r) := JS.read_sign r in
        let '(x, xcount, r) := JS.read_digits 10 r 0 0 in
        match xcount, r with
        | S _, [] =>
            Some (JS.of_decimal neg m ((if eneg then - x else x) - Z.of_nat fcount))
        | _, _ => None
        end
    | _ => None
    end.
End HTML.

(** ** What a call to the store answers *)

Inductive error :=
| row_level_security_violation
| not_null_violation
| unique_violation
| numeric_value_out_of_range
| invalid_text_representation
| network_failure.

Inductive response (A : Type) :=
| Ok (data : A)
| Error (e : error).
Arguments Ok {A} data.
Arguments Error {A} e.

(** What a column declared [integer] makes of a number of a JSON body.
    [JSON.stringify] writes [NaN] and the infinities as [null]; an integral
    number below [10^21] is written with all its digits and is taken when
    it fits 32 bits; anything else (a fraction, or the exponent notation
    from [10^21] on) is no integer literal. *)
Definition integer_column (x : JS.number) : response (option Z) :=
  match x with
  | S754_nan | S754_infinity _ => Ok None
  | _ =>
      match JS.to_Z x with
      | Some z =>
          if (- 2 ^ 31 <=? z) && (z <? 2 ^ 31) then Ok (Some z)
          else if Z.abs z <? 10 ^ 21 then Error numeric_value_out_of_range
               else Error invalid_text_representation
      | None => Error invalid_text_representation
      end
  end.

(** ** Row types ([lib/supabase.ts]) *)

Definition uuid := string.
Definition timestamp := Z.

Module Company.
Record t := mk {
  id : uuid;
  name : string;
  industry : option string;
  website : option string;
  phone : option string;
  email : option string;
  address : option string;
  notes : option string;
  user_id : uuid;
  created_at : timestamp;
  updated_at : timestamp }.
End Company.

Module Contact.
Record t := mk {
  id : uuid;
  first_name : string;
  last_name : string;
  email : option string;
  phone : option string;
  title : option string;
  company_id : option uuid;
  notes : option string;
  user_id : uuid;
  created_at : timestamp;
  updated_at : timestamp }.
End Contact.

Module Deal.
(** [probability] is declared [integer DEFAULT 0] with no [NOT NULL]: the
    stored column may be null, whatever the interface says of it. *)
Record t := mk {
  id : uuid;
  title : string;
  value : JS.number;
  stage : string;
  probability : option Z;
  expected_close_date : option string;
  company_id : option uuid;
  contact_id : option uuid;
  notes : option string;
  user_id : uuid;
  created_at : timestamp;
  updated_at : timestamp }.

(** One [column: value] pair of an update payload. *)
Inductive assignment :=
| set_title (v : string)
| set_value (v : JS.number)
| set_stage (v : string)
| set_probability (v : JS.number)
| set_expected_close_date (v : option string)
| set_company_id (v : option uuid)
| set_contact_id (v : option uuid)
| set_notes (v : option string)
| set_user_id (v : uuid)
| set_created_at (v : timestamp)
| set_updated_at (v : timestamp).

Definition assign (r : t) (a : assignment) : t :=
  match a with
  | set_title v => mk (id r) v (value r) (stage r) (probability r) (expected_close_date r) (company_id r) (contact_id r) (notes r) (user_id r) (created_at r) (updated_at r)
  | set_value v => mk (id r) (title r) v (stage r) (probability r) (expected_close_date r) (company_id r) (contact_id r) (notes r) (user_id r) (created_at r) (updated_at r)
  | set_stage v => mk (id r) (title r) (value r) v (probability r) (expected_close_date r) (company_id r) (contact_id r) (notes r) (user_id r) (created_at r) (updated_at r)
  | set_probability v => mk (id r) (title r) (value r) (stage r) (match integer_column v with Ok z => z | Error _ => probability r end) (expected_close_date r) (company_id r) (contact_id r) (notes r) (user_id r) (created_at r) (updated_at r)
  | set_expected_close_date v => mk (id r) (title r) (value r) (stage r) (probability r) v (company_id r) (contact_id r) (notes r) (user_id r) (created_at r) (updated_at r)
  | set_company_id v => mk (id r) (title r) (value r) (stage r) (probability r) (expected_close_date r) v (contact_id r) (notes r) (user_id r) (created_at r) (updated_at r)
  | set_contact_id v => mk (id r) (title r) (value r) (stage r) (probability r) (expected_close_date r) (company_id r) v (notes r) (user_id r) (created_at r) (updated_at r)
  | set_notes v => mk (id r) (title r) (value r) (stage r) (probability r) (expected_close_date r) (company_id r) (contact_id r) v (user_id r) (created_at r) (updated_at r)
  | set_user_id v => mk (id r) (title r) (value r) (stage r) (probability r) (expected_close_date r) (company_id r) (contact_id r) (notes r) v (created_at r) (updated_at r)
  | set_created_at v => mk (id r) (title r) (value r) (stage r) (probability r) (expected_close_date r) (company_id r) (contact_id r) (notes r) (user_id r) v (updated_at r)
  | set_updated_at v => mk (id r) (title r) (value r) (stage r) (probability r) (expected_close_date r) (company_id r) (contact_id r) (notes r) (user_id r) (created_at r) v
  end.

(** [UPDATE deals SET ...]: the assignments of the payload, in order. *)
Definition patch (p : list assignment) (r : t) : t := fold_left assign p r.

(** The payload read into the column types, before any row is looked at:
    the first value that its column does not take fails the statement. *)
Fixpoint typed (p : list assignment) : response unit :=
  match p with
  | [] => Ok tt
  | set_probability v :: rest =>
      match integer_column v with
      | Ok _ => typed rest
      | Error e => Error e
      end
  | _ :: rest => typed rest
  end.
End Deal.

Module Task.
Inductive priority_t := low | medium | high.
Inductive status_t := pending | in_progress | completed.

#[global] Instance status_eq_dec : EqDecision status_t.
Proof. solve_decision. Defined.

Record t := mk {
  id : uuid;
  title : string;
  description : option string;
  due_date : option timestamp;
  priority : priority_t;
  status : status_t;
  contact_id : option uuid;
  company_id : option uuid;
  deal_id : option uuid;
  user_id : uuid;
  created_at : timestamp;
  updated_at : timestamp }.

Inductive assignment :=
| set_title (v : string)
| set_description (v : option string)
| set_due_date (v : option timestamp)
| set_priority (v : priority_t)
| set_status (v : status_t)
| set_contact_id (v : option uuid)
| set_company_id (v : option uuid)
| set_deal_id (v : option uuid)
| set_user_id (v : uuid)
| set_created_at (v : timestamp)
| set_updated_at (v : timestamp).

Definition assign (r : t) (a : assignment) : t :=
  match a with
  | set_title v => mk (id r) v (description r) (due_date r) (priority r) (status r) (contact_id r) (company_id r) (deal_id r) (user_id r) (created_at r) (updated_at r)
  | set_description v => mk (id r) (title r) v (due_date r) (priority r) (status r) (contact_id r) (company_id r) (deal_id r) (user_id r) (created_at r) (updated_at r)
  | set_due_date v => mk (id r) (title r) (description r) v (priority r) (status r) (contact_id r) (company_id r) (deal_id r) (user_id r) (created_at r) (updated_at r)
  | set_priority v => mk (id r) (title r) (description r) (due_date r) v (status r) (contact_id r) (company_id r) (deal_id r) (user_id r) (created_at r) (updated_at r)
  | set_status v => mk (id r) (title r) (description r) (due_date r) (priority r) v (contact_id r) (company_id r) (deal_id r) (user_id r) (created_at r) (updated_at r)
  | set_contact_id v => mk (id r) (title r) (description r) (due_date r) (priority r) (status r) v (company_id r) (deal_id r) (user_id r) (created_at r) (updated_at r)
  | set_company_id v => mk (id r) (title r) (description r) (due_date r) (priority r) (status r) (contact_id r) v (deal_id r) (user_id r) (created_at r) (updated_at r)
  | set_deal_id v => mk (id r) (title r) (description r) (due_date r) (priority r) (status r) (contact_id r) (company_id r) v (user_id r) (created_at r) (updated_at r)
  | set_user_id v => mk (id r) (title r) (description r) (due_date r) (priority r) (status r) (contact_id r) (company_id r) (deal_id r) v (created_at r) (updated_at r)
  | set_created_at v => mk (id r) (title r) (description r) (due_date r) (priority r) (status r) (contact_id r) (company_id r) (deal_id r) (user_id r) v (updated_at r)
  | set_updated_at v => mk (id r) (title r) (description r) (due_date r) (priority r) (status r) (contact_id r) (company_id r) (deal_id r) (user_id r) (created_at r) v
  end.

Definition patch (p : list assignment) (r : t) : t := fold_left assign p r.
End Task.

Module Activity.
Inductive type_t := call | email | meeting | note.

Record t := mk {
  id : uuid;
  type : type_t;
  subject : string;
  description : option string;
  activity_date : timestamp;
  contact_id : option uuid;
  company_id : option uuid;
  deal_id : option uuid;
  user_id : uuid;
  created_at : timestamp }.
End Activity.

(** What the storage layer reads of a row whatever its table: the primary
    key and the owner. *)
Class TableRow (R : Type) := { row_id : R -> uuid; row_user : R -> uuid }.

#[export] Instance Company_Row : TableRow Company.t :=
  {| row_id := Company.id; row_user := Company.user_id |}.
#[export] Instance Contact_Row : TableRow Contact.t :=
  {| row_id := Contact.id; row_user := Contact.user_id |}.
#[export] Instance Deal_Row : TableRow Deal.t :=
  {| row_id := Deal.id; row_user := Deal.user_id |}.
#[export] Instance Task_Row : TableRow Task.t :=
  {| row_id := Task.id; row_user := Task.user_id |}.
#[export] Instance Activity_Row : TableRow Activity.t :=
  {| row_id := Activity.id; row_user := Activity.user_id |}.

(** ** The schema's access rules (the migration) *)

Module Table.
Inductive t := companies | contacts | deals | tasks | activities.
End Table.

Inductive command := SELECT | INSERT | UPDATE | DELETE.
Inductive role := anon | authenticated.

(** Who is asking: the role of the connection and what [auth.uid()] returns. *)
Inductive session := Anonymous | Authenticated (uid : uuid).

Definition session_role (s : session) : role :=
  match s with Anonymous => anon | Authenticated _ => authenticated end.

Definition auth_uid (s : session) : option uuid :=
  match s with Anonymous => None | Authenticated u => Some u end.

(** The one boolean expression the policies use: [auth.uid() = user_id]. *)
Inductive expr := auth_uid_eq_user_id.

(** SQL's [=] is null when a side is null, and a policy lets a row through
    only when its expression is true. *)
Definition eval (e : expr) (s : session) (user_id : option uuid) : bool :=
  match e with
  | auth_uid_eq_user_id =>
      match auth_uid s, user_id with
      | Some a, Some u => bool_decide (a = u)
      | _, _ => false
      end
  end.

Record policy := CREATE_POLICY {
  policy_name : string;
  ON : Table.t;
  FOR : command;
  TO : role;
  USING : option expr;
  WITH_CHECK : option expr }.

Definition policies : list policy := [
  CREATE_POLICY "Users can view own companies" Table.companies SELECT authenticated
    (Some auth_uid_eq_user_id) None;
  CREATE_POLICY "Users can insert own companies" Table.companies INSERT authenticated
    None (Some auth_uid_eq_user_id);
  CREATE_POLICY "Users can update own companies" Table.companies UPDATE authenticated
    (Some auth_uid_eq_user_id) (Some auth_uid_eq_user_id);
  CREATE_POLICY "Users can delete own companies" Table.companies DELETE authenticated
    (Some auth_uid_eq_user_id) None;
  CREATE_POLICY "Users can view own contacts" Table.contacts SELECT authenticated
    (Some auth_uid_eq_user_id) None;
  CREATE_POLICY "Users can insert own contacts" Table.contacts INSERT authenticated
    None (Some auth_uid_eq_user_id);
  CREATE_POLICY "Users can update own contacts" Table.contacts UPDATE authenticated
    (Some auth_uid_eq_user_id) (Some auth_uid_eq_user_id);
  CREATE_POLICY "Users can delete own contacts" Table.contacts DELETE authenticated
    (Some auth_uid_eq_user_id) None;
  CREATE_POLICY "Users can view own deals" Table.deals SELECT authenticated
    (Some auth_uid_eq_user_id) None;
  CREATE_POLICY "Users can insert own deals" Table.deals INSERT authenticated
    None (Some auth_uid_eq_user_id);
  CREATE_POLICY "Users can update own deals" Table.deals UPDATE authenticated
    (Some auth_uid_eq_user_id) (Some auth_uid_eq_user_id);
  CREATE_POLICY "Users can delete own deals" Table.deals DELETE authenticated
    (Some auth_uid_eq_user_id) None;
  CREATE_POLICY "Users can view own tasks" Table.tasks SELECT authenticated
    (Some auth_uid_eq_user_id) None;
  CREATE_POLICY "Users can insert own tasks" Table.tasks INSERT authenticated
    None (Some auth_uid_eq_user_id);
  CREATE_POLICY "Users can update own tasks" Table.tasks UPDATE authenticated
    (Some auth_uid_eq_user_id) (Some auth_uid_eq_user_id);
  CREATE_POLICY "Users can delete own tasks" Table.tasks DELETE authenticated
    (Some auth_uid_eq_user_id) None;
  CREATE_POLICY "Users can view own activities" Table.activities SELECT authenticated
    (Some auth_uid_eq_user_id) None;
  CREATE_POLICY "Users can insert own activities" Table.activities INSERT authenticated
    None (Some auth_uid_eq_user_id);
  CREATE_POLICY "Users can update own activities" Table.activities UPDATE authenticated
    (Some auth_uid_eq_user_id) (Some auth_uid_eq_user_id);
  CREATE_POLICY "Users can delete own activities" Table.activities DELETE authenticated
    (Some auth_uid_eq_user_id) None ].

(** [ALTER TABLE .. ENABLE ROW LEVEL SECURITY], on all five tables. *)
Definition row_level_security (t : Table.t) : bool :=
  match t with
  | Table.companies | Table.contacts | Table.deals | Table.tasks
  | Table.activities => true
  end.

#[export] Instance table_eq_dec : EqDecision Table.t.
Proof. solve_decision. Defined.
#[export] Instance command_eq_dec : EqDecision command.
Proof. solve_decision. Defined.
#[export] Instance role_eq_dec : EqDecision role.
Proof. solve_decision. Defined.

(** The policies that apply to a command of a session on a table. *)
Definition applicable (s : session) (t : Table.t) (c : command) : list policy :=
  filter (fun p => ON p = t /\ FOR p = c /\ TO p = session_role s) policies.

(** Row visibility ([USING]): with row-level security on, a row is let
    through when one applicable policy accepts it, and none applying means
    no row. *)
Definition using_ok (s : session) (t : Table.t) (c : command) (user_id : option uuid) : bool :=
  if row_level_security t
  then existsb (fun p => match USING p with
                         | Some e => eval e s user_id
                         | None => true
                         end) (applicable s t c)
  else true.

(** New-row check ([WITH CHECK], which defaults to [USING]). *)
Definition check_ok (s : session) (t : Table.t) (c : command) (user_id : option uuid) : bool :=
  if row_level_security t
  then existsb (fun p => match WITH_CHECK p, USING p with
                         | Some e, _ | None, Some e => eval e s user_id
                         | None, None => true
                         end) (applicable s t c)
  else true.

(** ** The storage layer: the four statements on one table *)

Section Statements.
Context {R : Type} `{TableRow R}.
Variable me : session.
Variable t : Table.t.

(** [SELECT * FROM t]: the rows the select policies let through. *)
Definition select_rows (rows : list R) : list R :=
  filter (fun r => using_ok me t SELECT (Some (row_user r)) = true) rows.

(** A row that a [... WHERE id = target] of command [c] acts on: the
    filter has to read the row (select policy) and the command's own
    policy has to let it through. *)
Definition targeted (c : command) (target : uuid) (r : R) : bool :=
  bool_decide (row_id r = target)
  && using_ok me t SELECT (Some (row_user r))
  && using_ok me t c (Some (row_user r)).

(** [UPDATE t SET .. WHERE id = target]: every targeted row is replaced by
    its image under [set]; one image failing the check aborts the whole
    statement.  The answer is the new table with the number of rows
    affected. *)
Definition update_rows (target : uuid) (set : R -> R) (rows : list R)
  : response (list R * nat) :=
  let hit := filter (fun r => targeted UPDATE target r = true) rows in
  if forallb (fun r => check_ok me t UPDATE (Some (row_user (set r)))) hit
  then Ok (map (fun r => if targeted UPDATE target r then set r else r) rows,
           length hit)
  else Error row_level_security_violation.

(** [DELETE FROM t WHERE id = target]. *)
Definition delete_rows (target : uuid) (rows : list R) : list R * nat :=
  (filter (fun r => targeted DELETE target r = false) rows,
   length (filter (fun r => targeted DELETE target r = true) rows)).

(** [INSERT INTO t VALUES (..)]: [user_id] is what the payload carries
    for that column ([None]: absent, and the column has no default),
    [row] builds the row to store from the owner.  The policy check comes
    first, then the NOT NULL and primary-key constraints. *)
Definition insert_row (user_id : option uuid) (row : uuid -> R) (rows : list R)
  : response (list R) :=
  if check_ok me t INSERT user_id then
    match user_id with
    | None => Error not_null_violation
    | Some u =>
        if bool_decide (row_id (row u) ∈ map row_id rows)
        then Error unique_violation
        else Ok (rows ++ [row u])
    end
  else Error row_level_security_violation.
End Statements.

(** ** The database: five tables and the foreign keys between them *)

Module Database.
Record t := mk {
  companies : list Company.t;
  contacts : list Contact.t;
  deals : list Deal.t;
  tasks : list Task.t;
  activities : list Activity.t }.

Definition with_deals (rows : list Deal.t) (db : t) : t :=
  mk (companies db) (contacts db) rows (tasks db) (activities db).
Definition with_tasks (rows : list Task.t) (db : t) : t :=
  mk (companies db) (contacts db) (deals db) rows (activities db).
Definition with_activities (rows : list Activity.t) (db : t) : t :=
  mk (companies db) (contacts db) (deals db) (tasks db) rows.
End Database.

Abbreviation database := Database.t.

(** [company_id uuid REFERENCES companies(id) ON DELETE SET NULL], declared
    on contacts, deals, tasks and activities: what the deletion of company
    [gone] does to a referencing column. *)
Definition on_delete_set_null (gone : uuid) (ref : option uuid) : option uuid :=
  match ref with
  | Some c => if bool_decide (c = gone) then None else Some c
  | None => None
  end.

Definition contact_company_set_null (gone : uuid) (r : Contact.t) : Contact.t :=
  Contact.mk (Contact.id r) (Contact.first_name r) (Contact.last_name r)
    (Contact.email r) (Contact.phone r) (Contact.title r)
    (on_delete_set_null gone (Contact.company_id r))
    (Contact.notes r) (Contact.user_id r) (Contact.created_at r)
    (Contact.updated_at r).

Definition deal_company_set_null (gone : uuid) (r : Deal.t) : Deal.t :=
  Deal.mk (Deal.id r) (Deal.title r) (Deal.value r) (Deal.stage r)
    (Deal.probability r) (Deal.expected_close_date r)
    (on_delete_set_null gone (Deal.company_id r))
    (Deal.contact_id r) (Deal.notes r) (Deal.user_id r) (Deal.created_at r)
    (Deal.updated_at r).

Definition task_company_set_null (gone : uuid) (r : Task.t) : Task.t :=
  Task.mk (Task.id r) (Task.title r) (Task.description r) (Task.due_date r)
    (Task.priority r) (Task.status r) (Task.contact_id r)
    (on_delete_set_null gone (Task.company_id r))
    (Task.deal_id r) (Task.user_id r) (Task.created_at r) (Task.updated_at r).

Definition activity_company_set_null (gone : uuid) (r : Activity.t) : Activity.t :=
  Activity.mk (Activity.id r) (Activity.type r) (Activity.subject r)
    (Activity.description r) (Activity.activity_date r) (Activity.contact_id r)
    (on_delete_set_null gone (Activity.company_id r))
    (Activity.deal_id r) (Activity.user_id r) (Activity.created_at r).

(** [DELETE FROM companies WHERE id = target] on the whole database.  The
    referential action is the store's own: it runs on every referencing
    row, whoever owns it, once a company row has gone. *)
Definition delete_company (me : session) (target : uuid) (db : database)
  : database * nat :=
  let '(kept, n) := delete_rows me Table.companies target (Database.companies db) in
  match n with
  | O => (db, O)
  | _ => (Database.mk kept
            (map (contact_company_set_null target) (Database.contacts db))
            (map (deal_company_set_null target) (Database.deals db))
            (map (task_company_set_null target) (Database.tasks db))
            (map (activity_company_set_null target) (Database.activities db)), n)
  end.

(** ** The data-access gateway (the supabase client) *)

(** The body of an insert into deals or an update of one: [dealData]. *)
Record dealData := {
  dd_title : string;
  dd_value : JS.number;
  dd_stage : string;
  dd_probability : JS.number;
  dd_expected_close_date : option string;
  dd_company_id : option uuid;
  dd_contact_id : option uuid;
  dd_notes : string;
  dd_updated_at : timestamp }.

(** The body of an insert into activities: the form's [formData]. *)
Record activityData := {
  ad_type : Activity.type_t;
  ad_subject : string;
  ad_description : string;
  ad_activity_date : timestamp }.

(** What goes over the wire. *)
Inductive request :=
| q_select (t : Table.t) (columns : string) (count_only : bool)
| q_insert_deal (body : dealData)
| q_insert_activity (body : activityData)
| q_update_deal (target : uuid) (body : list Deal.assignment)
| q_update_task (target : uuid) (body : list Task.assignment)
| q_delete (t : Table.t) (target : uuid).

Definition request_table (q : request) : Table.t :=
  match q with
  | q_select t _ _ | q_delete t _ => t
  | q_insert_deal _ | q_update_deal _ _ => Table.deals
  | q_insert_activity _ => Table.activities
  | q_update_task _ _ => Table.tasks
  end.

Definition request_command (q : request) : command :=
  match q with
  | q_select _ _ _ => SELECT
  | q_insert_deal _ | q_insert_activity _ => INSERT
  | q_update_deal _ _ | q_update_task _ _ => UPDATE
  | q_delete _ _ => DELETE
  end.

(** The world outside a screen: the store, the log of the requests sent
    (oldest first), and what the network will do to the coming requests
    ([true]: the request reaches the store and its answer comes back; an
    exhausted list means the network stays up). *)
Record world := World {
  store : database;
  wire : list request;
  link : list bool }.

Definition transmit (q : request) (w : world) : bool * world :=
  (match link w with b :: _ => b | [] => true end,
   World (store w) (wire w ++ [q]) (tail (link w))).

Definition with_store (db : database) (w : world) : world :=
  World db (wire w) (link w).

(** *** Order clauses

    [.order(column, { ascending: false })] on a column that is never null,
    and [.order(column, { ascending: true, nullsFirst: false })] on one
    that may be: what the clause asks of a row and any row after it. *)
Definition descending {R : Type} (key : R -> timestamp) : relation R :=
  fun a b => key b <= key a.

Definition ascending_nulls_last {R : Type} (key : R -> option timestamp) : relation R :=
  fun a b =>
    match key a, key b with
    | Some x, Some y => x <= y
    | _, None => True
    | None, Some _ => False
    end.

#[global] Instance descending_dec {R : Type} (key : R -> timestamp) :
  RelDecision (descending key).
Proof. intros a b. unfold descending. apply _. Defined.

#[global] Instance ascending_nulls_last_dec {R : Type} (key : R -> option timestamp) :
  RelDecision (ascending_nulls_last key).
Proof.
  intros a b. unfold ascending_nulls_last.
  destruct (key a), (key b); apply _.
Defined.

Section Gateway.
Variable me : session.

(** [supabase.from(t).select(columns)] with no order clause; the embedded
    rows of a join only decorate the rows returned, and are left out. *)
Definition from_select {R : Type} `{TableRow R} (t : Table.t)
    (rows : database -> list R) (columns : string) (w : world)
  : response (list R) * world :=
  let '(up, w) := transmit (q_select t columns false) w in
  (if up then Ok (select_rows me t (rows (store w))) else Error network_failure, w).

(** [supabase.from(t).select(columns).order(..)]: the rows come back
    sorted by the clause, given as the relation it asks of a row and any
    later one.  (SQL leaves the order of rows with equal keys open; the
    sort used here is one such order.) *)
Definition from_select_order {R : Type} `{TableRow R} (t : Table.t)
    (rows : database -> list R) (columns : string)
    (order : relation R) `{!RelDecision order} (w : world)
  : response (list R) * world :=
  let '(up, w) := transmit (q_select t columns false) w in
  (if up then Ok (merge_sort order (select_rows me t (rows (store w))))
   else Error network_failure, w).

(** [.select('id', { count: 'exact', head: true })]: the count alone. *)
Definition from_select_count {R : Type} `{TableRow R} (t : Table.t)
    (rows : database -> list R) (w : world)
  : response Z * world :=
  let '(up, w) := transmit (q_select t "id" true) w in
  (if up then Ok (Z.of_nat (length (select_rows me t (rows (store w)))))
   else Error network_failure, w).

(** [supabase.from('tasks').update(body).eq('id', target)]. *)
Definition from_tasks_update (body : list Task.assignment) (target : uuid)
    (w : world) : response nat * world :=
  let '(up, w) := transmit (q_update_task target body) w in
  if up then
    match update_rows me Table.tasks target (Task.patch body) (Database.tasks (store w)) with
    | Ok (rows, n) => (Ok n, with_store (Database.with_tasks rows (store w)) w)
    | Error e => (Error e, w)
    end
  else (Error network_failure, w).

(** [supabase.from('deals').update(body).eq('id', target)]. *)
Definition from_deals_update (body : list Deal.assignment) (target : uuid)
    (w : world) : response nat * world :=
  let '(up, w) := transmit (q_update_deal target body) w in
  if up then
    match Deal.typed body with
    | Ok _ =>
        match update_rows me Table.deals target (Deal.patch body)
                (Database.deals (store w)) with
        | Ok (rows, n) => (Ok n, with_store (Database.with_deals rows (store w)) w)
        | Error e => (Error e, w)
        end
    | Error e => (Error e, w)
    end
  else (Error network_failure, w).

(** [supabase.from('deals').insert([body])].  The body names no [id],
    [user_id] or [created_at]: the first and last take their column
    defaults ([fresh], [now]); [user_id] has none. *)
Definition from_deals_insert (body : dealData) (fresh : uuid) (now : timestamp)
    (w : world) : response unit * world :=
  let '(up, w) := transmit (q_insert_deal body) w in
  if up then
    match integer_column (dd_probability body) with
    | Ok probability =>
        match insert_row me Table.deals None
                (fun u => Deal.mk fresh (dd_title body) (dd_value body) (dd_stage body)
                            probability (dd_expected_close_date body)
                            (dd_company_id body) (dd_contact_id body)
                            (Some (dd_notes body)) u now (dd_updated_at body))
                (Database.deals (store w)) with
        | Ok rows => (Ok (), with_store (Database.with_deals rows (store w)) w)
        | Error e => (Error e, w)
        end
    | Error e => (Error e, w)
    end
  else (Error network_failure, w).

(** [supabase.from('activities').insert([formData])]. *)
Definition from_activities_insert (body : activityData) (fresh : uuid)
    (now : timestamp) (w : world) : response unit * world :=
  let '(up, w) := transmit (q_insert_activity body) w in
  if up then
    match insert_row me Table.activities None
            (fun u => Activity.mk fresh (ad_type body) (ad_subject body)
                        (Some (ad_description body)) (ad_activity_date body)
                        None None None u now)
            (Database.activities (store w)) with
    | Ok rows => (Ok (), with_store (Database.with_activities rows (store w)) w)
    | Error e => (Error e, w)
    end
  else (Error network_failure, w).
End Gateway.

(** ** The Tasks screen ([components/Tasks.tsx]) *)

Module Tasks.
Inductive filter_t := all | only (s : Task.status_t).

Record state := State {
  tasks : list Task.t;
  loading : bool;
  filter_by : filter_t }.

Section Handlers.
Variable me : session.

(** [fetchTasks], ordered by [due_date], ascending, nulls last: on success
    the list is replaced, on failure it is kept; [loading] is cleared
    either way. *)
Definition fetchTasks (st : state) (w : world) : state * world :=
  let '(r, w) :=
    from_select_order me Table.tasks Database.tasks "*"
      (ascending_nulls_last Task.due_date) w in
  match r with
  | Ok data => (State data false (filter_by st), w)
  | Error _ => (State (tasks st) false (filter_by st), w)
  end.

(** [updateTaskStatus(taskId, newStatus)], with [now] the value of
    [new Date()]. *)
Definition updateTaskStatus (now : timestamp) (taskId : uuid)
    (newStatus : Task.status_t) (st : state) (w : world) : state * world :=
  let '(r, w) :=
    from_tasks_update me [Task.set_status newStatus; Task.set_updated_at now]
      taskId w in
  match r with
  | Ok _ => fetchTasks st w
  | Error _ => (st, w)
  end.
End Handlers.

Definition passes (f : filter_t) (task : Task.t) : bool :=
  match f with
  | all => true
  | only s => bool_decide (Task.status task = s)
  end.

Definition filteredTasks (st : state) : list Task.t :=
  filter (fun task => passes (filter_by st) task = true) (tasks st).

(** [isOverdue(dueDate)], with [now] the value of [new Date()]. *)
Definition isOverdue (now : timestamp) (dueDate : option timestamp) : bool :=
  match dueDate with
  | None => false
  | Some d => d <? now
  end.

(** What a task card shows of the due date: nothing without one, else the
    date, in red and followed by the alert icon when [isOverdue]. *)
Record due_badge := Badge { date : timestamp; red : bool; alert_icon : bool }.

Definition render_due (now : timestamp) (task : Task.t) : option due_badge :=
  match Task.due_date task with
  | Some d => Some (Badge d (isOverdue now (Task.due_date task))
                             (isOverdue now (Task.due_date task)))
  | None => None
  end.

(** The overdue flag of a rendered card. *)
Definition flagged_overdue (now : timestamp) (task : Task.t) : bool :=
  match render_due now task with
  | Some b => alert_icon b
  | None => false
  end.

(** The cards of a render at instant [now]. *)
Definition render (now : timestamp) (st : state) : list (Task.t * option due_badge) :=
  map (fun task => (task, render_due now task)) (filteredTasks st).
End Tasks.

(** ** The Deals screen ([components/Deals.tsx]) *)

Module Deals.
Definition DEAL_STAGES : list string :=
  ["lead"; "qualified"; "proposal"; "negotiation"; "closed_won"; "closed_lost"]%string.

Record formData := Form {
  title : string;
  value : string;
  stage : string;
  probability : string;
  expected_close_date : string;
  company_id : string;
  contact_id : string;
  notes : string }.

Record state := State {
  deals : list Deal.t;
  loading : bool;
  isModalOpen : bool;
  editingDeal : option Deal.t;
  form : formData }.

Definition emptyForm : formData := Form "" "" "lead" "0" "" "" "" "".

(** The probability field, [<input type="number" min="0" max="100">], not
    required and with the default step of 1 counted from the minimum: the
    values with which the browser lets the form reach [onSubmit].  They
    are the empty value, and the valid floating-point numbers that stand
    for an integer from 0 to 100 (one too large to be a number at all is
    not checked against the range). *)
Definition probability_accepted (value : string) : bool :=
  if bool_decide (value = ""%string) then true
  else
    match HTML.number_of value with
    | Some (S754_infinity _) => true
    | Some x =>
        match JS.to_Z x with
        | Some z => (0 <=? z) && (z <=? 100)
        | None => false
        end
    | None => false
    end.

(** [s || null] on a string: the empty string is falsy. *)
Definition or_null (s : string) : option string :=
  if bool_decide (s = ""%string) then None else Some s.

(** The [dealData] object [handleSubmit] builds from the form. *)
Definition build_dealData (now : timestamp) (f : formData) : dealData :=
  {| dd_title := title f;
     dd_value := JS.or_else (JS.parseFloat (value f)) (JS.of_Z 0);
     dd_stage := stage f;
     dd_probability := JS.or_else (JS.parseInt (probability f)) (JS.of_Z 0);
     dd_expected_close_date := or_null (expected_close_date f);
     dd_company_id := or_null (company_id f);
     dd_contact_id := or_null (contact_id f);
     dd_notes := notes f;
     dd_updated_at := now |}.

(** The object as the column assignments of an update. *)
Definition assignments (d : dealData) : list Deal.assignment :=
  [ Deal.set_title (dd_title d);
    Deal.set_value (dd_value d);
    Deal.set_stage (dd_stage d);
    Deal.set_probability (dd_probability d);
    Deal.set_expected_close_date (dd_expected_close_date d);
    Deal.set_company_id (dd_company_id d);
    Deal.set_contact_id (dd_contact_id d);
    Deal.set_notes (Some (dd_notes d));
    Deal.set_updated_at (dd_updated_at d) ].

Section Handlers.
Variable me : session.

(** [fetchDeals], ordered by [created_at], descending. *)
Definition fetchDeals (st : state) (w : world) : state * world :=
  let '(r, w) :=
    from_select_order me Table.deals Database.deals
      "*, company:companies(*), contact:contacts(*)" (descending Deal.created_at) w in
  match r with
  | Ok data => (State data false (isModalOpen st) (editingDeal st) (form st), w)
  | Error _ => (State (deals st) false (isModalOpen st) (editingDeal st) (form st), w)
  end.

Definition resetForm (st : state) : state :=
  State (deals st) (loading st) (isModalOpen st) None emptyForm.

(** [handleSubmit]: an update of the deal being edited, else an insert
    ([fresh] and [now] also stand for the column defaults of a new
    row); on success the modal closes, the form is reset and the list
    is fetched again. *)
Definition handleSubmit (now : timestamp) (fresh : uuid) (st : state) (w : world)
  : state * world :=
  let data := build_dealData now (form st) in
  let '(ok, w) :=
    match editingDeal st with
    | Some d =>
        let '(r, w) := from_deals_update me (assignments data) (Deal.id d) w in
        (match r with Ok _ => true | Error _ => false end, w)
    | None =>
        let '(r, w) := from_deals_insert me data fresh now w in
        (match r with Ok _ => true | Error _ => false end, w)
    end in
  if ok
  then fetchDeals (resetForm (State (deals st) (loading st) false None (form st))) w
  else (st, w).

(** [updateDealStage(dealId, newStage)]. *)
Definition updateDealStage (now : timestamp) (dealId : uuid) (newStage : string)
    (st : state) (w : world) : state * world :=
  let '(r, w) :=
    from_deals_update me [Deal.set_stage newStage; Deal.set_updated_at now]
      dealId w in
  match r with
  | Ok _ => fetchDeals st w
  | Error _ => (st, w)
  end.
End Handlers.
End Deals.

(** ** The Dashboard ([components/Dashboard.tsx]) *)

Module Dashboard.
Record Stats := {
  totalContacts : Z;
  totalCompanies : Z;
  totalDeals : Z;
  totalDealValue : JS.number;
  activeTasks : Z;
  overdueTasks : Z;
  recentActivities : Z }.

(** *** The object [stageCount]

    [{} as Record<string, number>] is an ordinary object: reading a key
    it does not own falls through to [Object.prototype]. *)
Definition Object_prototype : list string :=
  [ "constructor"; "__defineGetter__"; "__defineSetter__"; "hasOwnProperty";
    "__lookupGetter__"; "__lookupSetter__"; "isPrototypeOf";
    "propertyIsEnumerable"; "toString"; "valueOf"; "__proto__";
    "toLocaleString" ]%string.

(** What a property of the object holds: a count, or a string (the text
    that [+] builds when its left operand is not a number; the text itself
    is left out). *)
Inductive property := count (n : Z) | text.

(** [(acc[k] || 0) + 1]. *)
Definition bump (acc : gmap string property) (k : string) : property :=
  match acc !! k with
  | Some (count n) => count (n + 1)
  | Some text => text
  | None => if bool_decide (k ∈ Object_prototype) then text else count 1
  end.

(** [acc[k] = v]; the setter of [__proto__] ignores a primitive. *)
Definition put (acc : gmap string property) (k : string) (v : property)
  : gmap string property :=
  if bool_decide (k = "__proto__"%string) then acc else <[k := v]> acc.

Definition stageCount (deals : list Deal.t) : gmap string property :=
  fold_left (fun acc deal => put acc (Deal.stage deal) (bump acc (Deal.stage deal)))
    deals ∅.

Definition totalValue (deals : list Deal.t) : JS.number :=
  fold_left (fun sum deal => JS.add sum (Deal.value deal)) deals (JS.of_Z 0).

Definition is_active (t : Task.t) : bool :=
  match Task.status t with
  | Task.pending | Task.in_progress => true
  | Task.completed => false
  end.

(** The predicate of the second filter: active, with a due date, and that
    date before [new Date()]. *)
Definition is_overdue (now : timestamp) (t : Task.t) : bool :=
  is_active t &&
  match Task.due_date t with
  | Some d => d <? now
  | None => false
  end.

Definition countActive (tasks : list Task.t) : Z :=
  Z.of_nat (length (filter (fun t => is_active t = true) tasks)).

Definition countOverdue (now : timestamp) (tasks : list Task.t) : Z :=
  Z.of_nat (length (filter (fun t => is_overdue now t = true) tasks)).

(** [r.data || []] and [r.count || 0]. *)
Definition data_or_empty {A} (r : response (list A)) : list A :=
  match r with Ok data => data | Error _ => [] end.
Definition count_or_zero (r : response Z) : Z :=
  match r with Ok n => n | Error _ => 0 end.

(** The statistics derived from the five answers. *)
Definition derive (now : timestamp)
    (contactsResult companiesResult : response Z)
    (dealsResult : response (list Deal.t)) (tasksResult : response (list Task.t))
    (activitiesResult : response Z) : Stats * gmap string property :=
  let deals := data_or_empty dealsResult in
  let tasks := data_or_empty tasksResult in
  ({| totalContacts := count_or_zero contactsResult;
      totalCompanies := count_or_zero companiesResult;
      totalDeals := Z.of_nat (length deals);
      totalDealValue := totalValue deals;
      activeTasks := countActive tasks;
      overdueTasks := countOverdue now tasks;
      recentActivities := count_or_zero activitiesResult |},
   stageCount deals).

(** [fetchDashboardData]: the five queries, in the order they are issued,
    then the derivation. *)
Definition fetchDashboardData (me : session) (now : timestamp) (w : world)
  : (Stats * gmap string property) * world :=
  let '(contactsResult, w) := from_select_count me Table.contacts Database.contacts w in
  let '(companiesResult, w) := from_select_count me Table.companies Database.companies w in
  let '(dealsResult, w) := from_select me Table.deals Database.deals "*" w in
  let '(tasksResult, w) := from_select me Table.tasks Database.tasks "*" w in
  let '(activitiesResult, w) := from_select_count me Table.activities Database.activities w in
  (derive now contactsResult companiesResult dealsResult tasksResult activitiesResult, w).

(** *** Quick Stats

    What a cell shows, together with the denominators of the divisions
    evaluated on the way (the trace of [/]).  A number is shown as the
    number it is: the digit grouping of [toLocaleString] is left out. *)
Inductive shown :=
| shown_number (x : JS.number)
| shown_text (s : string).

Definition averageDealValue (stats : Stats) : shown * list Z :=
  if 0 <? totalDeals stats
  then (shown_number
          (JS.Math_round (JS.div (totalDealValue stats) (JS.of_Z (totalDeals stats)))),
        [totalDeals stats])
  else (shown_number (JS.of_Z 0), []).

Definition contactsPerCompany (stats : Stats) : shown * list Z :=
  if 0 <? totalCompanies stats
  then (shown_text
          (JS.toFixed1 (JS.div (JS.of_Z (totalContacts stats))
                               (JS.of_Z (totalCompanies stats)))),
        [totalCompanies stats])
  else (shown_number (JS.of_Z 0), []).

Definition taskCompletionRate (stats : Stats) : shown * list Z :=
  if 0 <? activeTasks stats + overdueTasks stats
  then (shown_number
          (JS.Math_round
             (JS.mul (JS.div (JS.of_Z (activeTasks stats))
                             (JS.of_Z (activeTasks stats + overdueTasks stats)))
                     (JS.of_Z 100))),
        [activeTasks stats + overdueTasks stats])
  else (shown_number (JS.of_Z 0), []).
End Dashboard.

(** ** The Activities screen ([components/Activities.tsx]) *)

Module Activities.
Record state := State {
  activities : list Activity.t;
  loading : bool;
  isModalOpen : bool;
  formData : activityData }.

(** [new Date().toISOString().slice(0, 16)]: the instant cut to the minute. *)
Definition to_the_minute (now : timestamp) : timestamp := now / 60000 * 60000.

Definition blankForm (now : timestamp) : activityData :=
  {| ad_type := Activity.note; ad_subject := ""; ad_description := "";
     ad_activity_date := to_the_minute now |}.

Definition initial (now : timestamp) : state := State [] true false (blankForm now).

(** What can happen to the mounted screen. *)
Inductive event :=
| mounted
| click_log_activity
| change_type (v : Activity.type_t)
| change_subject (v : string)
| change_description (v : string)
| change_activity_date (v : timestamp)
| submit
| click_cancel.

Section Handlers.
Variable me : session.

(** [fetchActivities], ordered by [activity_date], descending. *)
Definition fetchActivities (st : state) (w : world) : state * world :=
  let '(r, w) :=
    from_select_order me Table.activities Database.activities "*"
      (descending Activity.activity_date) w in
  match r with
  | Ok data => (State data false (isModalOpen st) (formData st), w)
  | Error _ => (State (activities st) false (isModalOpen st) (formData st), w)
  end.

Definition resetForm (now : timestamp) (st : state) : state :=
  State (activities st) (loading st) (isModalOpen st) (blankForm now).

Definition handleSubmit (now : timestamp) (fresh : uuid) (st : state) (w : world)
  : state * world :=
  let '(r, w) := from_activities_insert me (formData st) fresh now w in
  match r with
  | Ok _ =>
      fetchActivities
        (resetForm now (State (activities st) (loading st) false (formData st))) w
  | Error _ => (st, w)
  end.

Definition setFormData (f : activityData -> activityData) (st : state) : state :=
  State (activities st) (loading st) (isModalOpen st) (f (formData st)).

(** One event; the form and its buttons exist only while the modal is
    open.  [now] and [fresh] are the clock and the identifier the store
    would hand out at that moment. *)
Definition step (now : timestamp) (fresh : uuid) (ev : event)
    (st : state) (w : world) : state * world :=
  match ev with
  | mounted => fetchActivities st w
  | click_log_activity =>
      (State (activities st) (loading st) true (formData st), w)
  | _ =>
      if isModalOpen st then
        match ev with
        | change_type v =>
            (setFormData (fun f => {| ad_type := v; ad_subject := ad_subject f;
                                      ad_description := ad_description f;
                                      ad_activity_date := ad_activity_date f |}) st, w)
        | change_subject v =>
            (setFormData (fun f => {| ad_type := ad_type f; ad_subject := v;
                                      ad_description := ad_description f;
                                      ad_activity_date := ad_activity_date f |}) st, w)
        | change_description v =>
            (setFormData (fun f => {| ad_type := ad_type f; ad_subject := ad_subject f;
                                      ad_description := v;
                                      ad_activity_date := ad_activity_date f |}) st, w)
        | change_activity_date v =>
            (setFormData (fun f => {| ad_type := ad_type f; ad_subject := ad_subject f;
                                      ad_description := ad_description f;
                                      ad_activity_date := v |}) st, w)
        | submit => handleSubmit now fresh st w
        | click_cancel =>
            (resetForm now (State (activities st) (loading st) false (formData st)), w)
        | _ => (st, w)
        end
      else (st, w)
  end.

(** A run of the screen: events with the clock and identifier of each. *)
Fixpoint run (evs : list (timestamp * uuid * event)) (st : state) (w : world)
  : state * world :=
  match evs with
  | [] => (st, w)
  | (now, fresh, ev) :: rest =>
      let '(st, w) := step now fresh ev st w in run rest st w
  end.
End Handlers.
End Activities.

(** ** Vocabulary of the statements *)

(** The sum of a column the way it is written on paper: the partial sums
    [s 0 = 0] and [s (k+1) = s k + v k], over the first [n] rows. *)
Fixpoint partial_sum (n : nat) (values : list JS.number) : JS.number :=
  match n with
  | O => JS.of_Z 0
  | S k => JS.add (partial_sum k values) (nth k values (JS.of_Z 0))
  end.

(** The number of deals at a stage. *)
Definition deals_at (stage : string) (deals : list Deal.t) : Z :=
  Z.of_nat (length (filter (fun d => Deal.stage d = stage) deals)).

(** An object that maps each stage to the number of deals at that stage:
    every stage with deals is a key holding their number, and no other
    stage is a key. *)
Definition counts_of (deals : list Deal.t) (acc : gmap string Dashboard.property) : Prop :=
  forall s : string,
    acc !! s = if deals_at s deals =? 0 then None
               else Some (Dashboard.count (deals_at s deals)).

(** A task that is not done, and a task whose due date has passed. *)
Definition active (t : Task.t) : Prop :=
  Task.status t = Task.pending \/ Task.status t = Task.in_progress.

Definition past_due (now : timestamp) (t : Task.t) : Prop :=
  match Task.due_date t with
  | Some d => d < now
  | None => False
  end.

#[export] Instance active_dec (t : Task.t) : Decision (active t).
Proof. unfold active. apply _. Defined.

#[export] Instance past_due_dec (now : timestamp) (t : Task.t) :
  Decision (past_due now t).
Proof. unfold past_due. destruct (Task.due_date t); apply _. Defined.

(** The integer nearest to [p / q] for [q > 0], the half-way case going up,
    and that half-way case. *)
Definition nearest_integer (p q : Z) : Z := (2 * p + q) / (2 * q).
Definition halfway (p q : Z) : Prop := (2 * p) mod (2 * q) = q.

(** Statistics with the given task counts and nothing else. *)
Definition stats_of_counts (a o : Z) : Dashboard.Stats :=
  {| Dashboard.totalContacts := 0; Dashboard.totalCompanies := 0;
     Dashboard.totalDeals := 0; Dashboard.totalDealValue := JS.of_Z 0;
     Dashboard.activeTasks := a; Dashboard.overdueTasks := o;
     Dashboard.recentActivities := 0 |}.

(** Whether the rate shown for [a] active and [o] overdue tasks is the
    integer nearest to [100 a / (a + o)], or the one below it in a half-way
    case. *)
Definition rate_agrees (a o : Z) : bool :=
  match (Dashboard.taskCompletionRate (stats_of_counts a o)).1 with
  | Dashboard.shown_number x =>
      match JS.to_Z x with
      | Some r =>
          (r =? nearest_integer (100 * a) (a + o))
          || ((r =? nearest_integer (100 * a) (a + o) - 1)
              && ((2 * (100 * a)) mod (2 * (a + o)) =? a + o))
      | None => false
      end
  | Dashboard.shown_text _ => false
  end.

(** A task row with a new status and modification time and every other
    column as it was; a deal row likewise with a new stage. *)
Definition task_with_status (s : Task.status_t) (now : timestamp) (r : Task.t) : Task.t :=
  Task.mk (Task.id r) (Task.title r) (Task.description r) (Task.due_date r)
    (Task.priority r) s (Task.contact_id r) (Task.company_id r) (Task.deal_id r)
    (Task.user_id r) (Task.created_at r) now.

Definition deal_with_stage (s : string) (now : timestamp) (r : Deal.t) : Deal.t :=
  Deal.mk (Deal.id r) (Deal.title r) (Deal.value r) s (Deal.probability r)
    (Deal.expected_close_date r) (Deal.company_id r) (Deal.contact_id r)
    (Deal.notes r) (Deal.user_id r) (Deal.created_at r) now.

(** Whether the coming request will reach the store. *)
Definition reaches (w : world) : bool :=
  match link w with b :: _ => b | [] => true end.

(** Two rows of a dependent table that agree on every column but
    [company_id]. *)
Definition contact_same_but_company (r r' : Contact.t) : Prop :=
  Contact.id r' = Contact.id r
  /\ Contact.first_name r' = Contact.first_name r
  /\ Contact.last_name r' = Contact.last_name r
  /\ Contact.email r' = Contact.email r
  /\ Contact.phone r' = Contact.phone r
  /\ Contact.title r' = Contact.title r
  /\ Contact.notes r' = Contact.notes r
  /\ Contact.user_id r' = Contact.user_id r
  /\ Contact.created_at r' = Contact.created_at r
  /\ Contact.updated_at r' = Contact.updated_at r.

Definition deal_same_but_company (r r' : Deal.t) : Prop :=
  Deal.assign r' (Deal.set_company_id (Deal.company_id r)) = r.

Definition task_same_but_company (r r' : Task.t) : Prop :=
  Task.assign r' (Task.set_company_id (Task.company_id r)) = r.

Definition activity_same_but_company (r r' : Activity.t) : Prop :=
  Activity.id r' = Activity.id r
  /\ Activity.type r' = Activity.type r
  /\ Activity.subject r' = Activity.subject r
  /\ Activity.description r' = Activity.description r
  /\ Activity.activity_date r' = Activity.activity_date r
  /\ Activity.contact_id r' = Activity.contact_id r
  /\ Activity.deal_id r' = Activity.deal_id r
  /\ Activity.user_id r' = Activity.user_id r
  /\ Activity.created_at r' = Activity.created_at r.

(** What the deletion of company [gone] makes of a dependent row [r]: the
    row [r'] is still there, no longer refers to [gone], has a null
    reference if [r] referred to it, and is [r] itself if it did not. *)
Definition reference_cleared {R : Type} (company_id : R -> option uuid)
    (same_but_company : R -> R -> Prop) (gone : uuid) (r r' : R) : Prop :=
  same_but_company r r'
  /\ company_id r' <> Some gone
  /\ (company_id r = Some gone -> company_id r' = None)
  /\ (company_id r <> Some gone -> r' = r).

(** A request that reads the activities table or adds a row to it. *)
Definition reads_or_appends (q : request) : Prop :=
  request_table q = Table.activities
  /\ (request_command q = SELECT \/ request_command q = INSERT).

(** What a stretch of activity on the screen may do to the world: requests
    [sent] are added to the wire, rows [added] at the end of the activities
    table, and the rest of the store is as before. *)
Definition only_appends (w w' : world) (sent : list request)
    (added : list Activity.t) : Prop :=
  wire w' = wire w ++ sent
  /\ Database.activities (store w') = Database.activities (store w) ++ added
  /\ Database.companies (store w') = Database.companies (store w)
  /\ Database.contacts (store w') = Database.contacts (store w)
  /\ Database.deals (store w') = Database.deals (store w)
  /\ Database.tasks (store w') = Database.tasks (store w).

(** The row with primary key [target], when it belongs to [u]. *)
Definition mine {R : Type} `{TableRow R} (u target : uuid) (r : R) : Prop :=
  row_id r = target /\ row_user r = u.

#[export] Instance mine_dec {R : Type} `{TableRow R} (u target : uuid) (r : R) :
  Decision (mine u target r).
Proof. unfold mine. apply _. Defined.

(* ===================================================================== *)
(** * Part I, continued: the rest of the screens                          *)
(* ===================================================================== *)

(** ** The other foreign keys of the migration

    [contact_id uuid REFERENCES contacts(id) ON DELETE SET NULL] is declared
    on deals, tasks and activities, and [deal_id uuid REFERENCES deals(id)
    ON DELETE SET NULL] on tasks and activities.  Nothing references a task
    or an activity. *)

Definition deal_contact_set_null (gone : uuid) (r : Deal.t) : Deal.t :=
  Deal.mk (Deal.id r) (Deal.title r) (Deal.value r) (Deal.stage r)
    (Deal.probability r) (Deal.expected_close_date r) (Deal.company_id r)
    (on_delete_set_null gone (Deal.contact_id r))
    (Deal.notes r) (Deal.user_id r) (Deal.created_at r) (Deal.updated_at r).

Definition task_contact_set_null (gone : uuid) (r : Task.t) : Task.t :=
  Task.mk (Task.id r) (Task.title r) (Task.description r) (Task.due_date r)
    (Task.priority r) (Task.status r)
    (on_delete_set_null gone (Task.contact_id r))
    (Task.company_id r) (Task.deal_id r) (Task.user_id r) (Task.created_at r)
    (Task.updated_at r).

Definition activity_contact_set_null (gone : uuid) (r : Activity.t) : Activity.t :=
  Activity.mk (Activity.id r) (Activity.type r) (Activity.subject r)
    (Activity.description r) (Activity.activity_date r)
    (on_delete_set_null gone (Activity.contact_id r))
    (Activity.company_id r) (Activity.deal_id r) (Activity.user_id r)
    (Activity.created_at r).

Definition task_deal_set_null (gone : uuid) (r : Task.t) : Task.t :=
  Task.mk (Task.id r) (Task.title r) (Task.description r) (Task.due_date r)
    (Task.priority r) (Task.status r) (Task.contact_id r) (Task.company_id r)
    (on_delete_set_null gone (Task.deal_id r))
    (Task.user_id r) (Task.created_at r) (Task.updated_at r).

Definition activity_deal_set_null (gone : uuid) (r : Activity.t) : Activity.t :=
  Activity.mk (Activity.id r) (Activity.type r) (Activity.subject r)
    (Activity.description r) (Activity.activity_date r) (Activity.contact_id r)
    (Activity.company_id r)
    (on_delete_set_null gone (Activity.deal_id r))
    (Activity.user_id r) (Activity.created_at r).

(** [DELETE FROM contacts WHERE id = target]. *)
Definition delete_contact (me : session) (target : uuid) (db : database)
  : database * nat :=
  let '(kept, n) := delete_rows me Table.contacts target (Database.contacts db) in
  match n with
  | O => (db, O)
  | _ => (Database.mk (Database.companies db) kept
            (map (deal_contact_set_null target) (Database.deals db))
            (map (task_contact_set_null target) (Database.tasks db))
            (map (activity_contact_set_null target) (Database.activities db)), n)
  end.

(** [DELETE FROM deals WHERE id = target]. *)
Definition delete_deal (me : session) (target : uuid) (db : database)
  : database * nat :=
  let '(kept, n) := delete_rows me Table.deals target (Database.deals db) in
  match n with
  | O => (db, O)
  | _ => (Database.mk (Database.companies db) (Database.contacts db) kept
            (map (task_deal_set_null target) (Database.tasks db))
            (map (activity_deal_set_null target) (Database.activities db)), n)
  end.

(** [DELETE FROM tasks WHERE id = target] and the same on activities. *)
Definition delete_task (me : session) (target : uuid) (db : database)
  : database * nat :=
  let '(kept, n) := delete_rows me Table.tasks target (Database.tasks db) in
  (Database.with_tasks kept db, n).

Definition delete_activity (me : session) (target : uuid) (db : database)
  : database * nat :=
  let '(kept, n) := delete_rows me Table.activities target (Database.activities db) in
  (Database.with_activities kept db, n).

(** [DELETE FROM t WHERE id = target], whatever the table. *)
Definition delete_from (me : session) (t : Table.t) (target : uuid) (db : database)
  : database * nat :=
  match t with
  | Table.companies => delete_company me target db
  | Table.contacts => delete_contact me target db
  | Table.deals => delete_deal me target db
  | Table.tasks => delete_task me target db
  | Table.activities => delete_activity me target db
  end.

(** [supabase.from(t).delete().eq('id', target)]. *)
Definition from_delete (me : session) (t : Table.t) (target : uuid) (w : world)
  : response nat * world :=
  let '(up, w) := transmit (q_delete t target) w in
  if up then
    let '(db, n) := delete_from me t target (store w) in
    (Ok n, with_store db w)
  else (Error network_failure, w).

(** ** Vocabulary: keys, references, and what a user owns *)

(** A reference that is null or the key of a row of the referenced table. *)
Definition resolves {R : Type} `{TableRow R} (ref : option uuid) (rows : list R) : Prop :=
  match ref with
  | Some k => k ∈ map row_id rows
  | None => True
  end.

(** Every foreign key of the schema holds. *)
Record referential_integrity (db : database) : Prop := {
  ri_contact_company :
    Forall (fun r => resolves (Contact.company_id r) (Database.companies db))
      (Database.contacts db);
  ri_deal_company :
    Forall (fun r => resolves (Deal.company_id r) (Database.companies db))
      (Database.deals db);
  ri_deal_contact :
    Forall (fun r => resolves (Deal.contact_id r) (Database.contacts db))
      (Database.deals db);
  ri_task_contact :
    Forall (fun r => resolves (Task.contact_id r) (Database.contacts db))
      (Database.tasks db);
  ri_task_company :
    Forall (fun r => resolves (Task.company_id r) (Database.companies db))
      (Database.tasks db);
  ri_task_deal :
    Forall (fun r => resolves (Task.deal_id r) (Database.deals db))
      (Database.tasks db);
  ri_activity_contact :
    Forall (fun r => resolves (Activity.contact_id r) (Database.contacts db))
      (Database.activities db);
  ri_activity_company :
    Forall (fun r => resolves (Activity.company_id r) (Database.companies db))
      (Database.activities db);
  ri_activity_deal :
    Forall (fun r => resolves (Activity.deal_id r) (Database.deals db))
      (Database.activities db) }.

(** The rows of a table that belong to [u], and the database cut down to
    them. *)
Definition owned_by {R : Type} `{TableRow R} (u : uuid) (rows : list R) : list R :=
  filter (fun r => row_user r = u) rows.

Definition own_view (u : uuid) (db : database) : database :=
  Database.mk (owned_by u (Database.companies db)) (owned_by u (Database.contacts db))
    (owned_by u (Database.deals db)) (owned_by u (Database.tasks db))
    (owned_by u (Database.activities db)).

(** The primary key of a table holds: no two rows share an id. *)
(** The list [l] shows the rows [rows] in the order a clause asks for: the
    same rows, each as often as it occurs, and every row stands before
    those only that the clause lets it precede. *)
Definition shown_in_order {R : Type} (order : relation R) (rows l : list R) : Prop :=
  l ≡ₚ rows /\ StronglySorted order l.

Definition primary_key {R : Type} `{TableRow R} (rows : list R) : Prop :=
  NoDup (map row_id rows).

(** ** The Tasks screen, continued ([components/Tasks.tsx]) *)

Module TasksScreen.
(** [handleDelete(id)]; [confirmed] is the answer to the [confirm] dialog. *)
Definition handleDelete (me : session) (confirmed : bool) (id : uuid)
    (st : Tasks.state) (w : world) : Tasks.state * world :=
  if confirmed then
    let '(r, w) := from_delete me Table.tasks id w in
    match r with
    | Ok _ => Tasks.fetchTasks me st w
    | Error _ => (st, w)
    end
  else (st, w).

(** The quick-transition buttons of a task card, by the status each one
    passes to [updateTaskStatus]: Start and Complete on a pending task,
    Complete on one in progress, none on a completed one. *)
Definition quick_buttons (task : Task.t) : list Task.status_t :=
  if bool_decide (Task.status task <> Task.completed)
  then (if bool_decide (Task.status task = Task.pending)
        then [Task.in_progress] else [])
       ++ [Task.completed]
  else [].

End TasksScreen.

(** The order of the statuses along the life of a task. *)
Definition status_rank (s : Task.status_t) : nat :=
  match s with
  | Task.pending => 0
  | Task.in_progress => 1
  | Task.completed => 2
  end.

(** ** The Deals screen, continued ([components/Deals.tsx]) *)

Module DealsScreen.
Definition handleDelete (me : session) (confirmed : bool) (id : uuid)
    (st : Deals.state) (w : world) : Deals.state * world :=
  if confirmed then
    let '(r, w) := from_delete me Table.deals id w in
    match r with
    | Ok _ => Deals.fetchDeals me st w
    | Error _ => (st, w)
    end
  else (st, w).

Definition getDealsByStage (st : Deals.state) (stage : string) : list Deal.t :=
  filter (fun deal => Deal.stage deal = stage) (Deals.deals st).

Definition getTotalValue (st : Deals.state) : JS.number :=
  fold_left (fun sum deal => JS.add sum (Deal.value deal)) (Deals.deals st) (JS.of_Z 0).

(** A column of the board: its stage, its cards, and the two figures of its
    header. *)
Record column := Column {
  col_stage : string;
  cards : list Deal.t;
  card_count : nat;
  stageValue : JS.number }.

(** The board: one column per entry of [DEAL_STAGES], in that order. *)
Definition board (st : Deals.state) : list column :=
  map (fun stage =>
         let stageDeals := getDealsByStage st stage in
         Column stage stageDeals (length stageDeals)
           (fold_left (fun sum deal => JS.add sum (Deal.value deal)) stageDeals
              (JS.of_Z 0)))
      Deals.DEAL_STAGES.
End DealsScreen.

(** Rows that agree on every column but the contact reference, or but the
    deal reference. *)
Definition deal_same_but_contact (r r' : Deal.t) : Prop :=
  Deal.assign r' (Deal.set_contact_id (Deal.contact_id r)) = r.

Definition task_same_but_contact (r r' : Task.t) : Prop :=
  Task.assign r' (Task.set_contact_id (Task.contact_id r)) = r.

Definition task_same_but_deal (r r' : Task.t) : Prop :=
  Task.assign r' (Task.set_deal_id (Task.deal_id r)) = r.

Definition activity_same_but_contact (r r' : Activity.t) : Prop :=
  Activity.id r' = Activity.id r
  /\ Activity.type r' = Activity.type r
  /\ Activity.subject r' = Activity.subject r
  /\ Activity.description r' = Activity.description r
  /\ Activity.activity_date r' = Activity.activity_date r
  /\ Activity.company_id r' = Activity.company_id r
  /\ Activity.deal_id r' = Activity.deal_id r
  /\ Activity.user_id r' = Activity.user_id r
  /\ Activity.created_at r' = Activity.created_at r.

Definition activity_same_but_deal (r r' : Activity.t) : Prop :=
  Activity.id r' = Activity.id r
  /\ Activity.type r' = Activity.type r
  /\ Activity.subject r' = Activity.subject r
  /\ Activity.description r' = Activity.description r
  /\ Activity.activity_date r' = Activity.activity_date r
  /\ Activity.contact_id r' = Activity.contact_id r
  /\ Activity.company_id r' = Activity.company_id r
  /\ Activity.user_id r' = Activity.user_id r
  /\ Activity.created_at r' = Activity.created_at r.

(** ** The Dashboard, continued ([components/Dashboard.tsx]) *)

Module DashboardScreen.
(** The width of a stage's bar, [(count / totalDeals) * 100] behind its
    guard, with the denominators of the divisions evaluated. *)
Definition percentage (stats : Dashboard.Stats) (count : Z) : JS.number * list Z :=
  if 0 <? Dashboard.totalDeals stats
  then (JS.mul (JS.div (JS.of_Z count) (JS.of_Z (Dashboard.totalDeals stats)))
               (JS.of_Z 100),
        [Dashboard.totalDeals stats])
  else (JS.of_Z 0, []).

(** ["No deals yet"]: [Object.keys(dealsByStage).length === 0]. *)
Definition shows_no_deals (dealsByStage : gmap string Dashboard.property) : bool :=
  bool_decide (dealsByStage = ∅).
End DashboardScreen.

(** The counts an object of stage counts holds, added up. *)
Definition counted (v : Dashboard.property) : Z :=
  match v with
  | Dashboard.count n => n
  | Dashboard.text => 0
  end.

Definition entries_total (m : gmap string Dashboard.property) : Z :=
  map_fold (fun _ v acc => acc + counted v) 0 m.

(** The five queries of the dashboard, as they go over the wire. *)
Definition dashboard_queries : list request :=
  [ q_select Table.contacts "id" true;
    q_select Table.companies "id" true;
    q_select Table.deals "*" false;
    q_select Table.tasks "*" false;
    q_select Table.activities "id" true ].

(** ** The Contacts screen ([components/Contacts.tsx]) *)

Module ContactUpdate.
(** One [column: value] pair of an update of a contact. *)
Inductive assignment :=
| set_first_name (v : string)
| set_last_name (v : string)
| set_email (v : option string)
| set_phone (v : option string)
| set_title (v : option string)
| set_company_id (v : option uuid)
| set_notes (v : option string)
| set_updated_at (v : timestamp).

Definition assign (r : Contact.t) (a : assignment) : Contact.t :=
  match a with
  | set_first_name v => Contact.mk (Contact.id r) v (Contact.last_name r) (Contact.email r) (Contact.phone r) (Contact.title r) (Contact.company_id r) (Contact.notes r) (Contact.user_id r) (Contact.created_at r) (Contact.updated_at r)
  | set_last_name v => Contact.mk (Contact.id r) (Contact.first_name r) v (Contact.email r) (Contact.phone r) (Contact.title r) (Contact.company_id r) (Contact.notes r) (Contact.user_id r) (Contact.created_at r) (Contact.updated_at r)
  | set_email v => Contact.mk (Contact.id r) (Contact.first_name r) (Contact.last_name r) v (Contact.phone r) (Contact.title r) (Contact.company_id r) (Contact.notes r) (Contact.user_id r) (Contact.created_at r) (Contact.updated_at r)
  | set_phone v => Contact.mk (Contact.id r) (Contact.first_name r) (Contact.last_name r) (Contact.email r) v (Contact.title r) (Contact.company_id r) (Contact.notes r) (Contact.user_id r) (Contact.created_at r) (Contact.updated_at r)
  | set_title v => Contact.mk (Contact.id r) (Contact.first_name r) (Contact.last_name r) (Contact.email r) (Contact.phone r) v (Contact.company_id r) (Contact.notes r) (Contact.user_id r) (Contact.created_at r) (Contact.updated_at r)
  | set_company_id v => Contact.mk (Contact.id r) (Contact.first_name r) (Contact.last_name r) (Contact.email r) (Contact.phone r) (Contact.title r) v (Contact.notes r) (Contact.user_id r) (Contact.created_at r) (Contact.updated_at r)
  | set_notes v => Contact.mk (Contact.id r) (Contact.first_name r) (Contact.last_name r) (Contact.email r) (Contact.phone r) (Contact.title r) (Contact.company_id r) v (Contact.user_id r) (Contact.created_at r) (Contact.updated_at r)
  | set_updated_at v => Contact.mk (Contact.id r) (Contact.first_name r) (Contact.last_name r) (Contact.email r) (Contact.phone r) (Contact.title r) (Contact.company_id r) (Contact.notes r) (Contact.user_id r) (Contact.created_at r) v
  end.

(** [UPDATE contacts SET ...]: the assignments of the body, in order. *)
Definition patch (p : list assignment) (r : Contact.t) : Contact.t := fold_left assign p r.
End ContactUpdate.

Module Contacts.
Record formData := Form {
  first_name : string;
  last_name : string;
  email : string;
  phone : string;
  title : string;
  company_id : string;
  notes : string }.

(** A fetched contact: the row and the company embedded by the join
    of the select with [companies], if there is one to embed. *)
Record joined := Joined {
  contact : Contact.t;
  company : option Company.t }.

Record state := State {
  contacts : list joined;
  companies : list Company.t;
  loading : bool;
  searchTerm : string;
  isModalOpen : bool;
  editingContact : option joined;
  form : formData }.

Definition emptyForm : formData := Form "" "" "" "" "" "" "".

(** [s || ''] on a nullable string. *)
Definition or_empty (s : option string) : string :=
  match s with
  | Some v => v
  | None => ""
  end.

(** The row the join puts beside a contact: the company its [company_id]
    names, among the companies the session may select. *)
Definition embed (me : session) (db : database) (c : Contact.t) : option Company.t :=
  match Contact.company_id c with
  | Some k =>
      find (fun co => bool_decide (Company.id co = k))
        (select_rows me Table.companies (Database.companies db))
  | None => None
  end.

Section Handlers.
Variable me : session.

(** [fetchContacts]: the contacts ordered by [created_at], descending,
    each with the company the join embeds. *)
Definition fetchContacts (st : state) (w : world) : state * world :=
  let '(r, w) :=
    from_select_order me Table.contacts Database.contacts "*, company:companies(*)"
      (descending Contact.created_at) w in
  match r with
  | Ok data =>
      (State (map (fun c => Joined c (embed me (store w) c)) data)
         (companies st) false (searchTerm st) (isModalOpen st) (editingContact st)
         (form st), w)
  | Error _ =>
      (State (contacts st) (companies st) false (searchTerm st) (isModalOpen st)
         (editingContact st) (form st), w)
  end.

Definition handleDelete (confirmed : bool) (id : uuid) (st : state) (w : world)
  : state * world :=
  if confirmed then
    let '(r, w) := from_delete me Table.contacts id w in
    match r with
    | Ok _ => fetchContacts st w
    | Error _ => (st, w)
    end
  else (st, w).
End Handlers.

Definition resetForm (st : state) : state :=
  State (contacts st) (companies st) (loading st) (searchTerm st) (isModalOpen st)
    None emptyForm.

(** [openModal(contact)] and [openModal()]. *)
Definition openModal (c : option joined) (st : state) : state :=
  match c with
  | Some j =>
      State (contacts st) (companies st) (loading st) (searchTerm st) true (Some j)
        (Form (Contact.first_name (contact j)) (Contact.last_name (contact j))
           (or_empty (Contact.email (contact j))) (or_empty (Contact.phone (contact j)))
           (or_empty (Contact.title (contact j)))
           (or_empty (Contact.company_id (contact j)))
           (or_empty (Contact.notes (contact j))))
  | None =>
      State (contacts st) (companies st) (loading st) (searchTerm st) true None emptyForm
  end.

(** The body [contactData] that [handleSubmit] builds from the form, as
    the column assignments of an update. *)
Definition contactData (now : timestamp) (f : formData) : list ContactUpdate.assignment :=
  [ ContactUpdate.set_first_name (first_name f);
    ContactUpdate.set_last_name (last_name f);
    ContactUpdate.set_email (Some (email f));
    ContactUpdate.set_phone (Some (phone f));
    ContactUpdate.set_title (Some (title f));
    ContactUpdate.set_company_id (Deals.or_null (company_id f));
    ContactUpdate.set_notes (Some (notes f));
    ContactUpdate.set_updated_at now ].

(** [s.includes(sub)]. *)
Fixpoint includes (s sub : string) : bool :=
  String.prefix sub s
  || match s with
     | EmptyString => false
     | String _ rest => includes rest sub
     end.

Section Search.
(** [String.prototype.toLowerCase], whatever it does to each string. *)
Variable toLowerCase : string -> string.

(** The predicate of [filteredContacts]; [x?.f()] on a null [x] is
    [undefined], which counts as false. *)
Definition matches (searchTerm : string) (j : joined) : bool :=
  let searchLower := toLowerCase searchTerm in
  includes (toLowerCase (Contact.first_name (contact j))) searchLower
  || includes (toLowerCase (Contact.last_name (contact j))) searchLower
  || match Contact.email (contact j) with
     | Some e => includes (toLowerCase e) searchLower
     | None => false
     end
  || match company j with
     | Some co => includes (toLowerCase (Company.name co)) searchLower
     | None => false
     end.

Definition filteredContacts (st : state) : list joined :=
  filter (fun j => matches (searchTerm st) j = true) (contacts st).
End Search.

(** The search box: [onChange={(e) => setSearchTerm(e.target.value)}]. *)
Definition setSearchTerm (v : string) (st : state) : state :=
  State (contacts st) (companies st) (loading st) v (isModalOpen st)
    (editingContact st) (form st).
End Contacts.

(** ASCII letters to lower case, every other byte as it is: what
    [toLowerCase] does to a string of ASCII characters. *)
Definition ascii_lower (c : ascii) : ascii :=
  let n := nat_of_ascii c in
  if ((65 <=? n) && (n <=? 90))%nat then ascii_of_nat (n + 32) else c.

Fixpoint ascii_toLowerCase (s : string) : string :=
  match s with
  | EmptyString => EmptyString
  | String c rest => String (ascii_lower c) (ascii_toLowerCase rest)
  end.


(** ** Grouping the activity log by day ([groupActivitiesByDate]) *)

Module ActivitiesScreen.
Section Grouping.
(** [new Date(d).toLocaleDateString()], whatever the locale makes of it. *)
Variable toLocaleDateString : timestamp -> string.

(** One round of the [forEach].  [groups] is an ordinary object: reading a
    key it does not own falls through to [Object.prototype], whose values
    are truthy and have no [push], so the call throws ([None]). *)
Definition add_to_group (groups : option (gmap string (list Activity.t)))
    (activity : Activity.t) : option (gmap string (list Activity.t)) :=
  match groups with
  | Some g =>
      let date := toLocaleDateString (Activity.activity_date activity) in
      match g !! date with
      | Some l => Some (<[date := l ++ [activity]]> g)
      | None =>
          if bool_decide (date ∈ Dashboard.Object_prototype) then None
          else Some (<[date := [activity]]> g)
      end
  | None => None
  end.

Definition groupActivitiesByDate (activities : list Activity.t)
  : option (gmap string (list Activity.t)) :=
  fold_left add_to_group activities (Some ∅).
End Grouping.
End ActivitiesScreen.

(** The activities of a list that fall on the day labelled [d]. *)
Definition on_day (label : timestamp -> string) (d : string)
    (activities : list Activity.t) : list Activity.t :=
  filter (fun a => label (Activity.activity_date a) = d) activities.

(** The texts of a listed contact that the search looks into: the two
    names, the email if there is one, the name of the company if one is
    shown. *)
Definition searched_fields (j : Contacts.joined) : list string :=
  [Contact.first_name (Contacts.contact j); Contact.last_name (Contacts.contact j)]
  ++ match Contact.email (Contacts.contact j) with
     | Some e => [e]
     | None => []
     end
  ++ match Contacts.company j with
     | Some co => [Company.name co]
     | None => []
     end.

(** [sub] occurs in [s]. *)
Definition occurs_in (sub s : string) : Prop :=
  exists a b : string, s = String.append a (String.append sub b).

(** ** Sample data *)

Module Sample.
Definition alice : uuid := "a11ce".
Definition bob : uuid := "b0b".

Definition acme : Company.t :=
  Company.mk "c-1" "Acme" None None None None None None alice 1000 1000.

Definition jane : Contact.t :=
  Contact.mk "p-1" "Jane" "Doe" None None None (Some "c-1") None alice 2000 2000.

Definition report : Task.t :=
  Task.mk "t-1" "Quarterly report" None (Some 5000) Task.medium Task.pending
    None (Some "c-1") None alice 3000 3000.

Definition audit : Task.t :=
  Task.mk "t-2" "Audit" None (Some 9000) Task.high Task.in_progress
    None None None bob 3500 3500.

Definition first_deal : Deal.t :=
  Deal.mk "d-1" "First" (JS.of_Z 1000) "lead" (Some 10) None (Some "c-1") None None
    alice 4000 4000.

Definition second_deal : Deal.t :=
  Deal.mk "d-2" "Second" (JS.of_Z 2000) "qualified" (Some 40) None None None None
    alice 4100 4100.

Definition kickoff : Activity.t :=
  Activity.mk "a-1" Activity.meeting "Kick-off" None 4500 None (Some "c-1") None
    alice 4500.

(** A task done, whose due date has passed by the instant 6000. *)
Definition filed : Task.t :=
Task.mk "t-3" "File taxes" None (Some 5000) Task.low Task.completed
  None None None alice 3600 3700.

(** The deal form when the first deal is edited and [1000e-1] is entered in
    the probability field: a way of writing 100. *)
Definition form_1000e_1 : Deals.formData :=
Deals.Form "First" "1000" "lead" "1000e-1" "" "c-1" "" "".

Definition editing_first : Deals.state :=
Deals.State [first_deal; second_deal] false true (Some first_deal) form_1000e_1.

(** Twenty-three open tasks, seventeen of them due before the instant 6000. *)
Definition backlog : list Task.t :=
replicate 17 report
++ replicate 6 (Task.mk "t-4" "Someday" None None Task.low Task.pending
                  None None None alice 3000 3000).

Definition db : database :=
  Database.mk [acme] [jane] [first_deal; second_deal] [report; audit] [kickoff].
End Sample.

(** ** More sample data *)

Module Sample2.
(** A task Alice would add: the row as a function of its owner. *)
Definition errand (owner : uuid) : Task.t :=
  Task.mk "t-9" "Errand" None None Task.low Task.pending None None None owner 7000 7000.


(** A task of Alice's due at 9000, and a store that holds her tasks in no
    particular order. *)
Definition late : Task.t :=
  Task.mk "t-5" "Late" None (Some 9000) Task.high Task.pending None None None
    Sample.alice 3100 3100.

Definition unsorted : database :=
  Database.mk [] [] [] [errand Sample.alice; late; Sample.audit; Sample.report] [].

(** The Contacts screen as it is mounted. *)
Definition contacts_screen : Contacts.state :=
  Contacts.State [] [] true "" false None Contacts.emptyForm.

(** A company of Bob's, and a contact of Alice's that names it. *)
Definition globex : Company.t :=
  Company.mk "c-2" "Globex" None None None None None None Sample.bob 1100 1100.

Definition mole : Contact.t :=
  Contact.mk "p-2" "Max" "Mole" None None None (Some "c-2") None Sample.alice 2100 2100.

Definition crossed : database :=
  Database.mk [Sample.acme; globex] [Sample.jane; mole] [] [] [].

(** Days counted from the epoch, as a label of an instant. *)
Definition day_number (t : timestamp) : string := pretty (t / 86400000).

Definition standup : Activity.t :=
  Activity.mk "a-2" Activity.call "Stand-up" None 5000 None None None Sample.alice 5000.

Definition review : Activity.t :=
  Activity.mk "a-3" Activity.note "Review" None 90000000 None None None Sample.alice
    90000000.
End Sample2.

(* ===================================================================== *)
(** * Part II: properties                                                 *)
(* ===================================================================== *)

Lemma forallb_pointwise {A} (f g : A -> bool) (l : list A) :
  (forall x, f x = g x) -> forallb f l = forallb g l.
Proof.
  intros E. induction l as [|x l IH]; simpl; [reflexivity|]. now rewrite E, IH.
Qed.

(** ** Tenant isolation at the storage layer *)

Section Isolation.
Context {R : Type} `{TableRow R}.
Variable u : uuid.
Variable t : Table.t.

(** On every table, the [USING] clause of an authenticated session's
    select, update and delete policy comes down to ownership. *)
Lemma using_ok_own (c : command) (owner : uuid) :
  c <> INSERT ->
  using_ok (Authenticated u) t c (Some owner) = bool_decide (u = owner).
Proof.
  intros Hc. destruct t, c; try congruence; cbv -[bool_decide];
    destruct (bool_decide _); reflexivity.
Qed.

Lemma check_ok_own (c : command) (user_id : option uuid) :
  check_ok (Authenticated u) t c user_id = bool_decide (user_id = Some u).
Proof.
  destruct user_id as [o|].
  - transitivity (bool_decide (u = o)).
    + destruct t, c; cbv -[bool_decide]; destruct (bool_decide _); reflexivity.
    + apply bool_decide_ext. split; congruence.
  - destruct t, c; reflexivity.
Qed.

Lemma targeted_own (c : command) (target : uuid) (r : R) :
  c = UPDATE \/ c = DELETE ->
  targeted (Authenticated u) t c target r = bool_decide (mine u target r).
Proof.
  intros Hc. unfold targeted, mine.
  rewrite !using_ok_own by (destruct Hc; subst; discriminate).
  destruct (decide (row_id r = target)) as [Hi|Hi],
           (decide (u = row_user r)) as [Hu|Hu].
  all: rewrite ?(bool_decide_eq_true_2 _ Hi), ?(bool_decide_eq_false_2 _ Hi),
         ?(bool_decide_eq_true_2 _ Hu), ?(bool_decide_eq_false_2 _ Hu); simpl.
  all: symmetry; first [ apply bool_decide_eq_true_2; split; congruence
                       | apply bool_decide_eq_false_2; intros [? ?]; congruence ].
Qed.

Lemma select_rows_own (rows : list R) :
  select_rows (Authenticated u) t rows = filter (fun r => row_user r = u) rows.
Proof.
  unfold select_rows. apply list_filter_iff. intros r.
  rewrite using_ok_own by discriminate.
  rewrite bool_decide_eq_true. split; congruence.
Qed.

Lemma filter_targeted (c : command) (target : uuid) (rows : list R) :
  c = UPDATE \/ c = DELETE ->
  filter (fun r => targeted (Authenticated u) t c target r = true) rows
  = filter (mine u target) rows.
Proof.
  intros Hc. apply list_filter_iff. intros r.
  rewrite targeted_own by assumption. apply bool_decide_eq_true.
Qed.

Lemma update_rows_own (target : uuid) (set : R -> R) (rows : list R) :
  update_rows (Authenticated u) t target set rows =
    if forallb (fun r => bool_decide (row_user (set r) = u))
         (filter (mine u target) rows)
    then Ok (map (fun r => if bool_decide (mine u target r) then set r else r) rows,
             length (filter (mine u target) rows))
    else Error row_level_security_violation.
Proof.
  unfold update_rows. rewrite filter_targeted by (left; reflexivity).
  rewrite (forallb_pointwise _ (fun r => bool_decide (row_user (set r) = u))).
  2:{ intros r. rewrite check_ok_own. apply bool_decide_ext. split; congruence. }
  destruct (forallb _ _); [|reflexivity].
  f_equal. f_equal. apply map_ext. intros r.
  rewrite targeted_own by (left; reflexivity). reflexivity.
Qed.

Lemma delete_rows_own (target : uuid) (rows : list R) :
  delete_rows (Authenticated u) t target rows =
    (filter (fun r => ~ mine u target r) rows,
     length (filter (mine u target) rows)).
Proof.
  unfold delete_rows. rewrite filter_targeted by (right; reflexivity).
  f_equal. apply list_filter_iff. intros r.
  rewrite targeted_own by (right; reflexivity). apply bool_decide_eq_false.
Qed.


(** When no row with the targeted key is the caller's. *)
Lemma none_mine (target : uuid) (rows : list R) :
  (forall r, r ∈ rows -> row_id r = target -> row_user r <> u) ->
  filter (mine u target) rows = [] /\
  filter (fun r => ~ mine u target r) rows = rows /\
  forall set, map (fun r => if bool_decide (mine u target r) then set r else r) rows = rows.
Proof.
  induction rows as [|r rows IH]; intros Hf; [repeat split; reflexivity|].
  assert (Hr : ~ mine u target r).
  { intros [Hi Hu]. apply (Hf r); [left | assumption | assumption]. }
  destruct IH as (IH1 & IH2 & IH3).
  { intros r' Hin. apply Hf. now right. }
  repeat split.
  - rewrite filter_cons_False by assumption. exact IH1.
  - rewrite filter_cons_True by assumption. now rewrite IH2.
  - intros set. simpl. rewrite bool_decide_eq_false_2 by assumption.
    now rewrite IH3.
Qed.
End Isolation.



(** ** The overdue flag of the Tasks screen *)

Lemma isOverdue_iff (now : timestamp) (dueDate : option timestamp) :
  Tasks.isOverdue now dueDate = true <-> exists d, dueDate = Some d /\ d < now.
Proof.
  destruct dueDate as [d|]; simpl.
  - rewrite Z.ltb_lt. split; [intros Hd; exists d; auto|].
    intros (d' & [= ->] & Hd). exact Hd.
  - split; [discriminate|]. intros (d & Hd & _). discriminate.
Qed.

Lemma flagged_overdue_iff (now : timestamp) (task : Task.t) :
  Tasks.flagged_overdue now task = true
  <-> exists d, Task.due_date task = Some d /\ d < now.
Proof.
  unfold Tasks.flagged_overdue, Tasks.render_due.
  destruct (Task.due_date task) as [d|] eqn:Hd; simpl.
  - rewrite Z.ltb_lt. split; [intros H; exists d; auto|].
    intros (d' & [= ->] & H). exact H.
  - split; [discriminate|]. intros (d & H & _). discriminate.
Qed.

(** C2.  A completed task whose due date has passed is rendered with the
    overdue flag: the card of the task [filed], completed and due at 5000,
    rendered at 6000, carries the red date and the alert icon.  The claim
    has it never flagged, and the dashboard, reading the same task at the
    same instant, leaves it out of its overdue count. *)
Theorem completed_task_flagged_overdue :
  Task.status Sample.filed = Task.completed
  /\ Tasks.flagged_overdue 6000 Sample.filed = true
  /\ Tasks.render 6000 (Tasks.State [Sample.filed] false Tasks.all)
     = [(Sample.filed, Some (Tasks.Badge 5000 true true))]
  /\ Dashboard.is_overdue 6000 Sample.filed = false
  /\ Dashboard.countOverdue 6000 [Sample.filed] = 0.
Proof. repeat split. Qed.

(** ** The deal form *)

(** C3.  The probability field holding [1000e-1].  The text is a valid
    floating-point number and stands for 100, so the number input, which
    turns 150 away, lets the form through; [parseInt] then reads the digits
    before the [e], the body carries 1000, and after the edit the row of
    the deal holds a probability of 1000, outside the range 0 to 100 that
    the claim, the input and the schema's description of the column
    name. *)
Theorem probability_1000e_1_stored_as_1000 :
  HTML.number_of "1000e-1" = Some (JS.of_Z 100)
  /\ Deals.probability_accepted "1000e-1" = true
  /\ Deals.probability_accepted "150" = false
  /\ dd_probability (Deals.build_dealData 7000 Sample.form_1000e_1) = JS.of_Z 1000
  /\ map Deal.probability
       (Database.deals
          (store (Deals.handleSubmit (Authenticated Sample.alice) 7000 "d-9"
                    Sample.editing_first (World Sample.db [] [])).2))
     = [Some 1000; Some 40].
Proof. repeat split; vm_compute; reflexivity. Qed.

(** ** The dashboard's deal statistics *)

Lemma fold_add_snoc (deals : list Deal.t) (d : Deal.t) (z : JS.number) :
  fold_left (fun sum deal => JS.add sum (Deal.value deal)) (deals ++ [d]) z
  = JS.add (fold_left (fun sum deal => JS.add sum (Deal.value deal)) deals z)
           (Deal.value d).
Proof. now rewrite fold_left_app. Qed.

Lemma partial_sum_app (n : nat) (l1 l2 : list JS.number) :
  (n <= length l1)%nat -> partial_sum n (l1 ++ l2) = partial_sum n l1.
Proof.
  induction n as [|k IH]; intros Hn; simpl; [reflexivity|].
  rewrite IH by lia. f_equal. apply app_nth1. lia.
Qed.

Lemma totalValue_partial_sum (deals : list Deal.t) :
  Dashboard.totalValue deals
  = partial_sum (length deals) (map Deal.value deals).
Proof.
  unfold Dashboard.totalValue.
  induction deals as [|d deals IH] using rev_ind; [reflexivity|].
  rewrite fold_add_snoc, IH, length_app, map_app. simpl.
  rewrite Nat.add_1_r. simpl.
  rewrite partial_sum_app by (rewrite length_map; lia).
  f_equal. rewrite app_nth2 by (rewrite length_map; lia).
  rewrite length_map, Nat.sub_diag. reflexivity.
Qed.

Lemma deals_at_snoc (s : string) (deals : list Deal.t) (d : Deal.t) :
  deals_at s (deals ++ [d])
  = deals_at s deals + (if bool_decide (Deal.stage d = s) then 1 else 0).
Proof.
  unfold deals_at. rewrite filter_app, length_app, Nat2Z.inj_add. f_equal.
  case_bool_decide as Hs.
  - rewrite filter_cons_True by assumption. reflexivity.
  - rewrite filter_cons_False by assumption. reflexivity.
Qed.

Lemma deals_at_nonneg (s : string) (deals : list Deal.t) : 0 <= deals_at s deals.
Proof. unfold deals_at. lia. Qed.

(** The counting loop: as long as no stage met is a name that
    [Object.prototype] already answers to, the object holds under each stage
    the number of deals at that stage, and nothing under a stage not met. *)
Lemma stageCount_counts (deals : list Deal.t) :
  Forall (fun d => Deal.stage d ∉ Dashboard.Object_prototype) deals ->
  counts_of deals (Dashboard.stageCount deals).
Proof.
  unfold Dashboard.stageCount.
  induction deals as [|d deals IH] using rev_ind; intros Hok s.
  - simpl. rewrite lookup_empty. reflexivity.
  - apply Forall_app in Hok as [Hok Hd]. rewrite Forall_singleton in Hd.
    specialize (IH Hok). rewrite fold_left_app. simpl.
    set (acc := fold_left _ deals ∅) in *.
    assert (Hproto : Deal.stage d <> "__proto__"%string).
    { intros E. apply Hd. rewrite E. unfold Dashboard.Object_prototype.
      repeat first [ apply list_elem_of_here | apply list_elem_of_further ]. }
    unfold Dashboard.put. rewrite bool_decide_eq_false_2 by assumption.
    rewrite deals_at_snoc. pose proof (deals_at_nonneg s deals) as Hs.
    case_bool_decide as Hk.
    + subst s. rewrite lookup_insert_eq. unfold Dashboard.bump.
      rewrite (IH (Deal.stage d)).
      destruct (deals_at (Deal.stage d) deals =? 0) eqn:Hz.
      * apply Z.eqb_eq in Hz. rewrite Hz.
        rewrite bool_decide_eq_false_2 by assumption. reflexivity.
      * apply Z.eqb_neq in Hz.
        destruct (deals_at (Deal.stage d) deals + 1 =? 0) eqn:Hz';
          [apply Z.eqb_eq in Hz'; lia | reflexivity].
    + rewrite lookup_insert_ne by assumption. rewrite Z.add_0_r. apply IH.
Qed.

Lemma pipeline_stages_are_plain_keys (s : string) :
  s ∈ Deals.DEAL_STAGES -> s ∉ Dashboard.Object_prototype.
Proof.
  assert (Hall : Forall (fun s => s ∉ Dashboard.Object_prototype) Deals.DEAL_STAGES)
    by (apply (bool_decide_unpack _); vm_compute; exact I).
  intros Hin. rewrite Forall_forall in Hall. apply Hall, Hin.
Qed.

(** C4.  Whatever the other answers, from a fetched deal list whose stages
    are ordinary keys (the six pipeline stages are) the dashboard derives as
    total deal value the sum of the [value] column, taken in the order of
    the list, and as per-stage counts the object that holds under each stage
    the number of fetched deals at that stage. *)
Theorem dashboard_deal_statistics (now : timestamp)
    (contactsResult companiesResult activitiesResult : response Z)
    (tasksResult : response (list Task.t)) (deals : list Deal.t) :
  Forall (fun d => Deal.stage d ∉ Dashboard.Object_prototype) deals ->
  Dashboard.totalDealValue
    (Dashboard.derive now contactsResult companiesResult (Ok deals) tasksResult
       activitiesResult).1
  = partial_sum (length deals) (map Deal.value deals)
  /\ counts_of deals
       (Dashboard.derive now contactsResult companiesResult (Ok deals) tasksResult
          activitiesResult).2.
Proof.
  intros Hok. split.
  - apply totalValue_partial_sum.
  - apply stageCount_counts, Hok.
Qed.

Lemma dashboard_deal_statistics_witness :
  let answer := Dashboard.derive 0 (Ok 1) (Ok 1)
                  (Ok [Sample.first_deal; Sample.second_deal]) (Ok []) (Ok 1) in
  Dashboard.totalDealValue answer.1 = JS.of_Z 3000
  /\ answer.2 !! "lead"%string = Some (Dashboard.count 1)
  /\ answer.2 !! "qualified"%string = Some (Dashboard.count 1)
  /\ answer.2 !! "proposal"%string = None.
Proof.
  assert (Hok : Forall (fun d => Deal.stage d ∉ Dashboard.Object_prototype)
                  [Sample.first_deal; Sample.second_deal])
    by (apply (bool_decide_unpack _); vm_compute; exact I).
  pose proof (dashboard_deal_statistics 0 (Ok 1) (Ok 1) (Ok 1) (Ok []) _ Hok)
    as [Htotal Hcounts].
  split; [|split; [|split]].
  - rewrite Htotal. vm_compute. reflexivity.
  - rewrite (Hcounts "lead"%string). reflexivity.
  - rewrite (Hcounts "qualified"%string). reflexivity.
  - rewrite (Hcounts "proposal"%string). reflexivity.
Defined.

(** The scenario end to end: the two deals fetched by their owner. *)
Example two_deals_on_the_dashboard :
  let answer := (Dashboard.fetchDashboardData (Authenticated Sample.alice) 0
                   (World Sample.db [] [])).1 in
  Dashboard.totalDealValue answer.1 = JS.of_Z 3000
  /\ answer.2 = {[ "lead"%string := Dashboard.count 1;
                   "qualified"%string := Dashboard.count 1 ]}.
Proof. split; vm_compute; reflexivity. Qed.

(** A stage named like a method of every object is not counted. *)
Example stage_named_constructor :
  Dashboard.stageCount
    [Deal.mk "d-7" "Odd" (JS.of_Z 1) "constructor" (Some 0) None None None None
       Sample.alice 0 0]
  = {[ "constructor"%string := Dashboard.text ]}.
Proof. vm_compute. reflexivity. Qed.

(** ** The dashboard's task statistics *)

Lemma is_active_iff (t : Task.t) : Dashboard.is_active t = true <-> active t.
Proof.
  unfold Dashboard.is_active, active. destruct (Task.status t); split;
    intros Hs; try reflexivity; try discriminate; auto.
  destruct Hs; discriminate.
Qed.

Lemma is_overdue_iff (now : timestamp) (t : Task.t) :
  Dashboard.is_overdue now t = true <-> active t /\ past_due now t.
Proof.
  unfold Dashboard.is_overdue, past_due. rewrite andb_true_iff, is_active_iff.
  destruct (Task.due_date t); [rewrite Z.ltb_lt; reflexivity|].
  split; [intros [_ Hf]; discriminate | intros [_ []]].
Qed.

Lemma countActive_spec (tasks : list Task.t) :
  Dashboard.countActive tasks = Z.of_nat (length (filter active tasks)).
Proof.
  unfold Dashboard.countActive. do 2 f_equal.
  apply list_filter_iff. intros t. apply is_active_iff.
Qed.

Lemma countOverdue_spec (now : timestamp) (tasks : list Task.t) :
  Dashboard.countOverdue now tasks
  = Z.of_nat (length (filter (past_due now) (filter active tasks))).
Proof.
  unfold Dashboard.countOverdue. do 2 f_equal.
  rewrite list_filter_filter. apply list_filter_iff. intros t.
  rewrite is_overdue_iff. tauto.
Qed.

Lemma overdue_le_active (now : timestamp) (tasks : list Task.t) :
  0 <= Dashboard.countOverdue now tasks <= Dashboard.countActive tasks.
Proof.
  rewrite countOverdue_spec, countActive_spec.
  pose proof (length_filter (past_due now) (filter active tasks)). lia.
Qed.

(** The rate depends on the two task counts alone. *)
Lemma taskCompletionRate_counts (stats : Dashboard.Stats) :
  Dashboard.taskCompletionRate stats
  = Dashboard.taskCompletionRate
      (stats_of_counts (Dashboard.activeTasks stats) (Dashboard.overdueTasks stats)).
Proof. reflexivity. Qed.

(** Up to a hundred active tasks, by evaluation of every case. *)
Lemma rate_agrees_upto_100 :
  forallb (fun a => forallb (rate_agrees a) (seqZ 0 (a + 1))) (seqZ 1 100) = true.
Proof. vm_compute. reflexivity. Qed.

Lemma rate_agrees_small (a o : Z) :
  0 < a <= 100 -> 0 <= o <= a -> rate_agrees a o = true.
Proof.
  intros Ha Ho. pose proof rate_agrees_upto_100 as Hall.
  rewrite forallb_forall in Hall.
  assert (Hin : In a (seqZ 1 100)) by (apply list_elem_of_In, elem_of_seqZ; lia).
  specialize (Hall a Hin). rewrite forallb_forall in Hall.
  apply Hall. apply list_elem_of_In, elem_of_seqZ. lia.
Qed.

(** C5, as the dashboard has it.  From a fetched task list the active count
    is the number of tasks pending or in progress, the overdue count is the
    number of those whose due date has passed, so that overdue never exceeds
    active; and the rate shown is 0 when both are zero and otherwise
    [Math.round] of the binary64 product [(active / (active + overdue)) * 100].
    Up to a hundred active tasks that is the integer nearest to
    [100 * active / (active + overdue)], except that in a half-way case it
    may be the integer just below. *)
Theorem dashboard_task_statistics (now : timestamp)
    (contactsResult companiesResult activitiesResult : response Z)
    (dealsResult : response (list Deal.t)) (tasks : list Task.t) :
  let stats := (Dashboard.derive now contactsResult companiesResult dealsResult
                  (Ok tasks) activitiesResult).1 in
  let a := Dashboard.activeTasks stats in
  let o := Dashboard.overdueTasks stats in
  a = Z.of_nat (length (filter active tasks))
  /\ o = Z.of_nat (length (filter (past_due now) (filter active tasks)))
  /\ 0 <= o <= a
  /\ (Dashboard.taskCompletionRate stats).1
     = Dashboard.shown_number
         (if a + o =? 0 then JS.of_Z 0
          else JS.Math_round
                 (JS.mul (JS.div (JS.of_Z a) (JS.of_Z (a + o))) (JS.of_Z 100)))
  /\ (0 < a <= 100 ->
      exists (x : JS.number) (r : Z),
        (Dashboard.taskCompletionRate stats).1 = Dashboard.shown_number x
        /\ JS.to_Z x = Some r
        /\ (r = nearest_integer (100 * a) (a + o)
            \/ (r = nearest_integer (100 * a) (a + o) - 1
                /\ halfway (100 * a) (a + o)))).
Proof.
  intros stats a o.
  assert (Ha : a = Dashboard.countActive tasks) by reflexivity.
  assert (Ho : o = Dashboard.countOverdue now tasks) by reflexivity.
  pose proof (overdue_le_active now tasks) as Hle. rewrite <- Ha, <- Ho in Hle.
  split; [rewrite Ha; apply countActive_spec|].
  split; [rewrite Ho; apply countOverdue_spec|].
  split; [exact Hle|].
  split.
  - unfold Dashboard.taskCompletionRate. fold a o.
    destruct (0 <? a + o) eqn:Hpos.
    + apply Z.ltb_lt in Hpos. simpl.
      destruct (a + o =? 0) eqn:Hz; [apply Z.eqb_eq in Hz; lia | reflexivity].
    + apply Z.ltb_ge in Hpos. simpl.
      destruct (a + o =? 0) eqn:Hz; [reflexivity | apply Z.eqb_neq in Hz; lia].
  - intros Hsmall. pose proof (rate_agrees_small a o Hsmall Hle) as Hagree.
    unfold rate_agrees in Hagree.
    rewrite (taskCompletionRate_counts stats). fold a o.
    destruct (Dashboard.taskCompletionRate (stats_of_counts a o)).1 as [x|s];
      [|discriminate].
    destruct (JS.to_Z x) as [r|] eqn:Hr; [|discriminate].
    exists x, r. split; [reflexivity|]. split; [exact Hr|].
    apply orb_true_iff in Hagree as [Heq|Hhalf].
    + left. apply Z.eqb_eq, Heq.
    + right. apply andb_true_iff in Hhalf as [Heq Hmod].
      split; [apply Z.eqb_eq, Heq | apply Z.eqb_eq, Hmod].
Qed.

Lemma dashboard_task_statistics_witness :
  exists (x : JS.number) (r : Z),
    (Dashboard.taskCompletionRate
       (Dashboard.derive 6000 (Ok 0) (Ok 0) (Ok []) (Ok [Sample.report; Sample.audit])
          (Ok 0)).1).1 = Dashboard.shown_number x
    /\ JS.to_Z x = Some r
    /\ (r = 67 \/ (r = 67 - 1 /\ halfway 200 3)).
Proof.
  apply (proj2 (proj2 (proj2 (proj2
           (dashboard_task_statistics 6000 (Ok 0) (Ok 0) (Ok 0) (Ok [])
              [Sample.report; Sample.audit]))))).
  vm_compute. split; [reflexivity | discriminate].
Defined.

(** Twenty-three active tasks of which seventeen are overdue: the rate shown
    is 57, whereas 100 * 23 / 40 = 57.5 rounds to 58. *)
Lemma rate_of_23_active_17_overdue :
  let stats := (Dashboard.derive 6000 (Ok 0) (Ok 0) (Ok []) (Ok Sample.backlog)
                  (Ok 0)).1 in
  Dashboard.activeTasks stats = 23
  /\ Dashboard.overdueTasks stats = 17
  /\ (Dashboard.taskCompletionRate stats).1 = Dashboard.shown_number (JS.of_Z 57)
  /\ nearest_integer (100 * 23) (23 + 17) = 58
  /\ JS.mul (JS.div (JS.of_Z 23) (JS.of_Z 40)) (JS.of_Z 100)
     = JS.parseFloat "57.49999999999999".
Proof. repeat split; vm_compute; reflexivity. Qed.

(** ** Quick transitions: what they touch *)

Lemma targeted_check (me : session) (t : Table.t) (target : uuid)
    {R : Type} `{TableRow R} (r : R) :
  targeted me t UPDATE target r = true ->
  check_ok me t UPDATE (Some (row_user r)) = true.
Proof.
  destruct me as [|u].
  - unfold targeted. destruct t; cbv -[bool_decide andb];
      rewrite !andb_false_r; discriminate.
  - rewrite targeted_own by (left; reflexivity). rewrite check_ok_own.
    intros Hm. apply bool_decide_eq_true in Hm as [_ Hu].
    apply bool_decide_eq_true_2. now rewrite Hu.
Qed.

(** An update that leaves [user_id] alone is never refused. *)
Lemma update_rows_keeping_owner (me : session) (t : Table.t) (target : uuid)
    {R : Type} `{TableRow R} (set : R -> R) (rows : list R) :
  (forall r, row_user (set r) = row_user r) ->
  update_rows me t target set rows
  = Ok (map (fun r => if targeted me t UPDATE target r then set r else r) rows,
        length (filter (fun r => targeted me t UPDATE target r = true) rows)).
Proof.
  intros Hkeep. unfold update_rows.
  assert (Hall : forallb (fun r => check_ok me t UPDATE (Some (row_user (set r))))
                   (filter (fun r => targeted me t UPDATE target r = true) rows) = true).
  { apply forallb_forall. intros r Hin.
    apply list_elem_of_In, list_elem_of_filter in Hin as [Ht _].
    rewrite Hkeep. now apply targeted_check with (target := target). }
  now rewrite Hall.
Qed.

Lemma fetchTasks_world (me : session) (st : Tasks.state) (w : world) :
  store (Tasks.fetchTasks me st w).2 = store w
  /\ wire (Tasks.fetchTasks me st w).2 = wire w ++ [q_select Table.tasks "*" false].
Proof.
  unfold Tasks.fetchTasks, from_select_order, transmit. simpl.
  destruct (match link w with b :: _ => b | [] => true end); split; reflexivity.
Qed.

Lemma fetchDeals_world (me : session) (st : Deals.state) (w : world) :
  store (Deals.fetchDeals me st w).2 = store w
  /\ wire (Deals.fetchDeals me st w).2
     = wire w ++ [q_select Table.deals "*, company:companies(*), contact:contacts(*)" false].
Proof.
  unfold Deals.fetchDeals, from_select_order, transmit. simpl.
  destruct (match link w with b :: _ => b | [] => true end); split; reflexivity.
Qed.

(** The world after [updateTaskStatus]: the update was sent; if it reached
    the store the targeted rows took the new status and time and the list
    was fetched again, and if not nothing else happened. *)
Lemma updateTaskStatus_world (me : session) (now : timestamp) (taskId : uuid)
    (newStatus : Task.status_t) (st : Tasks.state) (w : world) :
  let w' := (Tasks.updateTaskStatus me now taskId newStatus st w).2 in
  let sent := q_update_task taskId [Task.set_status newStatus; Task.set_updated_at now] in
  if reaches w
  then store w' = Database.with_tasks
                    (map (fun r => if targeted me Table.tasks UPDATE taskId r
                                   then task_with_status newStatus now r else r)
                         (Database.tasks (store w))) (store w)
       /\ wire w' = wire w ++ [sent; q_select Table.tasks "*" false]
  else store w' = store w /\ wire w' = wire w ++ [sent].
Proof.
  unfold Tasks.updateTaskStatus, from_tasks_update, transmit, reaches. simpl.
  destruct (match link w with b :: _ => b | [] => true end).
  - rewrite update_rows_keeping_owner by (intros r; reflexivity). simpl.
    match goal with |- context [Tasks.fetchTasks me st ?w1] =>
      destruct (fetchTasks_world me st w1) as [-> ->] end.
    simpl. rewrite <- app_assoc. split; reflexivity.
  - split; reflexivity.
Qed.

Lemma updateDealStage_world (me : session) (now : timestamp) (dealId : uuid)
    (newStage : string) (st : Deals.state) (w : world) :
  let w' := (Deals.updateDealStage me now dealId newStage st w).2 in
  let sent := q_update_deal dealId [Deal.set_stage newStage; Deal.set_updated_at now] in
  if reaches w
  then store w' = Database.with_deals
                    (map (fun r => if targeted me Table.deals UPDATE dealId r
                                   then deal_with_stage newStage now r else r)
                         (Database.deals (store w))) (store w)
       /\ wire w' = wire w
                    ++ [sent; q_select Table.deals
                                "*, company:companies(*), contact:contacts(*)" false]
  else store w' = store w /\ wire w' = wire w ++ [sent].
Proof.
  unfold Deals.updateDealStage, from_deals_update, transmit, reaches. simpl.
  destruct (match link w with b :: _ => b | [] => true end).
  - rewrite update_rows_keeping_owner by (intros r; reflexivity). simpl.
    match goal with |- context [Deals.fetchDeals me st ?w1] =>
      destruct (fetchDeals_world me st w1) as [-> ->] end.
    simpl. rewrite <- app_assoc. split; reflexivity.
  - split; reflexivity.
Qed.


Lemma Forall2_map_cases {A} (P : A -> A -> Prop) (f : A -> A) (l : list A) :
  (forall x, P x (f x)) -> Forall2 P l (map f l).
Proof. intros Hf. induction l; simpl; constructor; auto. Qed.



(** The scenario on the sample database: Alice completes her report. *)
Example alice_completes_her_report :
  Database.tasks
    (store (Tasks.updateTaskStatus (Authenticated Sample.alice) 7000 "t-1"
              Task.completed (Tasks.State [] true Tasks.all)
              (World Sample.db [] [])).2)
  = [task_with_status Task.completed 7000 Sample.report; Sample.audit].
Proof. vm_compute. reflexivity. Qed.

(** ** Quick transitions: repeating one *)

Lemma again_task (me : session) (taskId : uuid) (s : Task.status_t)
    (now1 now2 : timestamp) (r : Task.t) :
  let f := fun now r => if targeted me Table.tasks UPDATE taskId r
                        then task_with_status s now r else r in
  Task.status (f now2 (f now1 r)) = Task.status (f now1 r)
  /\ Task.id (f now2 (f now1 r)) = Task.id r
  /\ (f now2 (f now1 r) = f now1 r
      \/ f now2 (f now1 r) = Task.assign (f now1 r) (Task.set_updated_at now2)).
Proof.
  simpl. destruct (targeted me Table.tasks UPDATE taskId r) eqn:Ht.
  - change (targeted me Table.tasks UPDATE taskId (task_with_status s now1 r))
      with (targeted me Table.tasks UPDATE taskId r).
    rewrite Ht. repeat split. right. reflexivity.
  - rewrite Ht. repeat split. left. reflexivity.
Qed.

Lemma again_deal (me : session) (dealId : uuid) (s : string)
    (now1 now2 : timestamp) (r : Deal.t) :
  let f := fun now r => if targeted me Table.deals UPDATE dealId r
                        then deal_with_stage s now r else r in
  Deal.stage (f now2 (f now1 r)) = Deal.stage (f now1 r)
  /\ Deal.id (f now2 (f now1 r)) = Deal.id r
  /\ (f now2 (f now1 r) = f now1 r
      \/ f now2 (f now1 r) = Deal.assign (f now1 r) (Deal.set_updated_at now2)).
Proof.
  simpl. destruct (targeted me Table.deals UPDATE dealId r) eqn:Ht.
  - change (targeted me Table.deals UPDATE dealId (deal_with_stage s now1 r))
      with (targeted me Table.deals UPDATE dealId r).
    rewrite Ht. repeat split. right. reflexivity.
  - rewrite Ht. repeat split. left. reflexivity.
Qed.

Lemma map_map_pointwise {A B} (g : A -> B) (f1 f2 : A -> A) (l : list A) :
  (forall x, g (f2 (f1 x)) = g (f1 x)) ->
  map g (map f2 (map f1 l)) = map g (map f1 l).
Proof. intros E. rewrite !map_map. apply map_ext. intros x. apply E. Qed.

Lemma Forall2_map_map {A} (P : A -> A -> Prop) (f g : A -> A) (l : list A) :
  (forall x, P (f x) (g (f x))) -> Forall2 P (map f l) (map g (map f l)).
Proof. intros Hf. induction l; simpl; constructor; auto. Qed.

(** C7.  Once a status transition of a task has taken effect, issuing the
    same transition again leaves every task with the status it had after
    the first: the table keeps its rows, with the same ids in the same
    places, and a row differs from what it was after the first transition
    in [updated_at] at most.  The same holds of a stage transition of a
    deal. *)
Theorem quick_transition_idempotent (me : session) (now1 now2 : timestamp)
    (w : world) :
  reaches w = true ->
  (forall (taskId : uuid) (newStatus : Task.status_t) (st : Tasks.state),
     let once := Tasks.updateTaskStatus me now1 taskId newStatus st w in
     let twice := Tasks.updateTaskStatus me now2 taskId newStatus once.1 once.2 in
     map Task.status (Database.tasks (store twice.2))
     = map Task.status (Database.tasks (store once.2))
     /\ map Task.id (Database.tasks (store twice.2))
        = map Task.id (Database.tasks (store w))
     /\ length (Database.tasks (store twice.2)) = length (Database.tasks (store w))
     /\ Forall2 (fun r r' => r' = r \/ r' = Task.assign r (Task.set_updated_at now2))
          (Database.tasks (store once.2)) (Database.tasks (store twice.2)))
  /\ (forall (dealId : uuid) (newStage : string) (st : Deals.state),
        let once := Deals.updateDealStage me now1 dealId newStage st w in
        let twice := Deals.updateDealStage me now2 dealId newStage once.1 once.2 in
        map Deal.stage (Database.deals (store twice.2))
        = map Deal.stage (Database.deals (store once.2))
        /\ map Deal.id (Database.deals (store twice.2))
           = map Deal.id (Database.deals (store w))
        /\ length (Database.deals (store twice.2)) = length (Database.deals (store w))
        /\ Forall2 (fun r r' => r' = r \/ r' = Deal.assign r (Deal.set_updated_at now2))
             (Database.deals (store once.2)) (Database.deals (store twice.2))).
Proof.
  intros Hup. split.
  - intros taskId newStatus st once twice.
    pose proof (updateTaskStatus_world me now1 taskId newStatus st w) as H1.
    pose proof (updateTaskStatus_world me now2 taskId newStatus once.1 once.2) as H2.
    cbv zeta in H1, H2. fold once in H1. fold twice in H2.
    rewrite Hup in H1. destruct H1 as [Hs1 _].
    set (f := fun now r => if targeted me Table.tasks UPDATE taskId r
                           then task_with_status newStatus now r else r) in *.
    assert (Hids : map Task.id (Database.tasks (store once.2))
                   = map Task.id (Database.tasks (store w))).
    { rewrite Hs1. simpl. rewrite map_map. apply map_ext. intros r. unfold f.
      destruct (targeted _ _ _ _ r); reflexivity. }
    destruct (reaches once.2); destruct H2 as [Hs2 _]; rewrite Hs2.
    + rewrite Hs1. simpl. repeat split.
      * apply map_map_pointwise. intros r.
        apply (again_task me taskId newStatus now1 now2 r).
      * rewrite !map_map. apply map_ext. intros r.
        apply (again_task me taskId newStatus now1 now2 r).
      * now rewrite !length_map.
      * apply Forall2_map_map. intros r.
        apply (again_task me taskId newStatus now1 now2 r).
    + repeat split.
      * exact Hids.
      * rewrite <- (length_map Task.id), Hids. apply length_map.
      * apply Forall_Forall2_diag, Forall_forall. intros r _. now left.
  - intros dealId newStage st once twice.
    pose proof (updateDealStage_world me now1 dealId newStage st w) as H1.
    pose proof (updateDealStage_world me now2 dealId newStage once.1 once.2) as H2.
    cbv zeta in H1, H2. fold once in H1. fold twice in H2.
    rewrite Hup in H1. destruct H1 as [Hs1 _].
    set (f := fun now r => if targeted me Table.deals UPDATE dealId r
                           then deal_with_stage newStage now r else r) in *.
    assert (Hids : map Deal.id (Database.deals (store once.2))
                   = map Deal.id (Database.deals (store w))).
    { rewrite Hs1. simpl. rewrite map_map. apply map_ext. intros r. unfold f.
      destruct (targeted _ _ _ _ r); reflexivity. }
    destruct (reaches once.2); destruct H2 as [Hs2 _]; rewrite Hs2.
    + rewrite Hs1. simpl. repeat split.
      * apply map_map_pointwise. intros r.
        apply (again_deal me dealId newStage now1 now2 r).
      * rewrite !map_map. apply map_ext. intros r.
        apply (again_deal me dealId newStage now1 now2 r).
      * now rewrite !length_map.
      * apply Forall2_map_map. intros r.
        apply (again_deal me dealId newStage now1 now2 r).
    + repeat split.
      * exact Hids.
      * rewrite <- (length_map Deal.id), Hids. apply length_map.
      * apply Forall_Forall2_diag, Forall_forall. intros r _. now left.
Qed.

Lemma quick_transition_idempotent_witness :
  let w := World Sample.db [] [] in
  let st := Tasks.State [] true Tasks.all in
  let once := Tasks.updateTaskStatus (Authenticated Sample.alice) 7000 "t-1"
                Task.completed st w in
  let twice := Tasks.updateTaskStatus (Authenticated Sample.alice) 8000 "t-1"
                 Task.completed once.1 once.2 in
  map Task.status (Database.tasks (store twice.2))
  = map Task.status (Database.tasks (store once.2))
  /\ length (Database.tasks (store twice.2)) = 2%nat.
Proof.
  intros w st once twice.
  pose proof (proj1 (quick_transition_idempotent (Authenticated Sample.alice)
                       7000 8000 w eq_refl)
                "t-1"%string Task.completed st) as (Hstatus & _ & Hlen & _).
  split; [exact Hstatus | exact Hlen].
Defined.

(** The scenario: completing the report twice. *)
Example completing_twice :
  let w := World Sample.db [] [] in
  let st := Tasks.State [] true Tasks.all in
  let once := Tasks.updateTaskStatus (Authenticated Sample.alice) 7000 "t-1"
                Task.completed st w in
  let twice := Tasks.updateTaskStatus (Authenticated Sample.alice) 8000 "t-1"
                 Task.completed once.1 once.2 in
  Database.tasks (store once.2)
  = [task_with_status Task.completed 7000 Sample.report; Sample.audit]
  /\ Database.tasks (store twice.2)
     = [task_with_status Task.completed 8000 Sample.report; Sample.audit].
Proof. split; vm_compute; reflexivity. Qed.

(** ** Deleting a company *)

Lemma on_delete_set_null_spec (gone : uuid) (ref : option uuid) :
  on_delete_set_null gone ref <> Some gone
  /\ (ref = Some gone -> on_delete_set_null gone ref = None)
  /\ (ref <> Some gone -> on_delete_set_null gone ref = ref).
Proof.
  unfold on_delete_set_null. destruct ref as [c|]; [|repeat split; congruence].
  case_bool_decide as Hc.
  - subst c. repeat split; congruence.
  - repeat split; congruence.
Qed.

Ltac set_null_row r gone ref :=
  cbv [contact_company_set_null deal_company_set_null task_company_set_null
       activity_company_set_null reference_cleared contact_same_but_company
       deal_same_but_company task_same_but_company activity_same_but_company];
  destruct (on_delete_set_null_spec gone ref) as (Hne & Hnull & Hkeep);
  destruct r; simpl in *;
  repeat match goal with |- _ /\ _ => split end;
  try reflexivity; try assumption;
  let Hr := fresh in intros Hr; rewrite (Hkeep Hr); reflexivity.

Lemma contact_set_null_spec (gone : uuid) (r : Contact.t) :
  reference_cleared Contact.company_id contact_same_but_company gone
    r (contact_company_set_null gone r).
Proof. set_null_row r gone (Contact.company_id r). Qed.

Lemma deal_set_null_spec (gone : uuid) (r : Deal.t) :
  reference_cleared Deal.company_id deal_same_but_company gone
    r (deal_company_set_null gone r).
Proof. set_null_row r gone (Deal.company_id r). Qed.

Lemma task_set_null_spec (gone : uuid) (r : Task.t) :
  reference_cleared Task.company_id task_same_but_company gone
    r (task_company_set_null gone r).
Proof. set_null_row r gone (Task.company_id r). Qed.

Lemma activity_set_null_spec (gone : uuid) (r : Activity.t) :
  reference_cleared Activity.company_id activity_same_but_company gone
    r (activity_company_set_null gone r).
Proof. set_null_row r gone (Activity.company_id r). Qed.

(** The database after its owner has deleted a company. *)
Lemma delete_company_own (u target : uuid) (db : database) :
  (exists c, c ∈ Database.companies db /\ mine u target c) ->
  (delete_company (Authenticated u) target db).1
  = Database.mk
      (filter (fun c => ~ mine u target c) (Database.companies db))
      (map (contact_company_set_null target) (Database.contacts db))
      (map (deal_company_set_null target) (Database.deals db))
      (map (task_company_set_null target) (Database.tasks db))
      (map (activity_company_set_null target) (Database.activities db))
  /\ (delete_company (Authenticated u) target db).2 <> 0%nat.
Proof.
  intros (c & Hin & Hmine). unfold delete_company.
  rewrite delete_rows_own.
  destruct (length (filter (mine u target) (Database.companies db))) eqn:Hn.
  - apply length_zero_iff_nil in Hn.
    assert (Hc : c ∈ filter (mine u target) (Database.companies db))
      by (apply list_elem_of_filter; auto).
    rewrite Hn in Hc. inversion Hc.
  - split; [reflexivity | discriminate].
Qed.

(** C8.  When its owner deletes a company, the company row goes, and in
    contacts, deals, tasks and activities every row stays where it was: a
    row that referred to the company now has a null company reference and
    its other columns as before, and a row that did not is untouched. *)
Theorem company_delete_nulls_references (u target : uuid) (db : database) :
  (exists c, c ∈ Database.companies db /\ mine u target c) ->
  let db' := (delete_company (Authenticated u) target db).1 in
  (forall c, c ∈ Database.companies db' -> ~ mine u target c)
  /\ Forall2 (reference_cleared Contact.company_id contact_same_but_company target)
       (Database.contacts db) (Database.contacts db')
  /\ Forall2 (reference_cleared Deal.company_id deal_same_but_company target)
       (Database.deals db) (Database.deals db')
  /\ Forall2 (reference_cleared Task.company_id task_same_but_company target)
       (Database.tasks db) (Database.tasks db')
  /\ Forall2 (reference_cleared Activity.company_id activity_same_but_company target)
       (Database.activities db) (Database.activities db').
Proof.
  intros Hown db'. subst db'.
  destruct (delete_company_own u target db Hown) as [-> _]. simpl.
  split; [|split; [|split; [|split]]].
  - intros c Hc. apply list_elem_of_filter in Hc as [Hc _]. exact Hc.
  - apply Forall2_map_cases, contact_set_null_spec.
  - apply Forall2_map_cases, deal_set_null_spec.
  - apply Forall2_map_cases, task_set_null_spec.
  - apply Forall2_map_cases, activity_set_null_spec.
Qed.

Lemma company_delete_nulls_references_witness :
  Forall2 (reference_cleared Contact.company_id contact_same_but_company "c-1")
    [Sample.jane]
    (Database.contacts (delete_company (Authenticated Sample.alice) "c-1" Sample.db).1).
Proof.
  apply (proj1 (proj2 (company_delete_nulls_references Sample.alice "c-1" Sample.db
                         (ex_intro _ Sample.acme
                            (conj (list_elem_of_here _ _) (conj eq_refl eq_refl)))))).
Defined.

(** The scenario: Acme deleted, Jane Doe fetched again. *)
Example acme_deleted_jane_stays :
  let db' := (delete_company (Authenticated Sample.alice) "c-1" Sample.db).1 in
  Database.companies db' = []
  /\ select_rows (Authenticated Sample.alice) Table.contacts (Database.contacts db')
     = [Contact.mk "p-1" "Jane" "Doe" None None None None None Sample.alice 2000 2000]
  /\ map Task.company_id (Database.tasks db') = [None; None]
  /\ map Deal.company_id (Database.deals db') = [None; None]
  /\ map Activity.company_id (Database.activities db') = [None].
Proof. repeat split; vm_compute; reflexivity. Qed.

(** Somebody else's attempt leaves the company and its dependents alone. *)
Example bob_cannot_delete_acme :
  delete_company (Authenticated Sample.bob) "c-1" Sample.db = (Sample.db, 0%nat).
Proof. vm_compute. reflexivity. Qed.

(** ** The Activities screen *)

Lemma only_appends_refl (w : world) : only_appends w w [] [].
Proof. unfold only_appends. rewrite !app_nil_r. repeat split. Qed.

Lemma only_appends_trans (w1 w2 w3 : world) (s1 s2 : list request)
    (a1 a2 : list Activity.t) :
  only_appends w1 w2 s1 a1 -> only_appends w2 w3 s2 a2 ->
  only_appends w1 w3 (s1 ++ s2) (a1 ++ a2).
Proof.
  intros (Hw1 & Ha1 & Hc1 & Hp1 & Hd1 & Ht1) (Hw2 & Ha2 & Hc2 & Hp2 & Hd2 & Ht2).
  unfold only_appends. rewrite !app_assoc, <- Hw1, <- Ha1.
  repeat split; congruence.
Qed.

Lemma fetchActivities_appends (me : session) (st : Activities.state) (w : world) :
  only_appends w (Activities.fetchActivities me st w).2
    [q_select Table.activities "*" false] [].
Proof.
  unfold Activities.fetchActivities, from_select_order, transmit, only_appends. simpl.
  destruct (match link w with b :: _ => b | [] => true end);
    simpl; rewrite app_nil_r; repeat split.
Qed.

Lemma handleSubmit_appends (me : session) (now : timestamp) (fresh : uuid)
    (st : Activities.state) (w : world) :
  exists sent added,
    only_appends w (Activities.handleSubmit me now fresh st w).2 sent added
    /\ Forall reads_or_appends sent.
Proof.
  unfold Activities.handleSubmit, from_activities_insert.
  destruct (transmit (q_insert_activity (Activities.formData st)) w) as [up w1] eqn:Ht.
  assert (H1 : only_appends w w1 [q_insert_activity (Activities.formData st)] []).
  { unfold transmit in Ht. injection Ht as _ <-. unfold only_appends. simpl.
    rewrite app_nil_r. repeat split. }
  assert (Hq : reads_or_appends (q_insert_activity (Activities.formData st)))
    by (split; [reflexivity | right; reflexivity]).
  destruct up.
  - destruct (insert_row me Table.activities None _ (Database.activities (store w1)))
      as [rows|e] eqn:Hins.
    + assert (Hrows : exists r, rows = Database.activities (store w1) ++ [r]).
      { unfold insert_row in Hins.
        destruct (check_ok me Table.activities INSERT None); discriminate. }
      destruct Hrows as [r ->].
      match goal with |- context [Activities.fetchActivities me ?s ?w2] =>
        pose proof (fetchActivities_appends me s w2) as H3;
        assert (H2 : only_appends w1 w2 [] [r])
      end.
      { unfold only_appends. simpl. rewrite app_nil_r. repeat split. }
      eexists _, _. split.
      * eapply only_appends_trans; [exact H1|].
        eapply only_appends_trans; [exact H2 | exact H3].
      * simpl. constructor; [exact Hq|]. constructor; [|constructor].
        split; [reflexivity | left; reflexivity].
    + exists [q_insert_activity (Activities.formData st)], []. split; [exact H1|].
      constructor; [exact Hq | constructor].
  - exists [q_insert_activity (Activities.formData st)], []. split; [exact H1|].
    constructor; [exact Hq | constructor].
Qed.

Lemma step_appends (me : session) (now : timestamp) (fresh : uuid)
    (ev : Activities.event) (st : Activities.state) (w : world) :
  exists sent added,
    only_appends w (Activities.step me now fresh ev st w).2 sent added
    /\ Forall reads_or_appends sent.
Proof.
  assert (Hidle : exists sent added, only_appends w w sent added
                                     /\ Forall reads_or_appends sent).
  { exists [], []. split; [apply only_appends_refl | constructor]. }
  destruct ev; simpl; try exact Hidle.
  - eexists _, _. split; [apply fetchActivities_appends|].
    constructor; [|constructor]. split; [reflexivity | left; reflexivity].
  - destruct (Activities.isModalOpen st); exact Hidle.
  - destruct (Activities.isModalOpen st); exact Hidle.
  - destruct (Activities.isModalOpen st); exact Hidle.
  - destruct (Activities.isModalOpen st); exact Hidle.
  - destruct (Activities.isModalOpen st); [apply handleSubmit_appends | exact Hidle].
  - destruct (Activities.isModalOpen st); exact Hidle.
Qed.

(** C9.  Whatever state the Activities screen is in and whatever happens on
    it next, every request it sends is a select on the activities table or
    an insert into it, and none is an update or a delete; in the store, the
    rows the activities table had are all still there, unchanged and in
    place, with new rows after them at most, and the other tables are as
    they were. *)
Theorem activities_append_only (me : session)
    (evs : list (timestamp * uuid * Activities.event))
    (st : Activities.state) (w : world) :
  exists (sent : list request) (added : list Activity.t),
    only_appends w (Activities.run me evs st w).2 sent added
    /\ Forall reads_or_appends sent
    /\ Forall (fun q => request_command q <> UPDATE /\ request_command q <> DELETE) sent.
Proof.
  assert (Hrun : exists sent added,
             only_appends w (Activities.run me evs st w).2 sent added
             /\ Forall reads_or_appends sent).
  { revert st w. induction evs as [|[[now fresh] ev] evs IH]; intros st w.
    - exists [], []. split; [apply only_appends_refl | constructor].
    - simpl. destruct (step_appends me now fresh ev st w) as (s1 & a1 & H1 & F1).
      destruct (Activities.step me now fresh ev st w) as [st1 w1]. simpl in H1.
      destruct (IH st1 w1) as (s2 & a2 & H2 & F2).
      exists (s1 ++ s2), (a1 ++ a2). split.
      + eapply only_appends_trans; eassumption.
      + apply Forall_app. split; assumption. }
  destruct Hrun as (sent & added & Happ & Hall).
  exists sent, added. split; [exact Happ|]. split; [exact Hall|].
  eapply Forall_impl; [exact Hall|].
  intros q [_ [Hc|Hc]]; rewrite Hc; split; discriminate.
Qed.

(** A session on the screen: mount, open the form, type, submit, cancel. *)
Example an_afternoon_of_logging :
  wire (Activities.run (Authenticated Sample.alice)
          [ (7000, "a-2", Activities.mounted);
            (7100, "a-2", Activities.click_log_activity);
            (7200, "a-2", Activities.change_subject "Call back");
            (7300, "a-2", Activities.change_type Activity.call);
            (7400, "a-2", Activities.submit);
            (7500, "a-3", Activities.click_cancel) ]%string
          (Activities.initial 7000) (World Sample.db [] [])).2
  = [ q_select Table.activities "*" false;
      q_insert_activity
        {| ad_type := Activity.call; ad_subject := "Call back";
           ad_description := ""; ad_activity_date := 0 |} ].
Proof. vm_compute. reflexivity. Qed.

(** The body the form sends names no [user_id], and the column has no
    default: under the insert policy the store refuses the row. *)
Example insert_without_owner :
  (from_activities_insert (Authenticated Sample.alice)
     (Activities.blankForm 7000) "a-2" 7000 (World Sample.db [] [])).1
  = Error row_level_security_violation.
Proof. vm_compute. reflexivity. Qed.

(** ** Quick Stats never divide by zero *)

(** C10.  Whatever the statistics, every division evaluated for the three
    ratios has a denominator other than zero; with no deals the average
    deal value shows 0, with no companies the contacts per company show 0,
    and with no active and no overdue task the completion rate shows 0.
    These are the cases of an empty fetched deal list, of a company count
    of zero (or none returned), and of a task list without open tasks. *)
Theorem quick_stats_total (stats : Dashboard.Stats) :
  Forall (fun d => d <> 0)
    ((Dashboard.averageDealValue stats).2 ++ (Dashboard.contactsPerCompany stats).2
     ++ (Dashboard.taskCompletionRate stats).2)
  /\ (Dashboard.totalDeals stats = 0 ->
      Dashboard.averageDealValue stats = (Dashboard.shown_number (JS.of_Z 0), []))
  /\ (Dashboard.totalCompanies stats = 0 ->
      Dashboard.contactsPerCompany stats = (Dashboard.shown_number (JS.of_Z 0), []))
  /\ (Dashboard.activeTasks stats = 0 -> Dashboard.overdueTasks stats = 0 ->
      Dashboard.taskCompletionRate stats = (Dashboard.shown_number (JS.of_Z 0), []))
  /\ (forall now contactsResult companiesResult dealsResult tasksResult activitiesResult,
        stats = (Dashboard.derive now contactsResult companiesResult dealsResult
                   tasksResult activitiesResult).1 ->
        (Dashboard.data_or_empty dealsResult = [] -> Dashboard.totalDeals stats = 0)
        /\ (Dashboard.count_or_zero companiesResult = 0 ->
            Dashboard.totalCompanies stats = 0)
        /\ (Forall (fun t => ~ active t) (Dashboard.data_or_empty tasksResult) ->
            Dashboard.activeTasks stats = 0 /\ Dashboard.overdueTasks stats = 0)).
Proof.
  split; [|split; [|split; [|split]]].
  - unfold Dashboard.averageDealValue, Dashboard.contactsPerCompany,
      Dashboard.taskCompletionRate.
    destruct (0 <? Dashboard.totalDeals stats) eqn:Hd,
             (0 <? Dashboard.totalCompanies stats) eqn:Hc,
             (0 <? Dashboard.activeTasks stats + Dashboard.overdueTasks stats) eqn:Ht;
      simpl; repeat constructor;
      try (apply Z.ltb_lt in Hd); try (apply Z.ltb_lt in Hc);
      try (apply Z.ltb_lt in Ht); lia.
  - intros Hz. unfold Dashboard.averageDealValue. rewrite Hz. reflexivity.
  - intros Hz. unfold Dashboard.contactsPerCompany. rewrite Hz. reflexivity.
  - intros Ha Ho. unfold Dashboard.taskCompletionRate. rewrite Ha, Ho. reflexivity.
  - intros now r1 r2 r3 r4 r5 ->. simpl. split; [|split].
    + intros ->. reflexivity.
    + auto.
    + intros Hnone.
      assert (Hf : filter active (Dashboard.data_or_empty r4) = []).
      { induction Hnone as [|t l Ht _ IH]; [reflexivity|].
        rewrite filter_cons_False by assumption. exact IH. }
      rewrite countActive_spec, countOverdue_spec, Hf. split; reflexivity.
Qed.

Lemma quick_stats_total_witness :
  let stats := (Dashboard.derive 6000 (Ok 3) (Ok 0) (Ok []) (Ok [Sample.filed]) (Ok 0)).1 in
  Dashboard.averageDealValue stats = (Dashboard.shown_number (JS.of_Z 0), [])
  /\ Dashboard.contactsPerCompany stats = (Dashboard.shown_number (JS.of_Z 0), [])
  /\ Dashboard.taskCompletionRate stats = (Dashboard.shown_number (JS.of_Z 0), []).
Proof.
  intros stats.
  pose proof (quick_stats_total stats) as (_ & Havg & Hcpc & Hrate & _).
  split; [apply Havg; reflexivity|].
  split; [apply Hcpc; reflexivity|].
  apply Hrate; reflexivity.
Defined.

(** Ratios away from zero, for comparison: three deals worth 3000 and 2000
    and 1000, five contacts at two companies, two open tasks with one
    overdue. *)
Example quick_stats_in_use :
  let stats := {| Dashboard.totalContacts := 5; Dashboard.totalCompanies := 2;
                  Dashboard.totalDeals := 3; Dashboard.totalDealValue := JS.of_Z 6000;
                  Dashboard.activeTasks := 2; Dashboard.overdueTasks := 1;
                  Dashboard.recentActivities := 0 |} in
  Dashboard.averageDealValue stats = (Dashboard.shown_number (JS.of_Z 2000), [3])
  /\ Dashboard.contactsPerCompany stats = (Dashboard.shown_text "2.5", [2])
  /\ Dashboard.taskCompletionRate stats = (Dashboard.shown_number (JS.of_Z 67), [3]).
Proof. repeat split; vm_compute; reflexivity. Qed.

(* ===================================================================== *)
(** * Part II, continued                                                  *)
(* ===================================================================== *)

(** ** The storage layer without a signed-in user *)

Lemma anonymous_no_policy (t : Table.t) (c : command) (user_id : option uuid) :
  using_ok Anonymous t c user_id = false /\ check_ok Anonymous t c user_id = false.
Proof. destruct t, c; split; reflexivity. Qed.

Lemma filter_none {A} (P : A -> Prop) `{forall x, Decision (P x)} (l : list A) :
  (forall x, ~ P x) -> filter P l = [].
Proof.
  intros Hn. induction l as [|x l IH]; [reflexivity|].
  rewrite filter_cons_False by apply Hn. exact IH.
Qed.

Lemma filter_all {A} (P : A -> Prop) `{forall x, Decision (P x)} (l : list A) :
  (forall x, P x) -> filter P l = l.
Proof.
  intros Hn. induction l as [|x l IH]; [reflexivity|].
  rewrite filter_cons_True by apply Hn. now rewrite IH.
Qed.

(** X1.  The policies are all granted [TO authenticated]: on every table a
    session that is not signed in reads no row, updates and deletes no row
    (the answer is zero rows, not an error), and cannot insert. *)
Theorem anonymous_reads_and_writes_nothing {R : Type} `{TableRow R}
    (t : Table.t) (rows : list R) :
  select_rows Anonymous t rows = []
  /\ (forall (target : uuid) (set : R -> R),
        update_rows Anonymous t target set rows = Ok (rows, 0%nat))
  /\ (forall target : uuid, delete_rows Anonymous t target rows = (rows, 0%nat))
  /\ (forall (user_id : option uuid) (row : uuid -> R),
        insert_row Anonymous t user_id row rows = Error row_level_security_violation).
Proof.
  assert (Hnot : forall c target (r : R), targeted Anonymous t c target r = false).
  { intros c target r. unfold targeted.
    rewrite (proj1 (anonymous_no_policy t SELECT _)).
    now rewrite andb_false_r. }
  split; [|split; [|split]].
  - unfold select_rows. apply filter_none. intros r.
    rewrite (proj1 (anonymous_no_policy t SELECT _)). discriminate.
  - intros target set. unfold update_rows.
    rewrite (filter_none (fun r => targeted Anonymous t UPDATE target r = true)).
    2:{ intros r. rewrite Hnot. discriminate. }
    simpl. do 2 f_equal. rewrite <- (map_id rows) at 2. apply map_ext.
    intros r. now rewrite Hnot.
  - intros target. unfold delete_rows.
    rewrite (filter_none (fun r => targeted Anonymous t DELETE target r = true)).
    2:{ intros r. rewrite Hnot. discriminate. }
    rewrite filter_all; [reflexivity|]. intros r. apply Hnot.
  - intros user_id row. unfold insert_row.
    now rewrite (proj2 (anonymous_no_policy t INSERT user_id)).
Qed.

(** ** Insert, then select *)


(** ** Ownership cannot be handed over *)




Lemma owned_after_delete {R : Type} `{TableRow R} (u id : uuid) (rows : list R) :
  owned_by u (filter (fun r => ~ mine u id r) rows)
  = filter (fun r => row_id r <> id) (owned_by u rows).
Proof.
  unfold owned_by. rewrite !list_filter_filter. apply list_filter_iff.
  intros r. unfold mine.
  split; [intros [Ho Hn]; split; [intros Hi; apply Hn; auto | exact Ho]
         | intros [Hi Ho]; split; [exact Ho | intros [Hi' _]; contradiction]].
Qed.

Lemma select_after_delete {R : Type} `{TableRow R} (t : Table.t) (u id : uuid)
    (rows : list R) :
  select_rows (Authenticated u) t (filter (fun r => ~ mine u id r) rows)
  = filter (fun r => row_id r <> id) (owned_by u rows).
Proof. rewrite select_rows_own. apply owned_after_delete. Qed.

(** ** Deleting, and deleting again *)

(** X4.  After a delete by id none of the user's rows has that id any more,
    a select returns what it returned before without those rows, and the
    same delete issued again affects zero rows and changes nothing. *)
Theorem delete_then_delete {R : Type} `{TableRow R} (t : Table.t) (u : uuid)
    (target : uuid) (rows : list R) :
  let after := (delete_rows (Authenticated u) t target rows).1 in
  (forall r, r ∈ after -> ~ mine u target r)
  /\ select_rows (Authenticated u) t after
     = filter (fun r => row_id r <> target) (select_rows (Authenticated u) t rows)
  /\ owned_by u after = filter (fun r => row_id r <> target) (owned_by u rows)
  /\ delete_rows (Authenticated u) t target after = (after, 0%nat).
Proof.
  intros after. subst after. rewrite delete_rows_own. simpl.
  assert (Hgone : forall r, r ∈ filter (fun r => ~ mine u target r) rows
                            -> ~ mine u target r).
  { intros r Hr. now apply list_elem_of_filter in Hr as [Hr _]. }
  split; [exact Hgone|]. split; [|split].
  - rewrite select_after_delete, select_rows_own. reflexivity.
  - apply owned_after_delete.
  - rewrite delete_rows_own.
    destruct (none_mine u target (filter (fun r => ~ mine u target r) rows))
      as (-> & -> & _); [|reflexivity].
    intros r Hr Hi Ho. apply (Hgone r Hr). split; assumption.
Qed.

(** ** The primary key *)

Lemma map_id_filter_NoDup {R : Type} `{TableRow R} (P : R -> Prop)
    `{forall r, Decision (P r)} (rows : list R) :
  primary_key rows -> primary_key (filter P rows).
Proof.
  unfold primary_key. induction rows as [|r rows IH]; intros Hnd; [constructor|].
  simpl in Hnd. apply NoDup_cons in Hnd as [Hr Hnd].
  destruct (decide (P r)) as [Hp|Hp].
  - rewrite filter_cons_True by assumption. simpl. apply NoDup_cons. split; [|auto].
    intros Hin. apply Hr. apply list_elem_of_fmap in Hin as (r' & E & Hin).
    apply list_elem_of_filter in Hin as [_ Hin].
    rewrite E. now apply list_elem_of_fmap_2.
  - rewrite filter_cons_False by assumption. auto.
Qed.

Lemma filter_none_in {A} (P : A -> Prop) `{forall x, Decision (P x)} (l : list A) :
  (forall x, x ∈ l -> ~ P x) -> filter P l = [].
Proof.
  induction l as [|x l IH]; intros Hn; [reflexivity|].
  rewrite filter_cons_False by (apply Hn; left). apply IH.
  intros y Hy. apply Hn. now right.
Qed.

Lemma at_most_one_mine {R : Type} `{TableRow R} (u target : uuid) (rows : list R) :
  primary_key rows -> (length (filter (mine u target) rows) <= 1)%nat.
Proof.
  unfold primary_key. induction rows as [|r rows IH]; intros Hnd; [simpl; lia|].
  simpl in Hnd. apply NoDup_cons in Hnd as [Hr Hnd].
  destruct (decide (mine u target r)) as [Hm|Hm].
  - rewrite filter_cons_True by assumption.
    rewrite (filter_none_in (mine u target) rows); [simpl; lia|].
    intros r' Hin [Hi _]. apply Hr. destruct Hm as [Hi' _].
    rewrite Hi', <- Hi. now apply list_elem_of_fmap_2.
  - rewrite filter_cons_False by assumption. auto.
Qed.

(** X5.  The primary key is kept by every statement: if no two rows share
    an id, none do after an accepted insert, after a delete, or after an
    update whose new contents keep the id; and under the key an update or
    delete by id acts on one row at most. *)
Theorem primary_key_kept {R : Type} `{TableRow R} (t : Table.t) (u : uuid)
    (rows : list R) :
  primary_key rows ->
  (forall user_id row rows',
     insert_row (Authenticated u) t user_id row rows = Ok rows' -> primary_key rows')
  /\ (forall target, primary_key (delete_rows (Authenticated u) t target rows).1
                     /\ ((delete_rows (Authenticated u) t target rows).2 <= 1)%nat)
  /\ (forall target set rows' n,
        (forall r, row_id (set r) = row_id r) ->
        update_rows (Authenticated u) t target set rows = Ok (rows', n) ->
        primary_key rows' /\ (n <= 1)%nat).
Proof.
  intros Hpk. split; [|split].
  - intros user_id row rows'. unfold insert_row.
    destruct (check_ok _ _ _ _); [|discriminate].
    destruct user_id as [o|]; [|discriminate].
    case_bool_decide as Hdup; [discriminate|]. intros [= <-].
    unfold primary_key. rewrite map_app. simpl.
    apply NoDup_app. split; [exact Hpk|]. split; [|apply NoDup_singleton].
    intros k Hk Hk'. apply list_elem_of_singleton in Hk'. subst k. contradiction.
  - intros target. rewrite delete_rows_own. simpl. split.
    + now apply map_id_filter_NoDup.
    + now apply at_most_one_mine.
  - intros target set rows' n Hid. rewrite update_rows_own.
    destruct (forallb _ _); [|discriminate]. intros [= <- <-]. split.
    + unfold primary_key. rewrite map_map.
      erewrite map_ext; [exact Hpk|]. intros r. simpl.
      case_bool_decide; [apply Hid | reflexivity].
    + now apply at_most_one_mine.
Qed.

Lemma primary_key_kept_witness :
  primary_key (delete_rows (Authenticated Sample.alice) Table.tasks "t-1"
                 [Sample.report; Sample.audit]).1
  /\ ((delete_rows (Authenticated Sample.alice) Table.tasks "t-1"
         [Sample.report; Sample.audit]).2 <= 1)%nat.
Proof.
  assert (Hpk : primary_key [Sample.report; Sample.audit])
    by (apply (bool_decide_unpack _); vm_compute; exact I).
  exact (proj1 (proj2 (primary_key_kept Table.tasks Sample.alice _ Hpk)) "t-1"%string).
Defined.

(** ** Foreign keys across deletes *)

Lemma resolves_same_ids {R : Type} `{TableRow R} (ref : option uuid) (rows rows' : list R) :
  map row_id rows' = map row_id rows -> resolves ref rows -> resolves ref rows'.
Proof. unfold resolves. intros ->. auto. Qed.

Lemma kept_ids (me : session) (t : Table.t) {R : Type} `{TableRow R}
    (target k : uuid) (rows : list R) :
  k <> target -> k ∈ map row_id rows ->
  k ∈ map row_id (filter (fun r => targeted me t DELETE target r = false) rows).
Proof.
  intros Hk Hin. apply list_elem_of_fmap in Hin as (r & -> & Hin).
  apply list_elem_of_fmap_2, list_elem_of_filter. split; [|exact Hin].
  unfold targeted. rewrite bool_decide_eq_false_2 by assumption. reflexivity.
Qed.

Lemma resolves_set_null (me : session) (t : Table.t) {R : Type} `{TableRow R}
    (target : uuid) (ref : option uuid) (rows : list R) :
  resolves ref rows ->
  resolves (on_delete_set_null target ref)
    (filter (fun r => targeted me t DELETE target r = false) rows).
Proof.
  unfold resolves, on_delete_set_null. destruct ref as [k|]; [|auto].
  case_bool_decide as Hk; [auto|]. now apply kept_ids.
Qed.

Lemma Forall_resolves_map {A B : Type} `{TableRow B} (proj : A -> option uuid)
    (f : A -> A) (L : list A) (T T' : list B) :
  (forall r, resolves (proj r) T -> resolves (proj (f r)) T') ->
  Forall (fun r => resolves (proj r) T) L ->
  Forall (fun r => resolves (proj r) T') (map f L).
Proof.
  intros Hf HL. apply Forall_forall. intros r' Hin.
  apply list_elem_of_fmap in Hin as (r & -> & Hin).
  apply Hf. rewrite Forall_forall in HL. now apply HL.
Qed.

Lemma Forall_resolves_filter {A B : Type} `{TableRow B} (proj : A -> option uuid)
    (P : A -> Prop) `{forall r, Decision (P r)} (L : list A) (T T' : list B) :
  (forall ref, resolves ref T -> resolves ref T') ->
  Forall (fun r => resolves (proj r) T) L ->
  Forall (fun r => resolves (proj r) T') (filter P L).
Proof.
  intros Hf HL. apply Forall_forall. intros r Hin.
  apply list_elem_of_filter in Hin as [_ Hin].
  apply Hf. rewrite Forall_forall in HL. now apply HL.
Qed.

Ltac same_ids :=
  apply resolves_same_ids; rewrite map_map; apply map_ext;
  let r := fresh in intros r; destruct r; reflexivity.

Ltac one_key :=
  first
    [ assumption
    | eapply Forall_resolves_map; [| eassumption];
      let r := fresh in intros r; destruct r; simpl;
      first [ apply resolves_set_null | same_ids | auto ]
    | eapply Forall_resolves_filter; [| eassumption];
      first [ intros ?; same_ids | auto ] ].

(** X6.  Deleting a row never leaves a reference dangling: if every
    [company_id], [contact_id] and [deal_id] of the database is null or the
    id of an existing row, the same is true after a delete by id on any of
    the five tables, by any session. *)
Theorem delete_keeps_references (me : session) (t : Table.t) (target : uuid)
    (db : database) :
  referential_integrity db ->
  referential_integrity (delete_from me t target db).1.
Proof.
  intros [H1 H2 H3 H4 H5 H6 H7 H8 H9].
  destruct t; unfold delete_from, delete_company, delete_contact, delete_deal,
    delete_task, delete_activity, delete_rows.
  - destruct (length _); simpl; constructor; simpl; one_key.
  - destruct (length _); simpl; constructor; simpl; one_key.
  - destruct (length _); simpl; constructor; simpl; one_key.
  - simpl; constructor; simpl; one_key.
  - simpl; constructor; simpl; one_key.
Qed.

Lemma delete_keeps_references_witness :
  referential_integrity
    (delete_from (Authenticated Sample.alice) Table.companies "c-1" Sample.db).1.
Proof.
  apply delete_keeps_references.
  constructor; simpl;
    repeat first [ exact I | apply list_elem_of_here | apply list_elem_of_further
                 | constructor ].
Defined.

(** ** The delete buttons *)

Lemma from_delete_world (me : session) (t : Table.t) (target : uuid) (w : world) :
  wire (from_delete me t target w).2 = wire w ++ [q_delete t target]
  /\ link (from_delete me t target w).2 = tail (link w)
  /\ (if reaches w
      then (from_delete me t target w).1 = Ok (delete_from me t target (store w)).2
           /\ store (from_delete me t target w).2 = (delete_from me t target (store w)).1
      else (from_delete me t target w).1 = Error network_failure
           /\ store (from_delete me t target w).2 = store w).
Proof.
  unfold from_delete, transmit, reaches. simpl.
  destruct (match link w with b :: _ => b | [] => true end).
  - destruct (delete_from me t target (store w)) as [db n]. repeat split.
  - repeat split.
Qed.

(** The order clauses compare any two rows, and do so transitively. *)
#[global] Instance descending_total {R : Type} (key : R -> timestamp) :
  Total (descending key).
Proof. intros a b. unfold descending. lia. Qed.

#[global] Instance descending_trans {R : Type} (key : R -> timestamp) :
  Transitive (descending key).
Proof. intros a b c. unfold descending. lia. Qed.

#[global] Instance ascending_nulls_last_total {R : Type} (key : R -> option timestamp) :
  Total (ascending_nulls_last key).
Proof.
  intros a b. unfold ascending_nulls_last.
  destruct (key a), (key b); try lia; auto.
Qed.

#[global] Instance ascending_nulls_last_trans {R : Type} (key : R -> option timestamp) :
  Transitive (ascending_nulls_last key).
Proof.
  intros a b c. unfold ascending_nulls_last.
  destruct (key a), (key b), (key c); try lia; auto.
Qed.

Lemma sorted_shown_in_order {R : Type} (order : relation R) `{!RelDecision order}
    `{!Total order} `{!Transitive order} (rows : list R) :
  shown_in_order order rows (merge_sort order rows).
Proof.
  split; [apply merge_sort_Permutation | now apply StronglySorted_merge_sort].
Qed.

Lemma fetchTasks_state (me : session) (st : Tasks.state) (w : world) :
  Tasks.loading (Tasks.fetchTasks me st w).1 = false
  /\ Tasks.filter_by (Tasks.fetchTasks me st w).1 = Tasks.filter_by st
  /\ Tasks.tasks (Tasks.fetchTasks me st w).1
     = if reaches w
       then merge_sort (ascending_nulls_last Task.due_date)
              (select_rows me Table.tasks (Database.tasks (store w)))
       else Tasks.tasks st.
Proof.
  unfold Tasks.fetchTasks, from_select_order, transmit, reaches. simpl.
  destruct (match link w with b :: _ => b | [] => true end); repeat split.
Qed.

Lemma fetchDeals_state (me : session) (st : Deals.state) (w : world) :
  Deals.loading (Deals.fetchDeals me st w).1 = false
  /\ Deals.deals (Deals.fetchDeals me st w).1
     = if reaches w
       then merge_sort (descending Deal.created_at)
              (select_rows me Table.deals (Database.deals (store w)))
       else Deals.deals st.
Proof.
  unfold Deals.fetchDeals, from_select_order, transmit, reaches. simpl.
  destruct (match link w with b :: _ => b | [] => true end); repeat split.
Qed.

Lemma reaches_nil (w : world) : link w = [] -> reaches w = true.
Proof. unfold reaches. now intros ->. Qed.

Lemma delete_task_own (u id : uuid) (db : database) :
  (delete_from (Authenticated u) Table.tasks id db).1
  = Database.with_tasks (filter (fun r => ~ mine u id r) (Database.tasks db)) db.
Proof. unfold delete_from, delete_task. now rewrite delete_rows_own. Qed.

(** X7.  The delete button of a task.  Declined at the confirmation it does
    nothing at all.  Confirmed but not reaching the store, it has sent the
    one delete and left state and store alone, without fetching.  Confirmed
    with the network up, it removes from the tasks table the caller's row
    with that id and no other row, leaves the other tables as they are,
    fetches again, and the list then shown holds the caller's tasks
    without that id, by due date with the undated ones last. *)
Theorem task_delete_button (u id : uuid) (st : Tasks.state) (w : world) :
  TasksScreen.handleDelete (Authenticated u) false id st w = (st, w)
  /\ (reaches w = false ->
      TasksScreen.handleDelete (Authenticated u) true id st w
      = (st, World (store w) (wire w ++ [q_delete Table.tasks id]) (tail (link w))))
  /\ (link w = [] ->
      let after := TasksScreen.handleDelete (Authenticated u) true id st w in
      store after.2
      = Database.with_tasks
          (filter (fun r => ~ mine u id r) (Database.tasks (store w))) (store w)
      /\ wire after.2
         = wire w ++ [q_delete Table.tasks id; q_select Table.tasks "*" false]
      /\ shown_in_order (ascending_nulls_last Task.due_date)
           (filter (fun r => row_id r <> id) (owned_by u (Database.tasks (store w))))
           (Tasks.tasks after.1)
      /\ Tasks.loading after.1 = false).
Proof.
  split; [reflexivity|]. split.
  - intros Hdown. unfold TasksScreen.handleDelete.
    pose proof (from_delete_world (Authenticated u) Table.tasks id w) as (Hw & Hl & Hr).
    rewrite Hdown in Hr. destruct Hr as [Hr Hs].
    destruct (from_delete (Authenticated u) Table.tasks id w) as [r w1].
    cbn [fst snd] in *. subst r. f_equal. destruct w1; cbn in *. congruence.
  - intros Hup after. subst after. unfold TasksScreen.handleDelete.
    pose proof (from_delete_world (Authenticated u) Table.tasks id w) as (Hw & Hl & Hr).
    rewrite (reaches_nil w Hup) in Hr. destruct Hr as [Hr Hs].
    destruct (from_delete (Authenticated u) Table.tasks id w) as [r w1].
    cbn [fst snd] in *. subst r.
    destruct (fetchTasks_world (Authenticated u) st w1) as [Hs2 Hw2].
    destruct (fetchTasks_state (Authenticated u) st w1) as (Hl2 & _ & Ht2).
    rewrite Hup in Hl. cbn in Hl. rewrite (reaches_nil w1 Hl) in Ht2.
    rewrite Hs2, Hw2, Ht2, Hl2, Hs, Hw, delete_task_own.
    split; [reflexivity|]. split; [now rewrite <- app_assoc|].
    split; [|reflexivity]. cbn [Database.tasks Database.with_tasks].
    rewrite select_after_delete. apply sorted_shown_in_order; apply _.
Qed.

Lemma task_delete_button_witness :
  let after := TasksScreen.handleDelete (Authenticated Sample.alice) true "t-1"
                 (Tasks.State [] true Tasks.all) (World Sample.db [] []) in
  shown_in_order (ascending_nulls_last Task.due_date)
    (filter (fun r => row_id r <> "t-1"%string)
       (owned_by Sample.alice (Database.tasks Sample.db)))
    (Tasks.tasks after.1).
Proof.
  exact (proj1 (proj2 (proj2 (proj2 (proj2
           (task_delete_button Sample.alice "t-1" (Tasks.State [] true Tasks.all)
              (World Sample.db [] []))) eq_refl)))).
Defined.

Ltac set_null_row' r gone ref :=
  cbv [deal_contact_set_null task_contact_set_null activity_contact_set_null
       task_deal_set_null activity_deal_set_null reference_cleared
       deal_same_but_contact task_same_but_contact task_same_but_deal
       activity_same_but_contact activity_same_but_deal];
  destruct (on_delete_set_null_spec gone ref) as (Hne & Hnull & Hkeep);
  destruct r; simpl in *;
  repeat match goal with |- _ /\ _ => split end;
  try reflexivity; try assumption;
  let Hr := fresh in intros Hr; rewrite (Hkeep Hr); reflexivity.

Lemma task_deal_set_null_spec (gone : uuid) (r : Task.t) :
  reference_cleared Task.deal_id task_same_but_deal gone r (task_deal_set_null gone r).
Proof. set_null_row' r gone (Task.deal_id r). Qed.

Lemma activity_deal_set_null_spec (gone : uuid) (r : Activity.t) :
  reference_cleared Activity.deal_id activity_same_but_deal gone
    r (activity_deal_set_null gone r).
Proof. set_null_row' r gone (Activity.deal_id r). Qed.

Lemma deal_contact_set_null_spec (gone : uuid) (r : Deal.t) :
  reference_cleared Deal.contact_id deal_same_but_contact gone
    r (deal_contact_set_null gone r).
Proof. set_null_row' r gone (Deal.contact_id r). Qed.

Lemma task_contact_set_null_spec (gone : uuid) (r : Task.t) :
  reference_cleared Task.contact_id task_same_but_contact gone
    r (task_contact_set_null gone r).
Proof. set_null_row' r gone (Task.contact_id r). Qed.

Lemma activity_contact_set_null_spec (gone : uuid) (r : Activity.t) :
  reference_cleared Activity.contact_id activity_same_but_contact gone
    r (activity_contact_set_null gone r).
Proof. set_null_row' r gone (Activity.contact_id r). Qed.

Lemma some_mine_length {R : Type} `{TableRow R} (u id : uuid) (rows : list R) :
  (exists r, r ∈ rows /\ mine u id r) ->
  exists n, length (filter (mine u id) rows) = S n.
Proof.
  intros (r & Hin & Hm).
  destruct (length (filter (mine u id) rows)) eqn:Hn; [|eauto].
  apply length_zero_iff_nil in Hn.
  assert (Hr : r ∈ filter (mine u id) rows) by (apply list_elem_of_filter; auto).
  rewrite Hn in Hr. inversion Hr.
Qed.

Lemma none_mine_length {R : Type} `{TableRow R} (u id : uuid) (rows : list R) :
  (forall r, r ∈ rows -> ~ mine u id r) ->
  length (filter (mine u id) rows) = 0%nat
  /\ filter (fun r => ~ mine u id r) rows = rows.
Proof.
  intros Hn. rewrite (filter_none_in (mine u id) rows Hn). split; [reflexivity|].
  induction rows as [|r rows IH]; [reflexivity|].
  rewrite filter_cons_True by (apply Hn; left).
  rewrite IH; [reflexivity|]. intros r' Hr'. apply Hn. now right.
Qed.

(** The database after a delete by id on deals. *)
Lemma delete_deal_own (u id : uuid) (db : database) :
  Database.deals (delete_from (Authenticated u) Table.deals id db).1
  = filter (fun r => ~ mine u id r) (Database.deals db)
  /\ ((exists d, d ∈ Database.deals db /\ mine u id d) ->
      (delete_from (Authenticated u) Table.deals id db).1
      = Database.mk (Database.companies db) (Database.contacts db)
          (filter (fun r => ~ mine u id r) (Database.deals db))
          (map (task_deal_set_null id) (Database.tasks db))
          (map (activity_deal_set_null id) (Database.activities db)))
  /\ ((forall d, d ∈ Database.deals db -> ~ mine u id d) ->
      (delete_from (Authenticated u) Table.deals id db).1 = db).
Proof.
  unfold delete_from, delete_deal. rewrite delete_rows_own.
  split; [|split].
  - destruct (length (filter (mine u id) (Database.deals db))) eqn:Hn; [|reflexivity].
    simpl. apply length_zero_iff_nil in Hn. symmetry.
    apply (none_mine_length u id). intros r Hr Hm.
    assert (Hin : r ∈ filter (mine u id) (Database.deals db))
      by (apply list_elem_of_filter; auto).
    rewrite Hn in Hin. inversion Hin.
  - intros Hsome. destruct (some_mine_length u id _ Hsome) as [n ->]. reflexivity.
  - intros Hnone. destruct (none_mine_length u id _ Hnone) as [-> _]. reflexivity.
Qed.

(** X8.  The delete button of a deal.  Declined, it does nothing.
    Confirmed with the network up, it sends the delete and then fetches
    again, and the board then holds the caller's deals without that id,
    newest first.  Companies and contacts are untouched.  If the caller had a deal with
    that id, every task and activity is still in its place: one that
    referred to the deal now has a null deal reference and its other
    columns as before, any other is unchanged.  If the caller had none,
    the store is as it was. *)
Theorem deal_delete_button (u id : uuid) (st : Deals.state) (w : world) :
  DealsScreen.handleDelete (Authenticated u) false id st w = (st, w)
  /\ (link w = [] ->
      let after := DealsScreen.handleDelete (Authenticated u) true id st w in
      wire after.2
      = wire w ++ [q_delete Table.deals id;
                   q_select Table.deals "*, company:companies(*), contact:contacts(*)"
                     false]
      /\ shown_in_order (descending Deal.created_at)
           (filter (fun r => row_id r <> id) (owned_by u (Database.deals (store w))))
           (Deals.deals after.1)
      /\ Database.companies (store after.2) = Database.companies (store w)
      /\ Database.contacts (store after.2) = Database.contacts (store w)
      /\ ((exists d, d ∈ Database.deals (store w) /\ mine u id d) ->
          Database.deals (store after.2)
          = filter (fun r => ~ mine u id r) (Database.deals (store w))
          /\ Forall2 (reference_cleared Task.deal_id task_same_but_deal id)
               (Database.tasks (store w)) (Database.tasks (store after.2))
          /\ Forall2 (reference_cleared Activity.deal_id activity_same_but_deal id)
               (Database.activities (store w)) (Database.activities (store after.2)))
      /\ ((forall d, d ∈ Database.deals (store w) -> ~ mine u id d) ->
          store after.2 = store w)).
Proof.
  split; [reflexivity|].
  intros Hup after. subst after. unfold DealsScreen.handleDelete.
  pose proof (from_delete_world (Authenticated u) Table.deals id w) as (Hw & Hl & Hr).
  rewrite (reaches_nil w Hup) in Hr. destruct Hr as [Hr Hs].
  destruct (from_delete (Authenticated u) Table.deals id w) as [r w1].
  cbn [fst snd] in *. subst r.
  destruct (fetchDeals_world (Authenticated u) st w1) as [Hs2 Hw2].
  destruct (fetchDeals_state (Authenticated u) st w1) as (_ & Ht2).
  rewrite Hup in Hl. cbn in Hl. rewrite (reaches_nil w1 Hl) in Ht2.
  rewrite Hs2, Hw2, Ht2, Hs, Hw.
  destruct (delete_deal_own u id (store w)) as (Hdeals & Hsome & Hnone).
  split; [now rewrite <- app_assoc|].
  split; [rewrite Hdeals, select_after_delete; apply sorted_shown_in_order; apply _|].
  assert (Hcc : Database.companies (delete_from (Authenticated u) Table.deals id (store w)).1
                = Database.companies (store w)
                /\ Database.contacts (delete_from (Authenticated u) Table.deals id (store w)).1
                   = Database.contacts (store w)).
  { unfold delete_from, delete_deal, delete_rows. destruct (length _); split; reflexivity. }
  split; [apply Hcc|]. split; [apply Hcc|]. split.
  - intros Hown. rewrite (Hsome Hown). simpl. split; [reflexivity|]. split.
    + apply Forall2_map_cases, task_deal_set_null_spec.
    + apply Forall2_map_cases, activity_deal_set_null_spec.
  - intros Hn. apply Hnone, Hn.
Qed.

Lemma deal_delete_button_witness :
  let after := DealsScreen.handleDelete (Authenticated Sample.alice) true "d-1"
                 (Deals.State [] true false None Deals.emptyForm)
                 (World Sample.db [] []) in
  shown_in_order (descending Deal.created_at)
    (filter (fun r => row_id r <> "d-1"%string)
       (owned_by Sample.alice (Database.deals Sample.db)))
    (Deals.deals after.1).
Proof.
  exact (proj1 (proj2 (proj2 (deal_delete_button Sample.alice "d-1"
                                (Deals.State [] true false None Deals.emptyForm)
                                (World Sample.db [] [])) eq_refl))).
Defined.

(** ** The Start and Complete buttons *)

Lemma quick_buttons_cases (task : Task.t) :
  TasksScreen.quick_buttons task
  = match Task.status task with
    | Task.pending => [Task.in_progress; Task.completed]
    | Task.in_progress => [Task.completed]
    | Task.completed => []
    end.
Proof. unfold TasksScreen.quick_buttons. destruct (Task.status task); reflexivity. Qed.

(** X9.  The quick buttons only move a task forward along pending, in
    progress, completed: every status a card offers is later than the one
    the task has, a completed task offers none, and so no task can be
    clicked through more than two transitions.  When the caller's own task
    is clicked with the network up, the stored row takes the offered status
    and the clicked time and keeps its other columns. *)
Theorem quick_buttons_move_forward (task : Task.t) :
  (forall s, s ∈ TasksScreen.quick_buttons task ->
             (status_rank (Task.status task) < status_rank s)%nat)
  /\ (TasksScreen.quick_buttons task = [] <-> Task.status task = Task.completed)
  /\ (forall t1 t2 t3 : Task.t,
        Task.status t1 ∈ TasksScreen.quick_buttons task ->
        Task.status t2 ∈ TasksScreen.quick_buttons t1 ->
        Task.status t3 ∈ TasksScreen.quick_buttons t2 -> False)
  /\ (forall (u : uuid) (now : timestamp) (s : Task.status_t) (st : Tasks.state)
             (w : world),
        link w = [] -> Task.user_id task = u ->
        task ∈ Database.tasks (store w) -> s ∈ TasksScreen.quick_buttons task ->
        task_with_status s now task
        ∈ Database.tasks
            (store (Tasks.updateTaskStatus (Authenticated u) now (Task.id task) s st w).2)).
Proof.
  assert (Hfwd : forall t s, s ∈ TasksScreen.quick_buttons t ->
                             (status_rank (Task.status t) < status_rank s)%nat).
  { intros t s. rewrite quick_buttons_cases.
    destruct (Task.status t), s; intros Hs; simpl; try lia; exfalso;
      repeat match goal with
             | H : _ ∈ _ :: _ |- _ => apply elem_of_cons in H; destruct H as [H|H]
             | H : _ ∈ [] |- _ => inversion H
             | H : _ = _ |- _ => discriminate H
             end. }
  split; [apply Hfwd|]. split; [|split].
  - rewrite quick_buttons_cases. destruct (Task.status task);
      split; intros E; try discriminate; reflexivity.
  - intros t1 t2 t3 H1 H2 H3.
    apply Hfwd in H1, H2, H3.
    destruct (Task.status task), (Task.status t1), (Task.status t2), (Task.status t3);
      simpl in *; lia.
  - intros u now s st w Hup Hu Hin _.
    pose proof (updateTaskStatus_world (Authenticated u) now (Task.id task) s st w) as Hw.
    cbv zeta in Hw. rewrite (reaches_nil w Hup) in Hw. destruct Hw as [-> _].
    simpl. apply list_elem_of_fmap. exists task. split; [|exact Hin].
    rewrite targeted_own by (left; reflexivity).
    rewrite bool_decide_eq_true_2; [reflexivity | split; [reflexivity | exact Hu]].
Qed.

Lemma quick_buttons_move_forward_witness :
  task_with_status Task.in_progress 7000 Sample.report
  ∈ Database.tasks
      (store (Tasks.updateTaskStatus (Authenticated Sample.alice) 7000 "t-1"
                Task.in_progress (Tasks.State [] true Tasks.all)
                (World Sample.db [] [])).2).
Proof.
  apply (proj2 (proj2 (proj2 (quick_buttons_move_forward Sample.report)))
           Sample.alice 7000 Task.in_progress (Tasks.State [] true Tasks.all)
           (World Sample.db [] []) eq_refl eq_refl).
  - apply list_elem_of_here.
  - apply list_elem_of_here.
Defined.

(** ** The status filter of the Tasks screen *)



(** ** Overdue on the dashboard and on the Tasks screen *)

(** X11.  At one instant and on one task list, the number of cards the
    Tasks screen flags as overdue is the dashboard's overdue count plus the
    number of completed tasks whose due date has passed: every task the
    dashboard counts is flagged on the Tasks screen, and the flagged tasks
    it does not count are the completed ones. *)
Theorem overdue_on_both_screens (now : timestamp) (tasks : list Task.t) :
  Z.of_nat (length (filter (fun t => Tasks.flagged_overdue now t = true) tasks))
  = Dashboard.countOverdue now tasks
    + Z.of_nat (length (filter (fun t => Task.status t = Task.completed
                                         /\ Tasks.flagged_overdue now t = true) tasks))
  /\ (forall t, Dashboard.is_overdue now t = true ->
                Tasks.flagged_overdue now t = true)
  /\ (forall t, Tasks.flagged_overdue now t = true ->
                Dashboard.is_overdue now t = false ->
                Task.status t = Task.completed).
Proof.
  assert (Hrel : forall t, Dashboard.is_overdue now t
                           = Dashboard.is_active t && Tasks.flagged_overdue now t).
  { intros t. unfold Dashboard.is_overdue, Tasks.flagged_overdue, Tasks.render_due,
      Tasks.isOverdue. destruct (Task.due_date t); reflexivity. }
  split; [|split].
  - unfold Dashboard.countOverdue. rewrite <- Nat2Z.inj_add. f_equal.
    induction tasks as [|t tasks IH]; [reflexivity|].
    rewrite !filter_cons, Hrel. unfold Dashboard.is_active.
    destruct (Tasks.flagged_overdue now t) eqn:Hf, (Task.status t) eqn:Hs; simpl.
    all: repeat (destruct (decide _) as [?|?]); simpl; try rewrite IH;
      try lia; try congruence; try tauto.
  - intros t. rewrite Hrel. intros Ht. now apply andb_true_iff in Ht as [_ Ht].
  - intros t Hf. rewrite Hrel, Hf, andb_true_r. unfold Dashboard.is_active.
    destruct (Task.status t); intros; congruence.
Qed.

(** ** The board of the Deals screen *)

Lemma filter_by_keys {A} (f : A -> string) (ks : list string) (l : list A) :
  NoDup ks ->
  concat (map (fun k => filter (fun x => f x = k) l) ks)
  ≡ₚ filter (fun x => f x ∈ ks) l.
Proof.
  induction ks as [|k ks IH]; intros Hnd.
  - simpl. rewrite filter_none; [reflexivity|]. intros x Hx. inversion Hx.
  - apply NoDup_cons in Hnd as [Hk Hnd]. simpl. rewrite (IH Hnd). clear IH.
    induction l as [|x l IHl]; [reflexivity|].
    rewrite !filter_cons.
    destruct (decide (f x = k)) as [E|E].
    + rewrite (decide_True (P := f x ∈ k :: ks)) by (rewrite E; left).
      rewrite (decide_False (P := f x ∈ ks)) by (rewrite E; exact Hk).
      simpl. now constructor.
    + destruct (decide (f x ∈ ks)) as [Hin|Hin].
      * rewrite (decide_True (P := f x ∈ k :: ks)) by (now right).
        rewrite <- Permutation_middle. now constructor.
      * rewrite (decide_False (P := f x ∈ k :: ks)); [exact IHl|].
        intros Hx. apply elem_of_cons in Hx as [?|?]; contradiction.
Qed.

Lemma DEAL_STAGES_NoDup : NoDup Deals.DEAL_STAGES.
Proof. apply (bool_decide_unpack _). vm_compute. exact I. Qed.

(** X12.  The board has one column per pipeline stage, in the order of
    [DEAL_STAGES]; a column holds the fetched deals of its stage, in fetch
    order, and its header counts them.  Taken together the columns hold
    every fetched deal whose stage is a pipeline stage exactly once, and a
    deal with any other stage is on no column. *)
Theorem board_columns (st : Deals.state) :
  map DealsScreen.col_stage (DealsScreen.board st) = Deals.DEAL_STAGES
  /\ Forall (fun c => DealsScreen.cards c
                      = filter (fun d => Deal.stage d = DealsScreen.col_stage c)
                          (Deals.deals st)
                      /\ DealsScreen.card_count c = length (DealsScreen.cards c))
       (DealsScreen.board st)
  /\ concat (map DealsScreen.cards (DealsScreen.board st))
     ≡ₚ filter (fun d => Deal.stage d ∈ Deals.DEAL_STAGES) (Deals.deals st)
  /\ (forall d c, Deal.stage d ∉ Deals.DEAL_STAGES -> c ∈ DealsScreen.board st ->
                  d ∉ DealsScreen.cards c).
Proof.
  unfold DealsScreen.board, DealsScreen.getDealsByStage.
  split; [|split; [|split]].
  - rewrite map_map. reflexivity.
  - apply Forall_forall. intros c Hc.
    apply list_elem_of_fmap in Hc as (s & -> & _). split; reflexivity.
  - rewrite map_map. simpl.
    apply (filter_by_keys Deal.stage Deals.DEAL_STAGES (Deals.deals st)).
    apply DEAL_STAGES_NoDup.
  - intros d c Hout Hc Hd.
    apply list_elem_of_fmap in Hc as (s & -> & Hs). simpl in Hd.
    apply list_elem_of_filter in Hd as [Hst _]. apply Hout. now rewrite Hst.
Qed.

(** A deal whose stage is not one of the six: counted in the total of the
    header, shown in no column. *)
Example deal_off_the_board :
  let odd := Deal.mk "d-8" "Odd" (JS.of_Z 500) "on_hold" (Some 0) None None None None
               Sample.alice 0 0 in
  let st := Deals.State [Sample.first_deal; odd] false false None Deals.emptyForm in
  DealsScreen.getTotalValue st = JS.of_Z 1500
  /\ concat (map DealsScreen.cards (DealsScreen.board st)) = [Sample.first_deal].
Proof. split; vm_compute; reflexivity. Qed.

(** ** The stage counts of the dashboard, added up *)

Lemma counted_comm (j1 j2 : string) (z1 z2 : Dashboard.property) (y : Z) :
  y + counted z2 + counted z1 = y + counted z1 + counted z2.
Proof. lia. Qed.

Lemma entries_total_insert_fresh (m : gmap string Dashboard.property) (k : string)
    (v : Dashboard.property) :
  m !! k = None -> entries_total (<[k:=v]> m) = entries_total m + counted v.
Proof.
  intros Hk. unfold entries_total.
  rewrite map_fold_insert_L; [reflexivity | | exact Hk].
  intros. apply counted_comm; assumption.
Qed.

Lemma entries_total_insert_present (m : gmap string Dashboard.property) (k : string)
    (v old : Dashboard.property) :
  m !! k = Some old ->
  entries_total (<[k:=v]> m) = entries_total m - counted old + counted v.
Proof.
  intros Hk. rewrite <- insert_delete_eq.
  rewrite entries_total_insert_fresh by apply lookup_delete_eq.
  unfold entries_total at 2.
  rewrite (map_fold_delete_L _ _ k old m); [fold (entries_total (delete k m)); lia | | exact Hk].
  intros. apply counted_comm; assumption.
Qed.

Lemma deals_at_le (s : string) (deals : list Deal.t) :
  deals_at s deals <= Z.of_nat (length deals).
Proof.
  unfold deals_at. pose proof (length_filter (fun d => Deal.stage d = s) deals). lia.
Qed.

Lemma stageCount_total (deals : list Deal.t) :
  Forall (fun d => Deal.stage d ∉ Dashboard.Object_prototype) deals ->
  entries_total (Dashboard.stageCount deals) = Z.of_nat (length deals).
Proof.
  induction deals as [|d deals IH] using rev_ind; intros Hok.
  - reflexivity.
  - pose proof (stageCount_counts _ Hok) as Hnew.
    apply Forall_app in Hok as [Hok Hd]. rewrite Forall_singleton in Hd.
    specialize (IH Hok). pose proof (stageCount_counts deals Hok (Deal.stage d)) as Hold.
    unfold Dashboard.stageCount in *. rewrite fold_left_app. simpl.
    set (acc := fold_left _ deals ∅) in *.
    assert (Hproto : Deal.stage d <> "__proto__"%string).
    { intros E. apply Hd. rewrite E. unfold Dashboard.Object_prototype.
      repeat first [ apply list_elem_of_here | apply list_elem_of_further ]. }
    unfold Dashboard.put. rewrite bool_decide_eq_false_2 by assumption.
    rewrite length_app, Nat2Z.inj_add. simpl. unfold Dashboard.bump. rewrite Hold.
    destruct (deals_at (Deal.stage d) deals =? 0) eqn:Hz.
    + rewrite bool_decide_eq_false_2 by assumption.
      rewrite entries_total_insert_fresh by exact Hold.
      simpl. lia.
    + rewrite (entries_total_insert_present _ _ _ (Dashboard.count (deals_at (Deal.stage d) deals)))
        by exact Hold.
      simpl. lia.
Qed.

(** X13.  "Deals by Stage", for fetched deals whose stages are ordinary
    keys: the counts shown add up to the number of deals; each is at least
    1 and at most that number; "No deals yet" is shown exactly when no deal
    was fetched; and the bar of a stage that is shown is computed with a
    denominator other than zero. *)
Theorem stage_counts_add_up (deals : list Deal.t) :
  Forall (fun d => Deal.stage d ∉ Dashboard.Object_prototype) deals ->
  let m := Dashboard.stageCount deals in
  entries_total m = Z.of_nat (length deals)
  /\ (forall s v, m !! s = Some v ->
        exists n, v = Dashboard.count n /\ 1 <= n <= Z.of_nat (length deals))
  /\ (DashboardScreen.shows_no_deals m = true <-> deals = [])
  /\ (forall now contactsResult companiesResult tasksResult activitiesResult s v,
        m !! s = Some v ->
        let stats := (Dashboard.derive now contactsResult companiesResult (Ok deals)
                        tasksResult activitiesResult).1 in
        (DashboardScreen.percentage stats (counted v)).2 = [Z.of_nat (length deals)]
        /\ Z.of_nat (length deals) <> 0).
Proof.
  intros Hok m. pose proof (stageCount_counts deals Hok) as Hcounts. fold m in Hcounts.
  assert (Hentry : forall s v, m !! s = Some v ->
            exists n, v = Dashboard.count n /\ 1 <= n <= Z.of_nat (length deals)).
  { intros s v Hs. rewrite (Hcounts s) in Hs.
    destruct (deals_at s deals =? 0) eqn:Hz; [discriminate|].
    injection Hs as <-. apply Z.eqb_neq in Hz.
    exists (deals_at s deals). split; [reflexivity|].
    pose proof (deals_at_nonneg s deals). pose proof (deals_at_le s deals). lia. }
  split; [apply stageCount_total, Hok|]. split; [exact Hentry|]. split.
  - unfold DashboardScreen.shows_no_deals. rewrite bool_decide_eq_true. split.
    + intros Hm. destruct deals as [|d deals]; [reflexivity|]. exfalso.
      pose proof (Hcounts (Deal.stage d)) as Hd. rewrite Hm, lookup_empty in Hd.
      destruct (deals_at (Deal.stage d) (d :: deals) =? 0) eqn:Hz; [|discriminate].
      apply Z.eqb_eq in Hz. unfold deals_at in Hz.
      rewrite filter_cons_True in Hz by reflexivity. simpl in Hz. lia.
    + intros ->. reflexivity.
  - intros now r1 r2 r4 r5 s v Hs stats.
    destruct (Hentry s v Hs) as (n & -> & Hn).
    unfold DashboardScreen.percentage. subst stats. simpl.
    destruct (0 <? Z.of_nat (length deals)) eqn:Hpos.
    + split; [reflexivity | lia].
    + apply Z.ltb_ge in Hpos. lia.
Qed.

Lemma stage_counts_add_up_witness :
  entries_total (Dashboard.stageCount [Sample.first_deal; Sample.second_deal]) = 2.
Proof.
  assert (Hok : Forall (fun d => Deal.stage d ∉ Dashboard.Object_prototype)
                  [Sample.first_deal; Sample.second_deal])
    by (apply (bool_decide_unpack _); vm_compute; exact I).
  exact (proj1 (stage_counts_add_up _ Hok)).
Defined.

(** ** What the dashboard reads *)

Lemma own_view_tables (u : uuid) (db1 db2 : database) :
  own_view u db1 = own_view u db2 ->
  owned_by u (Database.companies db1) = owned_by u (Database.companies db2)
  /\ owned_by u (Database.contacts db1) = owned_by u (Database.contacts db2)
  /\ owned_by u (Database.deals db1) = owned_by u (Database.deals db2)
  /\ owned_by u (Database.tasks db1) = owned_by u (Database.tasks db2)
  /\ owned_by u (Database.activities db1) = owned_by u (Database.activities db2).
Proof. unfold own_view. intros [= -> -> -> -> ->]. repeat split. Qed.

Lemma select_rows_owned {R : Type} `{TableRow R} (t : Table.t) (u : uuid) (rows : list R) :
  select_rows (Authenticated u) t rows = owned_by u rows.
Proof. apply select_rows_own. Qed.

(** X14.  Loading the dashboard sends its five queries, in the order they
    are written, and changes nothing in the store.  What it derives depends
    on the caller's own rows only: in two worlds with the same network
    behaviour whose stores hold the same rows of the caller, however the
    rows of other users differ, the statistics and stage counts are the
    same. *)
Theorem dashboard_reads_own_rows (u : uuid) (now : timestamp) (w : world) :
  store (Dashboard.fetchDashboardData (Authenticated u) now w).2 = store w
  /\ wire (Dashboard.fetchDashboardData (Authenticated u) now w).2
     = wire w ++ dashboard_queries
  /\ (forall w2 : world,
        own_view u (store w2) = own_view u (store w) -> link w2 = link w ->
        (Dashboard.fetchDashboardData (Authenticated u) now w2).1
        = (Dashboard.fetchDashboardData (Authenticated u) now w).1).
Proof.
  split; [reflexivity|]. split.
  - unfold Dashboard.fetchDashboardData, from_select, from_select_count, transmit.
    simpl. rewrite <- !app_assoc. reflexivity.
  - intros w2 Hview Hlink.
    apply own_view_tables in Hview as (Hc & Hp & Hd & Ht & Ha).
    unfold Dashboard.fetchDashboardData, from_select, from_select_count, transmit.
    simpl. rewrite !select_rows_owned, Hlink, Hc, Hp, Hd, Ht, Ha. reflexivity.
Qed.

Lemma dashboard_reads_own_rows_witness :
  (Dashboard.fetchDashboardData (Authenticated Sample.alice) 6000
     (World (Database.mk [Sample.acme] [Sample.jane]
               [Sample.first_deal; Sample.second_deal] [Sample.report] [Sample.kickoff])
        [] [])).1
  = (Dashboard.fetchDashboardData (Authenticated Sample.alice) 6000
       (World Sample.db [] [])).1.
Proof.
  apply (proj2 (proj2 (dashboard_reads_own_rows Sample.alice 6000 (World Sample.db [] [])))).
  - reflexivity.
  - reflexivity.
Defined.

(** ** Fetching a list *)

Lemma fetchActivities_state (me : session) (st : Activities.state) (w : world) :
  Activities.loading (Activities.fetchActivities me st w).1 = false
  /\ Activities.isModalOpen (Activities.fetchActivities me st w).1
     = Activities.isModalOpen st
  /\ Activities.formData (Activities.fetchActivities me st w).1 = Activities.formData st
  /\ Activities.activities (Activities.fetchActivities me st w).1
     = if reaches w
       then merge_sort (descending Activity.activity_date)
              (select_rows me Table.activities (Database.activities (store w)))
       else Activities.activities st.
Proof.
  unfold Activities.fetchActivities, from_select_order, transmit, reaches. simpl.
  destruct (match link w with b :: _ => b | [] => true end); repeat split.
Qed.

(** X15.  A fetch on the Tasks, Deals or Activities screen never touches
    the store and always clears the loading flag.  When it reaches the
    store the list becomes the caller's own rows of the table and no row
    of anybody else, in the order of the clause: tasks by due date with the
    undated ones last, deals by creation time and activities by activity
    date, both latest first.  When it does not, the list shown before
    stays. *)
Theorem fetch_shows_own_rows (u : uuid) (w : world) :
  (forall st : Tasks.state,
     let st' := (Tasks.fetchTasks (Authenticated u) st w).1 in
     store (Tasks.fetchTasks (Authenticated u) st w).2 = store w
     /\ Tasks.loading st' = false
     /\ (reaches w = true ->
         shown_in_order (ascending_nulls_last Task.due_date)
           (owned_by u (Database.tasks (store w))) (Tasks.tasks st'))
     /\ (reaches w = false -> Tasks.tasks st' = Tasks.tasks st))
  /\ (forall st : Deals.state,
        let st' := (Deals.fetchDeals (Authenticated u) st w).1 in
        store (Deals.fetchDeals (Authenticated u) st w).2 = store w
        /\ Deals.loading st' = false
        /\ (reaches w = true ->
            shown_in_order (descending Deal.created_at)
              (owned_by u (Database.deals (store w))) (Deals.deals st'))
        /\ (reaches w = false -> Deals.deals st' = Deals.deals st))
  /\ (forall st : Activities.state,
        let st' := (Activities.fetchActivities (Authenticated u) st w).1 in
        store (Activities.fetchActivities (Authenticated u) st w).2 = store w
        /\ Activities.loading st' = false
        /\ (reaches w = true ->
            shown_in_order (descending Activity.activity_date)
              (owned_by u (Database.activities (store w))) (Activities.activities st'))
        /\ (reaches w = false -> Activities.activities st' = Activities.activities st)).
Proof.
  split; [|split]; intros st st'; subst st'.
  - destruct (fetchTasks_world (Authenticated u) st w) as [Hs _].
    destruct (fetchTasks_state (Authenticated u) st w) as (Hl & _ & Ht).
    rewrite Hs, Hl, Ht, select_rows_owned.
    split; [reflexivity|]. split; [reflexivity|]. split.
    + intros ->. apply sorted_shown_in_order; apply _.
    + now intros ->.
  - destruct (fetchDeals_world (Authenticated u) st w) as [Hs _].
    destruct (fetchDeals_state (Authenticated u) st w) as (Hl & Ht).
    rewrite Hs, Hl, Ht, select_rows_owned.
    split; [reflexivity|]. split; [reflexivity|]. split.
    + intros ->. apply sorted_shown_in_order; apply _.
    + now intros ->.
  - destruct (fetchActivities_appends (Authenticated u) st w)
      as (_ & Ha & Hc & Hp & Hd & Ht).
    destruct (fetchActivities_state (Authenticated u) st w) as (Hl & _ & _ & Hact).
    rewrite Hl, Hact, select_rows_owned. split; [|split; [reflexivity|split]].
    + rewrite app_nil_r in Ha.
      destruct (store (Activities.fetchActivities (Authenticated u) st w).2), (store w).
      simpl in *. congruence.
    + intros ->. apply sorted_shown_in_order; apply _.
    + now intros ->.
Qed.

Lemma fetch_shows_own_rows_witness :
  shown_in_order (ascending_nulls_last Task.due_date)
    (owned_by Sample.alice (Database.tasks Sample2.unsorted))
    (Tasks.tasks (Tasks.fetchTasks (Authenticated Sample.alice)
                    (Tasks.State [] true Tasks.all) (World Sample2.unsorted [] [])).1).
Proof.
  exact (proj1 (proj2 (proj2 (proj1 (fetch_shows_own_rows Sample.alice
                                       (World Sample2.unsorted [] []))
                                (Tasks.State [] true Tasks.all)))) eq_refl).
Defined.

(** Stored undated first and latest due date next, shown by due date. *)
Example fetch_orders_the_tasks :
  Database.tasks Sample2.unsorted
  = [Sample2.errand Sample.alice; Sample2.late; Sample.audit; Sample.report]
  /\ Tasks.tasks (Tasks.fetchTasks (Authenticated Sample.alice)
                    (Tasks.State [] true Tasks.all) (World Sample2.unsorted [] [])).1
     = [Sample.report; Sample2.late; Sample2.errand Sample.alice].
Proof. split; vm_compute; reflexivity. Qed.

(** ** Creating through the forms *)

Lemma insert_without_user_id (me : session) (t : Table.t) {R : Type} `{TableRow R}
    (row : uuid -> R) (rows : list R) :
  insert_row me t None row rows = Error row_level_security_violation.
Proof.
  unfold insert_row.
  assert (Hc : check_ok me t INSERT None = false).
  { destruct me as [|u]; [apply anonymous_no_policy|].
    rewrite check_ok_own. now apply bool_decide_eq_false_2. }
  now rewrite Hc.
Qed.

(** X16.  With the schema of the migration, where [user_id] has no default
    and the insert policy asks for [auth.uid() = user_id], the bodies the
    Activities form and the Deals form send on a create name no [user_id]
    and are refused by the store: the submission leaves the store as it
    was, the form as it was typed and the modal open, and no fetch
    follows. *)
Theorem form_creates_are_refused (me : session) (now : timestamp) (fresh : uuid)
    (w : world) :
  (forall st : Activities.state,
     Activities.handleSubmit me now fresh st w
     = (st, World (store w) (wire w ++ [q_insert_activity (Activities.formData st)])
              (tail (link w))))
  /\ (forall st : Deals.state,
        Deals.editingDeal st = None ->
        Deals.handleSubmit me now fresh st w
        = (st, World (store w)
                 (wire w ++ [q_insert_deal (Deals.build_dealData now (Deals.form st))])
                 (tail (link w))))
  /\ (forall body : activityData,
        reaches w = true ->
        (from_activities_insert me body fresh now w).1
        = Error row_level_security_violation).
Proof.
  split; [|split].
  - intros st. unfold Activities.handleSubmit, from_activities_insert, transmit. simpl.
    rewrite insert_without_user_id.
    destruct (match link w with b :: _ => b | [] => true end); reflexivity.
  - intros st Hnew. unfold Deals.handleSubmit, from_deals_insert, transmit.
    rewrite Hnew. simpl.
    destruct (integer_column _); rewrite ?insert_without_user_id;
      destruct (match link w with b :: _ => b | [] => true end); reflexivity.
  - intros body Hup. unfold from_activities_insert, transmit, reaches in *. simpl.
    rewrite Hup, insert_without_user_id. reflexivity.
Qed.

Lemma form_creates_are_refused_witness :
  Deals.handleSubmit (Authenticated Sample.alice) 7000 "d-9"
    (Deals.State [] false true None Sample.form_1000e_1) (World Sample.db [] [])
  = (Deals.State [] false true None Sample.form_1000e_1,
     World Sample.db [q_insert_deal (Deals.build_dealData 7000 Sample.form_1000e_1)] []).
Proof.
  exact (proj1 (proj2 (form_creates_are_refused (Authenticated Sample.alice) 7000 "d-9"
                         (World Sample.db [] [])))
           (Deals.State [] false true None Sample.form_1000e_1) eq_refl).
Defined.

(** ** The Contacts screen *)

Lemma fetchContacts_world (me : session) (st : Contacts.state) (w : world) :
  store (Contacts.fetchContacts me st w).2 = store w
  /\ wire (Contacts.fetchContacts me st w).2
     = wire w ++ [q_select Table.contacts "*, company:companies(*)" false]
  /\ link (Contacts.fetchContacts me st w).2 = tail (link w).
Proof.
  unfold Contacts.fetchContacts, from_select_order, transmit. simpl.
  destruct (match link w with b :: _ => b | [] => true end); repeat split.
Qed.

Lemma fetchContacts_state (me : session) (st : Contacts.state) (w : world) :
  Contacts.loading (Contacts.fetchContacts me st w).1 = false
  /\ Contacts.searchTerm (Contacts.fetchContacts me st w).1 = Contacts.searchTerm st
  /\ Contacts.contacts (Contacts.fetchContacts me st w).1
     = if reaches w
       then map (fun c => Contacts.Joined c (Contacts.embed me (store w) c))
              (merge_sort (descending Contact.created_at)
                 (select_rows me Table.contacts (Database.contacts (store w))))
       else Contacts.contacts st.
Proof.
  unfold Contacts.fetchContacts, from_select_order, transmit, reaches. simpl.
  destruct (match link w with b :: _ => b | [] => true end); repeat split.
Qed.

Lemma contacts_of_joined (me : session) (db : database) (l : list Contact.t) :
  map Contacts.contact (map (fun c => Contacts.Joined c (Contacts.embed me db c)) l) = l.
Proof. rewrite map_map. apply map_id. Qed.

(** The database after a delete by id on contacts. *)
Lemma delete_contact_own (u id : uuid) (db : database) :
  Database.contacts (delete_from (Authenticated u) Table.contacts id db).1
  = filter (fun r => ~ mine u id r) (Database.contacts db)
  /\ Database.companies (delete_from (Authenticated u) Table.contacts id db).1
     = Database.companies db
  /\ ((exists c, c ∈ Database.contacts db /\ mine u id c) ->
      (delete_from (Authenticated u) Table.contacts id db).1
      = Database.mk (Database.companies db)
          (filter (fun r => ~ mine u id r) (Database.contacts db))
          (map (deal_contact_set_null id) (Database.deals db))
          (map (task_contact_set_null id) (Database.tasks db))
          (map (activity_contact_set_null id) (Database.activities db)))
  /\ ((forall c, c ∈ Database.contacts db -> ~ mine u id c) ->
      (delete_from (Authenticated u) Table.contacts id db).1 = db).
Proof.
  unfold delete_from, delete_contact. rewrite delete_rows_own.
  split; [|split; [|split]].
  - destruct (length (filter (mine u id) (Database.contacts db))) eqn:Hn; [|reflexivity].
    simpl. apply length_zero_iff_nil in Hn. symmetry.
    apply (none_mine_length u id). intros r Hr Hm.
    assert (Hin : r ∈ filter (mine u id) (Database.contacts db))
      by (apply list_elem_of_filter; auto).
    rewrite Hn in Hin. inversion Hin.
  - destruct (length _); reflexivity.
  - intros Hsome. destruct (some_mine_length u id _ Hsome) as [n ->]. reflexivity.
  - intros Hnone. destruct (none_mine_length u id _ Hnone) as [-> _]. reflexivity.
Qed.

(** X17.  The delete button of a contact.  Declined, it does nothing.
    Confirmed with the network up, it sends the delete and then the fetch
    with the company join, and the table then lists the caller's contacts
    without that id, newest first.  Companies are untouched.  If the caller had a
    contact with that id, every deal, task and activity is still in its
    place: one that referred to the contact now has a null contact
    reference and its other columns as before, any other is unchanged.  If
    the caller had none, the store is as it was. *)
Theorem contact_delete_button (u id : uuid) (st : Contacts.state) (w : world) :
  Contacts.handleDelete (Authenticated u) false id st w = (st, w)
  /\ (link w = [] ->
      let after := Contacts.handleDelete (Authenticated u) true id st w in
      wire after.2
      = wire w ++ [q_delete Table.contacts id;
                   q_select Table.contacts "*, company:companies(*)" false]
      /\ shown_in_order (descending Contact.created_at)
           (filter (fun r => row_id r <> id) (owned_by u (Database.contacts (store w))))
           (map Contacts.contact (Contacts.contacts after.1))
      /\ Database.companies (store after.2) = Database.companies (store w)
      /\ ((exists c, c ∈ Database.contacts (store w) /\ mine u id c) ->
          Database.contacts (store after.2)
          = filter (fun r => ~ mine u id r) (Database.contacts (store w))
          /\ Forall2 (reference_cleared Deal.contact_id deal_same_but_contact id)
               (Database.deals (store w)) (Database.deals (store after.2))
          /\ Forall2 (reference_cleared Task.contact_id task_same_but_contact id)
               (Database.tasks (store w)) (Database.tasks (store after.2))
          /\ Forall2 (reference_cleared Activity.contact_id activity_same_but_contact id)
               (Database.activities (store w)) (Database.activities (store after.2)))
      /\ ((forall c, c ∈ Database.contacts (store w) -> ~ mine u id c) ->
          store after.2 = store w)).
Proof.
  split; [reflexivity|].
  intros Hup after. subst after. unfold Contacts.handleDelete.
  pose proof (from_delete_world (Authenticated u) Table.contacts id w) as (Hw & Hl & Hr).
  rewrite (reaches_nil w Hup) in Hr. destruct Hr as [Hr Hs].
  destruct (from_delete (Authenticated u) Table.contacts id w) as [r w1].
  cbn [fst snd] in *. subst r.
  destruct (fetchContacts_world (Authenticated u) st w1) as (Hs2 & Hw2 & _).
  destruct (fetchContacts_state (Authenticated u) st w1) as (_ & _ & Ht2).
  rewrite Hup in Hl. cbn in Hl. rewrite (reaches_nil w1 Hl) in Ht2.
  rewrite Hs2, Hw2, Ht2, Hs, Hw.
  destruct (delete_contact_own u id (store w)) as (Hcontacts & Hcompanies & Hsome & Hnone).
  split; [now rewrite <- app_assoc|].
  split.
  { rewrite contacts_of_joined, Hcontacts, select_after_delete.
    apply sorted_shown_in_order; apply _. }
  split; [apply Hcompanies|]. split.
  - intros Hown. rewrite (Hsome Hown). simpl. split; [reflexivity|]. split; [|split].
    + apply Forall2_map_cases, deal_contact_set_null_spec.
    + apply Forall2_map_cases, task_contact_set_null_spec.
    + apply Forall2_map_cases, activity_contact_set_null_spec.
  - intros Hn. apply Hnone, Hn.
Qed.

Lemma contact_delete_button_witness :
  let after := Contacts.handleDelete (Authenticated Sample.alice) true "p-1"
                 Sample2.contacts_screen (World Sample2.crossed [] []) in
  shown_in_order (descending Contact.created_at)
    (filter (fun r => row_id r <> "p-1"%string)
       (owned_by Sample.alice (Database.contacts Sample2.crossed)))
    (map Contacts.contact (Contacts.contacts after.1)).
Proof.
  exact (proj1 (proj2 (proj2 (contact_delete_button Sample.alice "p-1"
                                Sample2.contacts_screen
                                (World Sample2.crossed [] [])) eq_refl))).
Defined.

(** ** The company shown beside a contact *)

Lemma embed_own (u : uuid) (db : database) (c : Contact.t) :
  match Contacts.embed (Authenticated u) db c with
  | Some co =>
      co ∈ Database.companies db /\ Company.user_id co = u
      /\ Contact.company_id c = Some (Company.id co)
  | None =>
      forall co, co ∈ Database.companies db -> Company.user_id co = u ->
                 Contact.company_id c <> Some (Company.id co)
  end.
Proof.
  unfold Contacts.embed. rewrite select_rows_owned.
  destruct (Contact.company_id c) as [k|]; [|discriminate].
  destruct (find _ _) as [co|] eqn:Hf.
  - apply find_some in Hf as [Hin Hk].
    apply list_elem_of_In, list_elem_of_filter in Hin as [Hu Hin].
    apply bool_decide_eq_true in Hk. subst k. auto.
  - intros co Hin Hu [= ->].
    assert (Hco : co ∈ owned_by u (Database.companies db))
      by (apply list_elem_of_filter; auto).
    apply list_elem_of_In in Hco.
    pose proof (find_none _ _ Hf co Hco) as Hno. simpl in Hno.
    now rewrite bool_decide_eq_true_2 in Hno.
Qed.

(** X18.  What a fetch of the Contacts screen puts beside each contact: the
    contacts listed are the caller's, newest first; a company shown with a
    contact is a row of the companies table that the caller owns and that
    the contact's [company_id] names; and a contact is listed without a
    company exactly when it names no company the caller owns, so a
    reference to another user's company shows nothing of that company. *)
Theorem joined_company_is_own (u : uuid) (st : Contacts.state) (w : world) :
  reaches w = true ->
  let after := Contacts.fetchContacts (Authenticated u) st w in
  shown_in_order (descending Contact.created_at)
    (owned_by u (Database.contacts (store w)))
    (map Contacts.contact (Contacts.contacts after.1))
  /\ Forall (fun j =>
       match Contacts.company j with
       | Some co =>
           co ∈ Database.companies (store w) /\ Company.user_id co = u
           /\ Contact.company_id (Contacts.contact j) = Some (Company.id co)
       | None =>
           forall co, co ∈ Database.companies (store w) -> Company.user_id co = u ->
                      Contact.company_id (Contacts.contact j) <> Some (Company.id co)
       end) (Contacts.contacts after.1).
Proof.
  intros Hup after. subst after.
  destruct (fetchContacts_state (Authenticated u) st w) as (_ & _ & ->).
  rewrite Hup, select_rows_owned. split.
  - rewrite contacts_of_joined. apply sorted_shown_in_order; apply _.
  - apply Forall_forall. intros j Hin.
    apply list_elem_of_fmap in Hin as (c & -> & _). simpl. apply embed_own.
Qed.

Lemma joined_company_is_own_witness :
  Contacts.contacts
    (Contacts.fetchContacts (Authenticated Sample.alice) Sample2.contacts_screen
       (World Sample2.crossed [] [])).1
  = [Contacts.Joined Sample2.mole None; Contacts.Joined Sample.jane (Some Sample.acme)]
  /\ shown_in_order (descending Contact.created_at)
       (owned_by Sample.alice (Database.contacts Sample2.crossed))
       (map Contacts.contact
          (Contacts.contacts
             (Contacts.fetchContacts (Authenticated Sample.alice) Sample2.contacts_screen
                (World Sample2.crossed [] [])).1)).
Proof.
  split; [vm_compute; reflexivity|].
  exact (proj1 (joined_company_is_own Sample.alice Sample2.contacts_screen
                  (World Sample2.crossed [] []) eq_refl)).
Defined.

(** ** The Contacts screen after a company is deleted *)

Lemma owned_by_map {R : Type} `{TableRow R} (u : uuid) (f : R -> R) (rows : list R) :
  (forall r, row_user (f r) = row_user r) ->
  owned_by u (map f rows) = map f (owned_by u rows).
Proof.
  intros Hf. unfold owned_by. induction rows as [|r rows IH]; [reflexivity|].
  simpl. rewrite !filter_cons, Hf. destruct (decide (row_user r = u)); simpl; now rewrite IH.
Qed.

Lemma Forall2_map_right {A B} (P : A -> B -> Prop) (f : A -> B) (l : list A) :
  (forall x, P x (f x)) -> Forall2 P l (map f l).
Proof. intros Hf. induction l; simpl; constructor; auto. Qed.

(** X19.  A user deletes one of their companies and the Contacts screen
    fetches again: it lists the user's contacts one for one, newest first;
    a contact that belonged to the company has a null [company_id] and its
    other columns as before, any other contact is unchanged; and no row
    shows the deleted company. *)
Theorem contacts_after_company_delete (u k : uuid) (st : Contacts.state) (w : world) :
  link w = [] ->
  (exists c, c ∈ Database.companies (store w) /\ mine u k c) ->
  let w1 := (from_delete (Authenticated u) Table.companies k w).2 in
  let after := Contacts.fetchContacts (Authenticated u) st w1 in
  StronglySorted (descending Contact.created_at)
    (map Contacts.contact (Contacts.contacts after.1))
  /\ exists before,
       before ≡ₚ owned_by u (Database.contacts (store w))
       /\ Forall2 (fun c j =>
                     reference_cleared Contact.company_id contact_same_but_company k
                       c (Contacts.contact j)
                     /\ (forall co, Contacts.company j = Some co -> Company.id co <> k))
            before (Contacts.contacts after.1).
Proof.
  intros Hup Hown w1 after. subst after w1.
  pose proof (from_delete_world (Authenticated u) Table.companies k w) as (_ & Hl & Hr).
  rewrite (reaches_nil w Hup) in Hr. destruct Hr as [_ Hs].
  destruct (from_delete (Authenticated u) Table.companies k w) as [r w1].
  cbn [fst snd] in *.
  destruct (fetchContacts_state (Authenticated u) st w1) as (_ & _ & ->).
  rewrite Hup in Hl. cbn in Hl. rewrite (reaches_nil w1 Hl).
  rewrite select_rows_owned, Hs. unfold delete_from.
  destruct (delete_company_own u k (store w) Hown) as [-> _].
  cbn [Database.contacts].
  rewrite owned_by_map by (intros []; reflexivity).
  set (db' := Database.mk _ _ _ _ _).
  set (shown := merge_sort _ _).
  split.
  { rewrite contacts_of_joined. subst shown. now apply StronglySorted_merge_sort; apply _. }
  assert (Hperm : shown ≡ₚ map (contact_company_set_null k)
                             (owned_by u (Database.contacts (store w))))
    by apply merge_sort_Permutation.
  apply Permutation_map_inv in Hperm as (before & Hshown & Hbefore).
  exists before. split; [now symmetry|].
  rewrite Hshown, map_map. apply Forall2_map_right. intros c.
  pose proof (contact_set_null_spec k c) as Hc. split; [exact Hc|].
  intros co Hco. cbn [Contacts.company] in Hco.
  pose proof (embed_own u db' (contact_company_set_null k c)) as He.
  rewrite Hco in He. destruct He as (_ & _ & He).
  destruct Hc as (_ & Hne & _). intros Hk. apply Hne. now rewrite He, Hk.
Qed.

Lemma contacts_after_company_delete_witness :
  let w1 := (from_delete (Authenticated Sample.alice) Table.companies "c-1"
               (World Sample2.crossed [] [])).2 in
  let after := Contacts.fetchContacts (Authenticated Sample.alice)
                 Sample2.contacts_screen w1 in
  StronglySorted (descending Contact.created_at)
    (map Contacts.contact (Contacts.contacts after.1))
  /\ exists before,
       before ≡ₚ owned_by Sample.alice (Database.contacts Sample2.crossed)
       /\ Forall2 (fun c j =>
                     reference_cleared Contact.company_id contact_same_but_company "c-1"
                       c (Contacts.contact j)
                     /\ (forall co, Contacts.company j = Some co
                                    -> Company.id co <> "c-1"%string))
            before (Contacts.contacts after.1).
Proof.
  apply (contacts_after_company_delete Sample.alice "c-1" Sample2.contacts_screen
           (World Sample2.crossed [] []) eq_refl).
  exists Sample.acme. split; [apply list_elem_of_here | split; reflexivity].
Defined.

(** The two contacts of the sample after Acme is deleted: the later one
    first, and Jane without her company. *)
Example acme_deleted_then_contacts :
  Contacts.contacts
    (Contacts.fetchContacts (Authenticated Sample.alice) Sample2.contacts_screen
       (from_delete (Authenticated Sample.alice) Table.companies "c-1"
          (World Sample2.crossed [] [])).2).1
  = [Contacts.Joined Sample2.mole None;
     Contacts.Joined (contact_company_set_null "c-1" Sample.jane) None].
Proof. vm_compute. reflexivity. Qed.

(** ** Searching the contacts *)

Lemma prefix_spec (sub s : string) :
  String.prefix sub s = true <-> exists b, s = String.append sub b.
Proof.
  revert s. induction sub as [|c sub IH]; intros s; simpl.
  - split; [intros _; now exists s | intros _; destruct s; reflexivity].
  - destruct s as [|d s]; simpl.
    + split; [discriminate | intros [b Hb]; discriminate].
    + destruct (ascii_dec c d) as [->|Hne].
      * split.
        -- intros Hp. apply IH in Hp as [b ->]. now exists b.
        -- intros [b [= Hb]]. apply IH. now exists b.
      * split; [discriminate | intros [b [= Hc _]]; now destruct Hne].
Qed.

Lemma includes_spec (s sub : string) :
  Contacts.includes s sub = true <-> occurs_in sub s.
Proof.
  unfold occurs_in. induction s as [|c s IH]; cbn [Contacts.includes].
  - rewrite orb_false_r, prefix_spec. split.
    + intros [b Hb]. now exists EmptyString, b.
    + intros (a & b & Hab). destruct a; [now exists b | discriminate].
  - rewrite orb_true_iff, IH, prefix_spec. split.
    + intros [[b Hb] | (a & b & Hab)].
      * now exists EmptyString, b.
      * exists (String c a), b. simpl. now rewrite Hab.
    + intros (a & b & Hab). destruct a as [|c' a]; simpl in Hab.
      * left. now exists b.
      * right. injection Hab as _ Hab. now exists a, b.
Qed.

Lemma includes_empty (s : string) : Contacts.includes s "" = true.
Proof. destruct s; reflexivity. Qed.

Lemma matches_spec (toLowerCase : string -> string) (t : string) (j : Contacts.joined) :
  Contacts.matches toLowerCase t j = true
  <-> exists field, field ∈ searched_fields j
                    /\ occurs_in (toLowerCase t) (toLowerCase field).
Proof.
  unfold Contacts.matches, searched_fields.
  rewrite !orb_true_iff, !includes_spec. split.
  - intros [[[Hf | Hl] | He] | Hc].
    + eexists. split; [apply list_elem_of_here | exact Hf].
    + eexists. split; [apply list_elem_of_further, list_elem_of_here | exact Hl].
    + destruct (Contact.email (Contacts.contact j)) as [e|]; [|discriminate].
      apply includes_spec in He. exists e. split; [|exact He].
      do 2 apply list_elem_of_further. apply elem_of_app. left. apply list_elem_of_here.
    + destruct (Contacts.company j) as [co|]; [|discriminate].
      apply includes_spec in Hc. exists (Company.name co). split; [|exact Hc].
      do 2 apply list_elem_of_further. apply elem_of_app. right. apply list_elem_of_here.
  - intros (field & Hin & Hocc). simpl in Hin.
    apply elem_of_cons in Hin as [-> | Hin]; [auto|].
    apply elem_of_cons in Hin as [-> | Hin]; [auto|].
    apply elem_of_app in Hin as [Hin | Hin].
    + destruct (Contact.email (Contacts.contact j)) as [e|]; [|inversion Hin].
      apply list_elem_of_singleton in Hin as ->. left. right. now apply includes_spec.
    + destruct (Contacts.company j) as [co|]; [|inversion Hin].
      apply list_elem_of_singleton in Hin as ->. right. now apply includes_spec.
Qed.

Lemma ascii_lower_idem (c : ascii) : ascii_lower (ascii_lower c) = ascii_lower c.
Proof. destruct c as [[] [] [] [] [] [] [] []]; reflexivity. Qed.

Lemma ascii_toLowerCase_idem (s : string) :
  ascii_toLowerCase (ascii_toLowerCase s) = ascii_toLowerCase s.
Proof. induction s as [|c s IH]; simpl; [reflexivity|]. now rewrite ascii_lower_idem, IH. Qed.

(** X20.  The search box of the Contacts screen, whatever [toLowerCase]
    does to a string.  The rows shown are rows of the fetched list, in its
    order.  A fetched contact is shown exactly when the lower-cased term
    occurs in the lower-cased first name, last name, email (if it has one)
    or name of the company shown with it.  With an empty term, which lower
    case leaves empty, every fetched contact is shown.  And the case of
    what is typed does not matter: if lower-casing twice is lower-casing
    once, a term and its lower-case form show the same rows. *)
Theorem contact_search (toLowerCase : string -> string) (st : Contacts.state) :
  sublist (Contacts.filteredContacts toLowerCase st) (Contacts.contacts st)
  /\ (forall j, j ∈ Contacts.filteredContacts toLowerCase st
                <-> j ∈ Contacts.contacts st
                    /\ exists field, field ∈ searched_fields j
                                     /\ occurs_in (toLowerCase (Contacts.searchTerm st))
                                          (toLowerCase field))
  /\ (toLowerCase "" = ""%string ->
      Contacts.filteredContacts toLowerCase (Contacts.setSearchTerm "" st)
      = Contacts.contacts st)
  /\ ((forall s, toLowerCase (toLowerCase s) = toLowerCase s) ->
      forall t,
        Contacts.filteredContacts toLowerCase (Contacts.setSearchTerm (toLowerCase t) st)
        = Contacts.filteredContacts toLowerCase (Contacts.setSearchTerm t st)).
Proof.
  split; [|split; [|split]].
  - apply sublist_filter.
  - intros j. unfold Contacts.filteredContacts.
    rewrite list_elem_of_filter, matches_spec. tauto.
  - intros Hempty. unfold Contacts.filteredContacts, Contacts.setSearchTerm. simpl.
    apply filter_all. intros j. unfold Contacts.matches.
    rewrite Hempty, includes_empty. reflexivity.
  - intros Hidem t. unfold Contacts.filteredContacts, Contacts.setSearchTerm. simpl.
    apply list_filter_iff. intros j. unfold Contacts.matches. now rewrite Hidem.
Qed.

Lemma contact_search_witness :
  Contacts.filteredContacts ascii_toLowerCase
    (Contacts.setSearchTerm ""
       (Contacts.State [Contacts.Joined Sample.jane (Some Sample.acme)] [] false "x"
          false None Contacts.emptyForm))
  = [Contacts.Joined Sample.jane (Some Sample.acme)]
  /\ Contacts.filteredContacts ascii_toLowerCase
       (Contacts.setSearchTerm (ascii_toLowerCase "ACME")
          (Contacts.State [Contacts.Joined Sample.jane (Some Sample.acme)] [] false "x"
             false None Contacts.emptyForm))
     = Contacts.filteredContacts ascii_toLowerCase
         (Contacts.setSearchTerm "ACME"
            (Contacts.State [Contacts.Joined Sample.jane (Some Sample.acme)] [] false "x"
               false None Contacts.emptyForm)).
Proof.
  split.
  - exact (proj1 (proj2 (proj2 (contact_search ascii_toLowerCase
             (Contacts.State [Contacts.Joined Sample.jane (Some Sample.acme)] [] false "x"
                false None Contacts.emptyForm)))) eq_refl).
  - exact (proj2 (proj2 (proj2 (contact_search ascii_toLowerCase
             (Contacts.State [Contacts.Joined Sample.jane (Some Sample.acme)] [] false "x"
                false None Contacts.emptyForm)))) ascii_toLowerCase_idem "ACME"%string).
Defined.

Example search_finds_by_company :
  Contacts.filteredContacts ascii_toLowerCase
    (Contacts.State [Contacts.Joined Sample.jane (Some Sample.acme);
                     Contacts.Joined Sample2.mole None] [] false "ACM" false None
       Contacts.emptyForm)
  = [Contacts.Joined Sample.jane (Some Sample.acme)].
Proof. vm_compute. reflexivity. Qed.

(** ** Editing a contact *)

Lemma contact_patch_keeps_owner (body : list ContactUpdate.assignment) (r : Contact.t) :
  Contact.user_id (ContactUpdate.patch body r) = Contact.user_id r
  /\ Contact.id (ContactUpdate.patch body r) = Contact.id r.
Proof.
  unfold ContactUpdate.patch. revert r.
  induction body as [|a body IH]; intros r; [split; reflexivity|].
  simpl. destruct (IH (ContactUpdate.assign r a)) as [-> ->].
  destruct a; split; reflexivity.
Qed.

(** X21.  Opening a contact in the edit form and saving it untouched does
    not leave the row as it was.  The body of the update carries the empty
    string for each of email, phone, title and notes that was null, so
    those columns end up as empty strings; names and company are written
    back as they were, [updated_at] is the time of the save, and id, owner
    and [created_at] are not in the body.  Since the body does not name
    [user_id], the row-level check of the update passes for the owner. *)
Theorem contact_edit_untouched (u : uuid) (now : timestamp) (j : Contacts.joined)
    (st : Contacts.state) (rows : list Contact.t) :
  Contact.company_id (Contacts.contact j) <> Some ""%string ->
  let opened := Contacts.openModal (Some j) st in
  let body := Contacts.contactData now (Contacts.form opened) in
  let c := Contacts.contact j in
  Contacts.editingContact opened = Some j
  /\ ContactUpdate.patch body c
     = Contact.mk (Contact.id c) (Contact.first_name c) (Contact.last_name c)
         (Some (Contacts.or_empty (Contact.email c)))
         (Some (Contacts.or_empty (Contact.phone c)))
         (Some (Contacts.or_empty (Contact.title c)))
         (Contact.company_id c)
         (Some (Contacts.or_empty (Contact.notes c)))
         (Contact.user_id c) (Contact.created_at c) now
  /\ update_rows (Authenticated u) Table.contacts (Contact.id c)
       (ContactUpdate.patch body) rows
     = Ok (map (fun r => if bool_decide (mine u (Contact.id c) r)
                         then ContactUpdate.patch body r else r) rows,
           length (filter (mine u (Contact.id c)) rows)).
Proof.
  intros Hcid opened body c. subst opened body c.
  split; [reflexivity|]. split.
  - destruct j as [c co]. destruct c as [id fn ln em ph ti cid no us cr up].
    cbn in *. f_equal.
    unfold Deals.or_null. destruct cid as [k|]; simpl; [|reflexivity].
    case_bool_decide as Hk; [subst k; contradiction | reflexivity].
  - rewrite update_rows_own.
    match goal with |- (if ?b then _ else _) = _ => assert (Hall : b = true) end.
    { apply forallb_forall. intros r Hin.
      apply list_elem_of_In, list_elem_of_filter in Hin as [[_ Hu] _].
      apply bool_decide_eq_true. cbn [row_user Contact_Row].
      now rewrite (proj1 (contact_patch_keeps_owner _ r)). }
    now rewrite Hall.
Qed.

Lemma contact_edit_untouched_witness :
  ContactUpdate.patch
    (Contacts.contactData 9000
       (Contacts.form (Contacts.openModal
                         (Some (Contacts.Joined Sample.jane (Some Sample.acme)))
                         Sample2.contacts_screen)))
    Sample.jane
  = Contact.mk "p-1" "Jane" "Doe" (Some "") (Some "") (Some "") (Some "c-1") (Some "")
      Sample.alice 2000 9000.
Proof.
  exact (proj1 (proj2 (contact_edit_untouched Sample.alice 9000
                         (Contacts.Joined Sample.jane (Some Sample.acme))
                         Sample2.contacts_screen [Sample.jane]
                         ltac:(discriminate)))).
Defined.

(** ** The activity log by day *)

Lemma on_day_snoc (label : timestamp -> string) (d : string) (acts : list Activity.t)
    (a : Activity.t) :
  on_day label d (acts ++ [a])
  = on_day label d acts ++ (if decide (label (Activity.activity_date a) = d) then [a] else []).
Proof.
  unfold on_day. rewrite filter_app. f_equal.
Qed.

Lemma add_to_group_throws (label : timestamp -> string) (acts : list Activity.t) :
  fold_left (ActivitiesScreen.add_to_group label) acts None = None.
Proof. induction acts; simpl; auto. Qed.

Lemma groups_by_day (label : timestamp -> string) (acts : list Activity.t) :
  Forall (fun a => label (Activity.activity_date a) ∉ Dashboard.Object_prototype) acts ->
  exists g, ActivitiesScreen.groupActivitiesByDate label acts = Some g
            /\ forall d, g !! d = match on_day label d acts with
                                  | [] => None
                                  | l => Some l
                                  end.
Proof.
  unfold ActivitiesScreen.groupActivitiesByDate.
  induction acts as [|a acts IH] using rev_ind; intros Hplain.
  - exists ∅. split; [reflexivity|]. intros d. apply lookup_empty.
  - apply Forall_app in Hplain as [Hacts Ha]. rewrite Forall_singleton in Ha.
    destruct (IH Hacts) as (g & Hg & Hlook).
    rewrite fold_left_app, Hg. cbn [fold_left ActivitiesScreen.add_to_group].
    set (date := label (Activity.activity_date a)) in *.
    pose proof (Hlook date) as Hdate.
    destruct (g !! date) as [l|] eqn:Hl.
    + eexists. split; [reflexivity|]. intros d. rewrite on_day_snoc. fold date.
      destruct (decide (date = d)) as [<-|Hd].
      * rewrite lookup_insert_eq.
        destruct (on_day label date acts) as [|x xs]; [discriminate|].
        injection Hdate as ->. reflexivity.
      * rewrite lookup_insert_ne by exact Hd. rewrite app_nil_r. apply Hlook.
    + rewrite bool_decide_eq_false_2 by exact Ha.
      eexists. split; [reflexivity|]. intros d. rewrite on_day_snoc. fold date.
      destruct (decide (date = d)) as [<-|Hd].
      * rewrite lookup_insert_eq.
        destruct (on_day label date acts) as [|x xs]; [reflexivity | discriminate].
      * rewrite lookup_insert_ne by exact Hd. rewrite app_nil_r. apply Hlook.
Qed.

Lemma on_day_none (label : timestamp -> string) (d : string) (acts : list Activity.t) :
  Forall (fun a => label (Activity.activity_date a) ∉ Dashboard.Object_prototype) acts ->
  d ∈ Dashboard.Object_prototype -> on_day label d acts = [].
Proof.
  intros Hplain Hd. apply filter_none_in. intros a Hin Ha.
  rewrite Forall_forall in Hplain. apply (Hplain a Hin). now rewrite Ha.
Qed.

Lemma group_throws (label : timestamp -> string) (acts : list Activity.t) :
  Exists (fun a => label (Activity.activity_date a) ∈ Dashboard.Object_prototype) acts ->
  ActivitiesScreen.groupActivitiesByDate label acts = None.
Proof.
  unfold ActivitiesScreen.groupActivitiesByDate.
  induction acts as [|a acts IH] using rev_ind; intros Hex.
  - inversion Hex.
  - rewrite fold_left_app.
    destruct (decide (Forall (fun a => label (Activity.activity_date a)
                                       ∉ Dashboard.Object_prototype) acts)) as [Hall|Hnot].
    + apply Exists_app in Hex as [Hex|Hex].
      * apply Exists_exists in Hex as (x & Hin & Hx).
        rewrite Forall_forall in Hall. now destruct (Hall x Hin).
      * apply Exists_cons in Hex as [Ha|Hex]; [|inversion Hex].
        destruct (groups_by_day label acts Hall) as (g & Hg & Hlook).
        unfold ActivitiesScreen.groupActivitiesByDate in Hg. rewrite Hg.
        cbn [fold_left ActivitiesScreen.add_to_group].
        rewrite Hlook, (on_day_none label _ acts Hall Ha).
        now rewrite bool_decide_eq_true_2.
    + apply not_Forall_Exists in Hnot; [|intros x; apply _].
      rewrite IH; [reflexivity|].
      apply Exists_exists in Hnot as (x & Hin & Hx). apply Exists_exists.
      exists x. split; [exact Hin|]. now apply dec_stable.
Qed.

(** X22.  The activity log grouped by day, whatever [toLocaleDateString]
    makes of an instant.  If no label is the name of a property of
    [Object.prototype], the grouping returns an object whose keys are the
    labels that occur: under each key it holds exactly the fetched
    activities with that label, in the fetched order, so every activity is
    in the group of its own day and in no other, and no group is empty.
    If some label is such a name, the grouping throws. *)
Theorem activities_grouped_by_day (label : timestamp -> string) (acts : list Activity.t) :
  (Forall (fun a => label (Activity.activity_date a) ∉ Dashboard.Object_prototype) acts ->
   exists g, ActivitiesScreen.groupActivitiesByDate label acts = Some g
             /\ (forall d l, g !! d = Some l <-> l = on_day label d acts /\ l <> [])
             /\ (forall a, a ∈ acts ->
                           forall d, (exists l, g !! d = Some l /\ a ∈ l)
                                     <-> d = label (Activity.activity_date a)))
  /\ (Exists (fun a => label (Activity.activity_date a) ∈ Dashboard.Object_prototype) acts ->
      ActivitiesScreen.groupActivitiesByDate label acts = None).
Proof.
  split; [|apply group_throws].
  intros Hplain. destruct (groups_by_day label acts Hplain) as (g & Hg & Hlook).
  exists g. split; [exact Hg|]. split.
  - intros d l. rewrite Hlook. destruct (on_day label d acts) as [|x xs].
    + split; [discriminate | intros [-> Hne]; contradiction].
    + split; [intros [= <-]; split; [reflexivity | discriminate] | intros [-> _]; reflexivity].
  - intros a Hin d. split.
    + intros (l & Hl & Ha). rewrite Hlook in Hl.
      destruct (on_day label d acts) as [|x xs] eqn:Hd; [discriminate|].
      injection Hl as <-. rewrite <- Hd in Ha.
      apply list_elem_of_filter in Ha as [Ha _]. now symmetry.
    + intros ->. rewrite Hlook.
      assert (Ha : a ∈ on_day label (label (Activity.activity_date a)) acts)
        by (apply list_elem_of_filter; auto).
      destruct (on_day label (label (Activity.activity_date a)) acts) as [|x xs];
        [inversion Ha|].
      eexists. split; [reflexivity | exact Ha].
Qed.

Lemma activities_grouped_by_day_witness :
  exists g,
    ActivitiesScreen.groupActivitiesByDate Sample2.day_number
      [Sample2.review; Sample.kickoff; Sample2.standup] = Some g
    /\ (forall d l, g !! d = Some l
                    <-> l = on_day Sample2.day_number d
                              [Sample2.review; Sample.kickoff; Sample2.standup]
                        /\ l <> []).
Proof.
  destruct (proj1 (activities_grouped_by_day Sample2.day_number
                     [Sample2.review; Sample.kickoff; Sample2.standup]))
    as (g & Hg & Hgroups & _).
  - repeat constructor; vm_compute; intros Hin;
      repeat (apply elem_of_cons in Hin as [Hin | Hin]; [discriminate|]);
      inversion Hin.
  - exists g. split; [exact Hg | exact Hgroups].
Defined.

Example log_of_two_days :
  ActivitiesScreen.groupActivitiesByDate Sample2.day_number
    [Sample2.review; Sample.kickoff; Sample2.standup]
  = Some (<["1" := [Sample2.review]]> (<["0" := [Sample.kickoff; Sample2.standup]]> ∅)).
Proof. vm_compute. reflexivity. Qed.
